(** * Portfolio MCP server: dispatch pipeline, rate limiter, analytics, export

    A shallow embedding of the request-processing core of the portfolio
    MCP server (TypeScript, [src/mcp-server/src]) together with the
    properties its specification states about it.

    Conventions of the embedding:
    - JavaScript numbers that hold integers (millisecond instants, counts,
      years) are [Z];
    - JavaScript strings are [string]; an optional property is an [option],
      and a property used in a condition is tested for truthiness (for a
      string: present and non-empty);
    - [Map<string, _>] is a [gmap string _];
    - module-level mutable state is passed explicitly: a function that
      mutates returns the new state next to its result;
    - [Date.now()], [new Date()] and [uuidv4()] are arguments;
    - library functions ([JSON.stringify], Zod, [URL]) and numbers that
      need not be integers are parameters of the sections that use
      them. *)

From Stdlib Require Import ZArith Lia List Ascii String.
From stdpp Require Import base option list gmap strings pretty sorting.

Set Warnings "-register-all".

Local Open Scope string_scope.
Local Open Scope Z_scope.

(** ** JavaScript helpers *)

(** Truthiness of an optional string property: [undefined] and the empty
    string are falsy. *)
Definition truthy (o : option string) : bool :=
  match o with
  | Some s => negb (String.eqb s EmptyString)
  | None => false
  end.

(** [x || d] on numbers, with [x] an integer: [0] is falsy. *)
Definition num_or (x d : Z) : Z := if x =? 0 then d else x.

(** [Math.ceil(x / d)] for integers [x] and [d > 0]. *)
Definition ceil_div (x d : Z) : Z := - ((- x) / d).

(** [`${n}`] for an integer [n]. *)
Definition show (n : Z) : string := pretty n.

(** [parts.join(sep)]. *)
Fixpoint join (sep : string) (parts : list string) : string :=
  match parts with
  | [] => EmptyString
  | [p] => p
  | p :: rest => p +:+ sep +:+ join sep rest
  end.

(** ** Rate limiter ([middleware/rate-limiter.ts]) *)
Module RateLimiter.

Record RateLimitConfig := {
  windowMs : Z;
  maxRequests : Z;
  skipSuccessfulRequests : bool;
  skipFailedRequests : bool;
}.

Record RateLimitResult := {
  allowed : bool;
  remaining : Z;
  resetTime : Z;
  totalRequests : Z;
}.

Record RequestInfo := {
  ip : option string;
  userAgent : option string;
  timestamp : Z;
}.

(** The part of the incoming request object the limiter reads. *)
Record Request := {
  req_ip : option string;
  req_userAgent : option string;
}.

(** [private requests: Map<string, RequestInfo[]>]. *)
Abbreviation requests_map := (gmap string (list RequestInfo)).

(** The constructor: falsy settings fall back to the defaults. *)
Definition constructor (w m : Z) : RateLimitConfig :=
  {| windowMs := num_or w (15 * 60 * 1000);
     maxRequests := num_or m 100;
     skipSuccessfulRequests := false;
     skipFailedRequests := false |}.

Definition generateKey (request : Request) : string :=
  if truthy (req_ip request) then "ip:" +:+ default EmptyString (req_ip request)
  else if truthy (req_userAgent request)
       then "ua:" +:+ default EmptyString (req_userAgent request)
       else "anonymous".

(** [requests.filter(req => req.timestamp > windowStart)]. *)
Definition prune (windowStart : Z) (l : list RequestInfo) : list RequestInfo :=
  filter (fun req => windowStart < timestamp req) l.

Definition checkLimit (config : RateLimitConfig) (now : Z) (request : Request)
    (requests : requests_map) : RateLimitResult * requests_map :=
  let key := generateKey request in
  let windowStart := now - windowMs config in
  let userRequests := default [] (requests !! key) in
  let userRequests := prune windowStart userRequests in
  let allowed := bool_decide (Z.of_nat (length userRequests) < maxRequests config) in
  let userRequests' :=
    if allowed
    then (userRequests ++ [ {| ip := req_ip request;
                               userAgent := req_userAgent request;
                               timestamp := now |} ])%list
    else userRequests in
  let requests' :=
    if allowed then <[key := userRequests']> requests else requests in
  ({| allowed := allowed;
      remaining := Z.max 0 (maxRequests config - Z.of_nat (length userRequests'));
      resetTime := ceil_div (windowStart + windowMs config - now) 1000;
      totalRequests := Z.of_nat (length userRequests') |},
   requests').

(** The periodic sweep. *)
Definition cleanup (config : RateLimitConfig) (now : Z)
    (requests : requests_map) : requests_map :=
  let windowStart := now - windowMs config in
  omap (fun l => match prune windowStart l with
                 | [] => None
                 | v => Some v
                 end) requests.

Definition reset (request : Request) (requests : requests_map) : requests_map :=
  delete (generateKey request) requests.

Definition resetAll (requests : requests_map) : requests_map := ∅.

(** A run of calls by one caller, at the given instants. *)
Fixpoint run (config : RateLimitConfig) (request : Request) (times : list Z)
    (requests : requests_map) : list RateLimitResult * requests_map :=
  match times with
  | [] => ([], requests)
  | now :: rest =>
      let '(r, requests') := checkLimit config now request requests in
      let '(rs, requests'') := run config request rest requests' in
      (r :: rs, requests'')
  end.

(** The timestamps of a caller that lie in the window ending at [now]. *)
Definition inWindow (config : RateLimitConfig) (now : Z) (request : Request)
    (requests : requests_map) : list RequestInfo :=
  prune (now - windowMs config) (default [] (requests !! generateKey request)).

(** Refinement target for the reset time, following the specification's
    words: the seconds until the oldest timestamp of the caller's log
    (before pruning) leaves the window, clamped at zero. *)
Definition resetTimeSeconds_spec (config : RateLimitConfig) (now : Z)
    (request : Request) (requests : requests_map) : Z :=
  match default [] (requests !! generateKey request) with
  | [] => 0
  | oldest :: _ =>
      Z.max 0 (ceil_div (timestamp oldest + windowMs config - now) 1000)
  end.

(** The entry a call at [now] pushes. *)
Definition entry (now : Z) (request : Request) : RequestInfo :=
  {| ip := req_ip request; userAgent := req_userAgent request; timestamp := now |}.


(** The configuration and caller of the specification's scenario. *)
Definition scenario_config : RateLimitConfig := constructor 1000 2.
Definition caller_X : Request := {| req_ip := Some "X"; req_userAgent := None |}.

End RateLimiter.

(** ** JSON-like dynamic values (tool arguments, error contexts) *)
Inductive JsVal :=
  | JUndefined
  | JNull
  | JBool (b : bool)
  | JNum (n : Z)
  | JStr (s : string)
  | JArr (items : list JsVal)
  | JObj (fields : list (string * JsVal)).

(** ** Error taxonomy and handler ([utils/error-handler.ts]) *)
Module ErrorHandler.

(** An open key/value map. *)
Abbreviation context_map := (gmap string JsVal).

Record ErrorDetails := {
  message : string;
  code : string;
  statusCode : Z;
  timestamp : string;
  context : option context_map;
}.

(** The fields [PortfolioError] adds to [Error]. *)
Record PortfolioFields := {
  pf_code : string;
  pf_statusCode : Z;
  pf_context : option context_map;
}.

(** A thrown JavaScript error: [portfolio] is [Some _] exactly for the
    instances of [PortfolioError]; [err_errors] is the [errors]
    property ([undefined] on errors that have none). *)
Record Error := {
  err_name : string;
  err_message : string;
  portfolio : option PortfolioFields;
  err_errors : JsVal;
}.

(** [new Error(message)]. *)
Definition newError (message : string) : Error :=
  {| err_name := "Error"; err_message := message;
     portfolio := None; err_errors := JUndefined |}.

(** [new PortfolioError(message, code, statusCode, context)], renamed by
    the subclass constructors. *)
Definition PortfolioError (name message code : string) (statusCode : Z)
    (context : option context_map) : Error :=
  {| err_name := name; err_message := message;
     portfolio := Some {| pf_code := code; pf_statusCode := statusCode;
                          pf_context := context |};
     err_errors := JUndefined |}.

Definition ValidationError (message : string) (context : option context_map) : Error :=
  PortfolioError "ValidationError" message "VALIDATION_ERROR" 400 context.

Definition NotFoundError (resource : string) (id : option string) : Error :=
  let message :=
    if truthy id then resource +:+ " not found with ID: " +:+ default EmptyString id
    else resource +:+ " not found" in
  PortfolioError "NotFoundError" message "NOT_FOUND" 404
    (Some {[ "resource" := JStr resource;
             "id" := from_option JStr JUndefined id ]}).

Definition RateLimitError (resetTime : Z) : Error :=
  PortfolioError "RateLimitError"
    ("Rate limit exceeded. Try again in " +:+ show resetTime +:+ " seconds.")
    "RATE_LIMIT_EXCEEDED" 429 (Some {[ "resetTime" := JNum resetTime ]}).

(** [{ ...a, ...b }]: the later spread wins; spreading [undefined] adds
    nothing. *)
Definition spread2 (a b : option context_map) : context_map :=
  default ∅ b ∪ default ∅ a.

(** [handleError(error, context)]; [timestamp] is
    [new Date().toISOString()]. *)
Definition handleError (timestamp : string) (error : Error)
    (context : option context_map) : ErrorDetails :=
  match portfolio error with
  | Some pf =>
      {| message := err_message error;
         code := pf_code pf;
         statusCode := pf_statusCode pf;
         timestamp := timestamp;
         context := Some (spread2 (pf_context pf) context) |}
  | None =>
      if String.eqb (err_name error) "TypeError" then
        {| message := "Invalid input type"; code := "TYPE_ERROR";
           statusCode := 400; timestamp := timestamp; context := context |}
      else if String.eqb (err_name error) "SyntaxError" then
        {| message := "Invalid syntax in request"; code := "SYNTAX_ERROR";
           statusCode := 400; timestamp := timestamp; context := context |}
      else if String.eqb (err_name error) "ReferenceError" then
        {| message := "Reference error in processing"; code := "REFERENCE_ERROR";
           statusCode := 500; timestamp := timestamp; context := context |}
      else if String.eqb (err_name error) "ZodError" then
        {| message := "Validation failed"; code := "VALIDATION_ERROR";
           statusCode := 400; timestamp := timestamp;
           context := Some (<["validationErrors" := err_errors error]>
                              (default ∅ context)) |}
      else
        {| message := if String.eqb (err_message error) EmptyString
                      then "An unexpected error occurred"
                      else err_message error;
           code := "INTERNAL_ERROR";
           statusCode := 500;
           timestamp := timestamp;
           context := context |}
  end.

(** [details.context?.[key]]. *)
Definition contextEntry (details : ErrorDetails) (key : string) : option JsVal :=
  match context details with
  | Some c => c !! key
  | None => None
  end.

End ErrorHandler.

(** ** Input validation ([utils/validation.ts]) *)
Module Validation.

Record Tool := {
  name : string;
  description : string;
  inputSchema : option JsVal;
}.

Record ValidationResult := {
  valid : bool;
  errors : list string;
  data : option JsVal;
}.

(** One element of a Zod issue path: a property name or an array index. *)
Inductive PathElem :=
  | Key (k : string)
  | Index (i : Z).

Record ZodIssue := {
  path : list PathElem;
  issue_message : string;
}.

(** What [jsonSchemaToZod(schema).safeParse(input)] can do: succeed with
    the parsed data, fail with a list of issues, or throw while the
    schema is converted ([thrown] is the message the handler prints:
    [error.message], or "Unknown error" for a non-[Error] value). *)
Inductive ZodOutcome :=
  | ParseSuccess (data : JsVal)
  | ParseFailure (issues : list ZodIssue)
  | Thrown (thrown : string).

Definition pathElemToString (p : PathElem) : string :=
  match p with
  | Key k => k
  | Index i => show i
  end.

(** [`${err.path.join('.')}: ${err.message}`]. *)
Definition formatIssue (err : ZodIssue) : string :=
  join "." (map pathElemToString (path err)) +:+ ": " +:+ issue_message err.

Section WithZod.
(** The Zod library, [jsonSchemaToZod(schema).safeParse(input)]. *)
Variable zodSafeParse : JsVal -> JsVal -> ZodOutcome.

Definition validateToolInput (tool : Tool) (input : JsVal) : ValidationResult :=
  match inputSchema tool with
  | None => {| valid := true; errors := []; data := Some input |}
  | Some schema =>
      match zodSafeParse schema input with
      | ParseSuccess d => {| valid := true; errors := []; data := Some d |}
      | ParseFailure issues =>
          {| valid := false; errors := map formatIssue issues; data := None |}
      | Thrown m =>
          {| valid := false; errors := ["Validation error: " +:+ m];
             data := None |}
      end
  end.
End WithZod.

End Validation.

(** ** Registry and dispatcher ([index.ts]) *)
Module Server.
Import RateLimiter ErrorHandler Validation.

(** The object the catch block serialises with [JSON.stringify]. *)
Record Envelope := {
  success : bool;
  error : string;
  env_code : string;
  env_timestamp : string;
}.

(** The handler's return value: the serialised tool result, or the
    error envelope with [isError: true]. *)
Inductive Response :=
  | Content (result : JsVal)
  | IsError (envelope : Envelope).

(** The instants a call reads: [Date.now()] in the limiter and the three
    [new Date().toISOString()] of the catch block. *)
Record Clock := {
  now : Z;
  iso_context : string;
  iso_handled : string;
  iso_envelope : string;
}.

(** [initializeTools]: [allTools.forEach(tool => tools.set(tool.name, tool))]. *)
Definition initializeTools (allTools : list Tool) : gmap string Tool :=
  fold_left (fun tools tool => <[name tool := tool]> tools) allTools ∅.

(** The catch block: the error is normalised with the call's context,
    logged, and reduced to the envelope. The first component is the
    envelope returned, the second the [ErrorDetails] value logged. *)
Definition catch (clock : Clock) (name : string) (args : option JsVal)
    (e : Error) : Response * option ErrorDetails :=
  let handledError :=
    handleError (iso_handled clock) e
      (Some {[ "tool" := JStr name;
               "args" := default JUndefined args;
               "timestamp" := JStr (iso_context clock) ]}) in
  (IsError {| success := false;
              error := message handledError;
              env_code := code handledError;
              env_timestamp := iso_envelope clock |},
   Some handledError).

Section Dispatch.
Variable zodSafeParse : JsVal -> JsVal -> ZodOutcome.
(** The state the tool handlers own, and [executeTool]: a result or a
    thrown error, and the handlers' new state. *)
Variable World : Type.
Variable executeTool : string -> JsVal -> World -> (JsVal + Error) * World.

Variable config : RateLimitConfig.
Variable tools : gmap string Tool.

Record State := {
  requests : requests_map;
  world : World;
}.

(** The [CallToolRequestSchema] handler that [setupHandlers] registers:
    rate-limit gate, descriptor lookup, validation, execution, and the
    catch block around them. *)
Definition callTool (clock : Clock) (request : Request) (name : string)
    (args : option JsVal) (st : State)
    : (Response * option ErrorDetails) * State :=
  let '(rateLimitResult, requests') :=
    checkLimit config (now clock) request (requests st) in
  let st' := {| requests := requests'; world := world st |} in
  if negb (allowed rateLimitResult) then
    (catch clock name args
       (newError ("Rate limit exceeded. Try again in "
                  +:+ show (resetTime rateLimitResult) +:+ " seconds.")),
     st')
  else
    match tools !! name with
    | None => (catch clock name args (newError ("Unknown tool: " +:+ name)), st')
    | Some tool =>
        let validationResult :=
          validateToolInput zodSafeParse tool (default (JObj []) args) in
        if negb (valid validationResult) then
          (catch clock name args
             (newError ("Invalid input: " +:+ join ", " (errors validationResult))),
           st')
        else
          match executeTool name (default (JObj []) args) (world st) with
          | (inl result, w) =>
              ((Content result, None), {| requests := requests'; world := w |})
          | (inr e, w) =>
              (catch clock name args e, {| requests := requests'; world := w |})
          end
    end.
End Dispatch.

(** [get_featured_projects], as registered. *)
Definition getFeaturedProjects : Tool :=
  {| name := "get_featured_projects";
     description := "Get featured projects with optional category filtering";
     inputSchema := Some (JObj
       [("type", JStr "object");
        ("properties", JObj
          [("category", JObj
             [("type", JStr "string");
              ("description", JStr "Filter featured projects by category")]);
           ("limit", JObj
             [("type", JStr "number");
              ("minimum", JNum 1);
              ("maximum", JNum 20);
              ("description", JStr "Maximum number of featured projects to return");
              ("default", JNum 5)])])]) |}.

Definition sample_tools : gmap string Tool := initializeTools [getFeaturedProjects].

(** [executeTool] for a name outside its [switch]. *)
Definition notImplemented (toolName : string) (args : JsVal) (w : unit)
    : (JsVal + Error) * unit :=
  (inr (newError ("Tool handler not implemented: " +:+ toolName)), w).

Definition sample_clock (t : Z) : Clock :=
  {| now := t;
     iso_context := "2024-01-01T00:00:00.000Z";
     iso_handled := "2024-01-01T00:00:00.000Z";
     iso_envelope := "2024-01-01T00:00:00.000Z" |}.

(** The MCP request carries neither [ip] nor [userAgent]. *)
Definition mcp_request : Request := {| req_ip := None; req_userAgent := None |}.

(** A limiter state in which the anonymous bucket is full under
    [scenario_config]. *)
Definition exhausted : requests_map :=
  {[ "anonymous" := [entry 0 mcp_request; entry 100 mcp_request] ]}.

(** The envelope the specification describes for an unregistered
    operation name. *)
Definition unknownOperationEnvelope (name : string) (resp : Response) : Prop :=
  exists ts, resp = IsError {| success := false;
                               error := "Unknown tool: " +:+ name;
                               env_code := "UNKNOWN_OPERATION";
                               env_timestamp := ts |}.

(** A validator that accepts every input, and one that reports the two
    issues of the arguments [{ category: 5, limit: 150 }] against the
    schema of [get_featured_projects]. *)
Definition acceptAll (schema input : JsVal) : ZodOutcome := ParseSuccess input.

Definition sample_issues : list ZodIssue :=
  [ {| path := [Key "category"];
       issue_message := "Expected string, received number" |};
    {| path := [Key "limit"];
       issue_message := "Number must be less than or equal to 20" |} ].

Definition rejectSample (schema input : JsVal) : ZodOutcome :=
  ParseFailure sample_issues.

Definition sample_args : JsVal :=
  JObj [("category", JNum 5); ("limit", JNum 150)].

(** Dispatcher states over handlers without state of their own. *)
Definition exhausted_state : State unit := {| requests := exhausted; world := tt |}.
Definition fresh_state : State unit := {| requests := ∅; world := tt |}.

End Server.

(** ** More JavaScript helpers: strings, arrays, plain objects *)

(** A line feed and a double quote. *)
Definition nl : string := String "010"%char EmptyString.
Definition dq : string := String "034"%char EmptyString.

(** [s.split(c)] for a one-character separator: never empty, the empty
    string gives one empty part. *)
Fixpoint split (c : ascii) (s : string) : list string :=
  match s with
  | EmptyString => [EmptyString]
  | String a rest =>
      if Ascii.eqb a c then EmptyString :: split c rest
      else match split c rest with
           | [] => [String a EmptyString]
           | p :: ps => String a p :: ps
           end
  end.

(** [s.substring(0, n)] for [n >= 0]. *)
Definition substring0 (n : nat) (s : string) : string := String.substring 0 n s.

(** [s.slice(0, -1)]: all but the last character. *)
Definition dropLast (s : string) : string :=
  String.substring 0 (String.length s - 1) s.

(** [a.slice(0, k)] for an integer [k]: a negative [k] counts from the
    end. *)
Definition slice0 {A} (k : Z) (l : list A) : list A :=
  if k <? 0 then take (Z.to_nat (Z.of_nat (length l) + k)) l
  else take (Z.to_nat k) l.

(** [a.sort((x, y) => key(y) - key(x))]: the sort is stable, so the result
    is the list in descending key order with equal keys in their original
    order. The insertion puts an element in front of the first one whose
    key is not larger. *)
Fixpoint insertDesc {A} (key : A -> Z) (x : A) (l : list A) : list A :=
  match l with
  | [] => [x]
  | y :: l' => if key y <=? key x then x :: l else y :: insertDesc key x l'
  end.

Definition sortDesc {A} (key : A -> Z) (l : list A) : list A :=
  foldr (insertDesc key) [] l.

(** Ascending variant, for key enumeration. *)
Definition sortAsc {A} (key : A -> Z) (l : list A) : list A :=
  reverse (sortDesc key (reverse l)).

(** The value of a string of decimal digits. *)
Definition digitValue (a : ascii) : option Z :=
  let n := Z.of_nat (nat_of_ascii a) in
  if (48 <=? n) && (n <=? 57) then Some (n - 48) else None.

Fixpoint parseDigits (acc : Z) (s : string) : option Z :=
  match s with
  | EmptyString => Some acc
  | String a rest =>
      match digitValue a with
      | Some d => parseDigits (10 * acc + d) rest
      | None => None
      end
  end.

(** An array index in the sense of ECMAScript: a canonical decimal string
    below [2^32 - 1]. *)
Definition arrayIndex (k : string) : option Z :=
  match k with
  | EmptyString => None
  | _ =>
      match parseDigits 0 k with
      | Some n => if String.eqb (show n) k && (n <? 2 ^ 32 - 1) then Some n else None
      | None => None
      end
  end.

(** The property names a plain object inherits from [Object.prototype]. *)
Definition Object_prototype_keys : list string :=
  ["constructor"; "__defineGetter__"; "__defineSetter__"; "hasOwnProperty";
   "__lookupGetter__"; "__lookupSetter__"; "isPrototypeOf";
   "propertyIsEnumerable"; "toString"; "valueOf"; "__proto__";
   "toLocaleString"].

Definition inherited (k : string) : bool :=
  existsb (String.eqb k) Object_prototype_keys.

(** A plain object used as a counter table, [Record<string, number>]: its
    own properties in creation order. The table models the object for keys
    that are not [inherited]: for an inherited key the code reads the
    inherited value where the table has no entry, and the count becomes a
    string (or, for [__proto__], no property is created at all). *)
Abbreviation counters := (list (string * Z)).

(** [o[k]]. *)
Fixpoint getCounter (k : string) (o : counters) : option Z :=
  match o with
  | [] => None
  | (k', v) :: o' => if String.eqb k' k then Some v else getCounter k o'
  end.

(** [o[k] = v]: an existing property keeps its place, a new one is added
    last. *)
Fixpoint setCounter (k : string) (v : Z) (o : counters) : counters :=
  match o with
  | [] => [(k, v)]
  | (k', v') :: o' =>
      if String.eqb k' k then (k', v) :: o' else (k', v') :: setCounter k v o'
  end.

(** [o[k] = (o[k] || 0) + 1]. *)
Definition increment (k : string) (o : counters) : counters :=
  setCounter k (num_or (default 0 (getCounter k o)) 0 + 1) o.

(** [Object.entries(o)]: array-index keys first, in ascending numeric
    order, then the other keys in creation order. *)
Definition Object_entries (o : counters) : list (string * Z) :=
  sortAsc (fun e => default 0 (arrayIndex e.1))
          (filter (fun e => is_Some (arrayIndex e.1)) o)
  ++ filter (fun e => ~ is_Some (arrayIndex e.1)) o.

(** ** Analytics tracker ([tools/analytics-tools.ts]) *)
Module AnalyticsTools.

Record AnalyticsEvent := {
  id : string;
  type : string;
  resource : string;
  resourceId : option string;
  userAgent : option string;
  ip : option string;
  referrer : option string;
  timestamp : Z;
  metadata : option JsVal;
}.

(** The fields of [analyticsStats] that the tracker updates. *)
Record AnalyticsStats := {
  totalViews : Z;
  popularProjects : list string;
  popularSkills : list string;
  topReferrers : list string;
}.

(** The module-level state. *)
Record Store := {
  analyticsEvents : list AnalyticsEvent;
  analyticsStats : AnalyticsStats;
}.

Definition emptyStore : Store :=
  {| analyticsEvents := [];
     analyticsStats := {| totalViews := 0; popularProjects := [];
                          popularSkills := []; topReferrers := [] |} |}.

(** The validated arguments of [track_event]. *)
Record TrackArgs := {
  arg_type : string;
  arg_resource : string;
  arg_resourceId : option string;
  arg_userAgent : option string;
  arg_ip : option string;
  arg_referrer : option string;
  arg_metadata : option JsVal;
}.

Definition anonymizeIP (ip : string) : string :=
  match split "." ip with
  | [p0; p1; p2; p3] => p0 +:+ "." +:+ p1 +:+ "." +:+ p2 +:+ ".0"
  | _ => substring0 (String.length ip / 2) ip +:+ "xxxx"
  end.

(** [indexOf], [splice(index, 1)]: drop the first occurrence. *)
Fixpoint removeFirst (x : string) (l : list string) : list string :=
  match l with
  | [] => []
  | y :: l' => if String.eqb y x then l' else y :: removeFirst x l'
  end.

(** Move to the front of a ring of capacity 10. *)
Definition moveToFront (x : string) (l : list string) : list string :=
  take 10 (x :: removeFirst x l).

Definition includes (x : string) (l : list string) : bool :=
  existsb (String.eqb x) l.

Section WithUrl.
(** [new URL(url).hostname], [None] when the constructor throws. *)
Variable hostname : string -> option string.

Definition extractDomain (url : string) : option string := hostname url.

Definition updateAnalyticsStats (event : AnalyticsEvent) (stats : AnalyticsStats)
    : AnalyticsStats :=
  let views := if String.eqb (type event) "view"
               then totalViews stats + 1 else totalViews stats in
  let rid := default EmptyString (resourceId event) in
  let projects :=
    if truthy (resourceId event) && String.eqb (resource event) "project"
    then moveToFront rid (popularProjects stats) else popularProjects stats in
  let skills :=
    if truthy (resourceId event) && negb (String.eqb (resource event) "project")
       && String.eqb (resource event) "skill"
    then moveToFront rid (popularSkills stats) else popularSkills stats in
  let referrers :=
    if truthy (referrer event) then
      let domain := extractDomain (default EmptyString (referrer event)) in
      if truthy domain && negb (includes (default EmptyString domain) (topReferrers stats))
      then take 10 (default EmptyString domain :: topReferrers stats)
      else topReferrers stats
    else topReferrers stats in
  {| totalViews := views; popularProjects := projects;
     popularSkills := skills; topReferrers := referrers |}.

(** The [track_event] handler; [uuid] is [uuidv4()] and [now] the instant
    of [new Date()]. The result is the stored event's id. *)
Definition trackEvent (uuid : string) (now : Z) (args : TrackArgs) (st : Store)
    : string * Store :=
  let event :=
    {| id := uuid;
       type := arg_type args;
       resource := arg_resource args;
       resourceId := arg_resourceId args;
       userAgent := arg_userAgent args;
       ip := if truthy (arg_ip args)
             then Some (anonymizeIP (default EmptyString (arg_ip args)))
             else None;
       referrer := arg_referrer args;
       timestamp := now;
       metadata := arg_metadata args |} in
  (id event,
   {| analyticsEvents := analyticsEvents st ++ [event];
      analyticsStats := updateAnalyticsStats event (analyticsStats st) |}).
End WithUrl.

(** The address stored with the most recently tracked event. *)
Definition lastStoredIp (st : Store) : option (option string) :=
  ip <$> last (analyticsEvents st).

(** The arguments of [get_popular_content]. *)
Record PopularArgs := {
  arg_contentType : option string;
  arg_limit : option Z;
  arg_timeRange : option string;
}.

Record PopularItem := {
  item_resourceId : string;
  interactions : Z;
  lastInteraction : option Z;
}.

Record PopularData := {
  popularItems : list PopularItem;
  contentType : string;
  totalInteractions : Z;
}.

Definition str_or (o : option string) (d : string) : string :=
  if truthy o then default EmptyString o else d.

(** The start of the time range, in milliseconds. *)
Definition startDate (now : Z) (timeRange : string) : Z :=
  if String.eqb timeRange "day" then now - 24 * 60 * 60 * 1000
  else if String.eqb timeRange "week" then now - 7 * 24 * 60 * 60 * 1000
  else if String.eqb timeRange "month" then now - 30 * 24 * 60 * 60 * 1000
  else if String.eqb timeRange "year" then now - 365 * 24 * 60 * 60 * 1000
  else 0.

Definition filterEvents (now : Z) (contentType timeRange : string)
    (events : list AnalyticsEvent) : list AnalyticsEvent :=
  List.filter (fun event =>
      (startDate now timeRange <=? timestamp event)
      && String.eqb (resource event) (dropLast contentType)) events.

(** The body of the counting loop, and the loop over the filtered
    events. *)
Definition countStep (interactions : counters) (event : AnalyticsEvent) : counters :=
  if truthy (resourceId event)
  then increment (default EmptyString (resourceId event)) interactions
  else interactions.

Definition countInteractions (filteredEvents : list AnalyticsEvent) : counters :=
  fold_left countStep filteredEvents [].

(** The entries in ranked order, before the cut to [limit]. *)
Definition ranking (filteredEvents : list AnalyticsEvent) : list (string * Z) :=
  sortDesc snd (Object_entries (countInteractions filteredEvents)).

Definition lastInteractionOf (filteredEvents : list AnalyticsEvent) (rid : string)
    : option Z :=
  timestamp <$>
    head (sortDesc timestamp
            (List.filter (fun e => match resourceId e with
                                   | Some r => String.eqb r rid
                                   | None => false
                                   end) filteredEvents)).

(** The [get_popular_content] handler. *)
Definition getPopularContent (now : Z) (args : PopularArgs) (st : Store)
    : PopularData :=
  let contentType := str_or (arg_contentType args) "projects" in
  let limit := num_or (default 0 (arg_limit args)) 10 in
  let timeRange := str_or (arg_timeRange args) "month" in
  let filteredEvents := filterEvents now contentType timeRange (analyticsEvents st) in
  let popularItems :=
    map (fun '(rid, count) =>
           {| item_resourceId := rid;
              interactions := count;
              lastInteraction := lastInteractionOf filteredEvents rid |})
        (slice0 limit (ranking filteredEvents)) in
  {| popularItems := popularItems;
     contentType := contentType;
     totalInteractions := Z.of_nat (length filteredEvents) |}.

(** The order the specification describes: descending count, ties by the
    most recent interaction, latest first. *)
Definition rankedBefore (a b : PopularItem) : bool :=
  (interactions b <? interactions a)
  || ((interactions a =? interactions b)
      && match lastInteraction a, lastInteraction b with
         | Some ta, Some tb => tb <=? ta
         | _, _ => true
         end).

Fixpoint orderedBy {A} (before : A -> A -> bool) (l : list A) : bool :=
  match l with
  | [] => true
  | a :: l' => forallb (before a) l' && orderedBy before l'
  end.

(** Tracking a list of [(resourceId, instant)] view events of projects,
    one after the other. *)
Definition viewArgs (rid : string) : TrackArgs :=
  {| arg_type := "view"; arg_resource := "project"; arg_resourceId := Some rid;
     arg_userAgent := None; arg_ip := None; arg_referrer := None;
     arg_metadata := None |}.

Definition trackViews (views : list (string * Z)) (st : Store) : Store :=
  fold_left (fun st '(rid, now) =>
               (trackEvent (fun _ => None) "00000000-0000-4000-8000-000000000000"
                  now (viewArgs rid) st).2)
            views st.

Definition popularAll : PopularArgs :=
  {| arg_contentType := Some "projects"; arg_limit := Some 10;
     arg_timeRange := Some "all" |}.

(** An IPv4 address in the words of the specification: four dot-separated
    octets, each a decimal number of one to three digits, at most 255. *)
Definition isOctet (s : string) : bool :=
  match s with
  | EmptyString => false
  | _ => (String.length s <=? 3)%nat &&
         match parseDigits 0 s with
         | Some n => n <=? 255
         | None => false
         end
  end.

Definition isIPv4 (s : string) : bool :=
  match split "." s with
  | [a; b; c; d] => isOctet a && isOctet b && isOctet c && isOctet d
  | _ => false
  end.

(** Sample arguments. *)
Definition noHostname (url : string) : option string := None.

Definition ipArgs (addr : string) : TrackArgs :=
  {| arg_type := "view"; arg_resource := "project"; arg_resourceId := Some "p1";
     arg_userAgent := None; arg_ip := Some addr; arg_referrer := None;
     arg_metadata := None |}.

(** The number of events that carry the resource id [rid]. *)
Definition occurrences (rid : string) (events : list AnalyticsEvent) : Z :=
  Z.of_nat (length (List.filter
    (fun e => truthy (resourceId e)
              && String.eqb (default EmptyString (resourceId e)) rid) events)).

(** The pair the ranking is made of. *)
Definition idCount (i : PopularItem) : string * Z := (item_resourceId i, interactions i).

(** The position of the first event that carries the resource id [rid]
    (the number of events when none does). *)
Fixpoint firstIndex (rid : string) (events : list AnalyticsEvent) : nat :=
  match events with
  | [] => 0
  | e :: rest =>
      if match resourceId e with
         | Some r => String.eqb r rid
         | None => false
         end
      then 0 else S (firstIndex rid rest)
  end.

(** The order in which ECMAScript enumerates two own keys of the counting
    object: array-index keys first, in ascending numeric order, then the
    other keys in order of creation, that is, of the first counted event
    that carries them. *)
Definition enumeratedBefore (events : list AnalyticsEvent) (a b : string) : Prop :=
  match arrayIndex a, arrayIndex b with
  | Some m, Some n => m < n
  | Some _, None => True
  | None, Some _ => False
  | None, None => (firstIndex a events < firstIndex b events)%nat
  end.

(** The order of the answer: the larger count first, and among equal
    counts the key enumerated first. *)
Definition rankedAhead (events : list AnalyticsEvent) (a b : PopularItem) : Prop :=
  interactions b < interactions a \/
  (interactions a = interactions b /\
   enumeratedBefore events (item_resourceId a) (item_resourceId b)).

End AnalyticsTools.

(** ** Export formatter ([tools/export-tools.ts]) *)

(** [haystack.includes(needle)]. *)
Fixpoint contains (needle haystack : string) : bool :=
  String.prefix needle haystack
  || match haystack with
     | EmptyString => false
     | String _ rest => contains needle rest
     end.

Module ExportTools.

(** The entity fields the formatters read. Numeric fields hold integers,
    as they do in the shipped dataset. *)
Record Skill := {
  skill_name : string;
  skill_category : string;
  skill_level : string;
  skill_proficiency : Z;
  skill_description : string;
}.

Record Project := {
  title : string;
  category : string;
  year : Z;
  description : string;
  shortDescription : string;
  status : string;
  featured : bool;
  views : Z;
  likes : Z;
  technologies : list string;
  images : list string;
  liveUrl : option string;
  githubUrl : option string;
}.

Record ContactInfo := {
  email : string;
  phone : option string;
  location : string;
  website : string;
}.

#[export] Instance ContactInfo_inhabited : Inhabited ContactInfo :=
  populate {| email := EmptyString; phone := None;
              location := EmptyString; website := EmptyString |}.

(** Objects live on a heap; a property that holds an object holds its
    address. Only the contact object is ever written through, so it is
    the one kept on the heap; the skill and project arrays are read-only
    values. *)
Definition loc := nat.
Abbreviation heap := (gmap loc ContactInfo).

(** [portfolioData]: a top-level object whose [contact] property refers to
    the [contactInfo] object. *)
Record Portfolio := {
  p_title : string;
  p_description : string;
  skills : list Skill;
  projects : list Project;
  contact : loc;
}.

(** [{ ...portfolioData }]: a new top-level object with the same property
    values, so the same [contact] address. *)
Definition spread (p : Portfolio) : Portfolio :=
  {| p_title := p_title p;
     p_description := p_description p;
     skills := skills p;
     projects := projects p;
     contact := contact p |}.

(** [delete o.phone] on the object at address [l]. *)
Definition deletePhone (l : loc) (h : heap) : heap :=
  alter (fun c => {| email := email c; phone := None;
                     location := location c; website := website c |}) l h.

Definition quoted (s : string) : string := dq +:+ s +:+ dq.

Definition csvHeaders : list string :=
  ["Type"; "Name"; "Category"; "Description"; "Year"; "Status"].

Definition skillRow (skill : Skill) : string :=
  join "," ["Skill"; quoted (skill_name skill); skill_category skill;
            quoted (skill_description skill); EmptyString; skill_level skill].

Definition projectRow (project : Project) : string :=
  join "," ["Project"; quoted (title project); category project;
            quoted (shortDescription project); show (year project);
            status project].

Definition generateCSVExport (data : Portfolio) : string :=
  let rows := [join "," csvHeaders] in
  let rows := (rows ++ map skillRow (skills data))%list in
  let rows := (rows ++ map projectRow (projects data))%list in
  join nl rows.

Definition skillElement (skill : Skill) : string :=
  nl +:+ "    <skill>" +:+ nl +:+
  "      <name>" +:+ skill_name skill +:+ "</name>" +:+ nl +:+
  "      <category>" +:+ skill_category skill +:+ "</category>" +:+ nl +:+
  "      <level>" +:+ skill_level skill +:+ "</level>" +:+ nl +:+
  "      <proficiency>" +:+ show (skill_proficiency skill) +:+ "</proficiency>" +:+ nl +:+
  "      <description>" +:+ skill_description skill +:+ "</description>" +:+ nl +:+
  "    </skill>".

Definition projectElement (project : Project) : string :=
  nl +:+ "    <project>" +:+ nl +:+
  "      <title>" +:+ title project +:+ "</title>" +:+ nl +:+
  "      <category>" +:+ category project +:+ "</category>" +:+ nl +:+
  "      <year>" +:+ show (year project) +:+ "</year>" +:+ nl +:+
  "      <description>" +:+ description project +:+ "</description>" +:+ nl +:+
  "      <status>" +:+ status project +:+ "</status>" +:+ nl +:+
  "    </project>".

Definition generateXMLExport (data : Portfolio) : string :=
  "<?xml version=" +:+ quoted "1.0" +:+ " encoding=" +:+ quoted "UTF-8" +:+ "?>" +:+ nl +:+
  "<portfolio>" +:+ nl +:+
  "  <title>" +:+ p_title data +:+ "</title>" +:+ nl +:+
  "  <description>" +:+ p_description data +:+ "</description>" +:+ nl +:+
  "  <skills>" +:+ nl +:+
  "    " +:+ join EmptyString (map skillElement (skills data)) +:+ nl +:+
  "  </skills>" +:+ nl +:+
  "  <projects>" +:+ nl +:+
  "    " +:+ join EmptyString (map projectElement (projects data)) +:+ nl +:+
  "  </projects>" +:+ nl +:+
  "</portfolio>".

Record ExportArgs := {
  arg_format : option string;
  arg_includePrivate : bool;
  arg_compress : bool;
}.

Record ExportData := {
  content : string;
  format : string;
  mimeType : string;
  filename : string;
  size : Z;
}.

(** The handler's answer: the export, or the failure the [catch] block
    reports. *)
Inductive ApiResponse :=
  | Success (data : ExportData)
  | Failure (error : string).

Section Handlers.
(** [JSON.stringify(exportData, null, indent)] and
    [generateMarkdownExport(exportData)]: renderers that read the data and
    the contact object and write nothing. *)
Variable JSON_stringify : Portfolio -> ContactInfo -> Z -> string.
Variable generateMarkdownExport : Portfolio -> ContactInfo -> string.

(** The [export_portfolio] handler, over the dataset [portfolioData] and
    the heap. *)
Definition exportPortfolio (portfolioData : Portfolio) (args : ExportArgs) (h : heap)
    : ApiResponse * heap :=
  let format := if truthy (arg_format args)
                then default EmptyString (arg_format args) else "json" in
  let exportData := spread portfolioData in
  let h :=
    if negb (arg_includePrivate args) then
      if truthy (phone (h !!! contact exportData))
      then deletePhone (contact exportData) h
      else h
    else h in
  let rendered :=
    if String.eqb format "json" then
      Some (JSON_stringify exportData (h !!! contact exportData)
              (if arg_compress args then 0 else 2),
            "application/json", "portfolio.json")
    else if String.eqb format "markdown" then
      Some (generateMarkdownExport exportData (h !!! contact exportData),
            "text/markdown", "portfolio.md")
    else if String.eqb format "csv" then
      Some (generateCSVExport exportData, "text/csv", "portfolio.csv")
    else if String.eqb format "xml" then
      Some (generateXMLExport exportData, "application/xml", "portfolio.xml")
    else None in
  match rendered with
  | Some (result, mimeType, filename) =>
      (Success {| content := result; format := format; mimeType := mimeType;
                  filename := filename;
                  size := Z.of_nat (String.length result) |}, h)
  | None => (Failure "Failed to export portfolio", h)
  end.
End Handlers.

(** Escaping as the specification asks for it: a CSV field in double
    quotes with embedded quotes doubled, XML text with the markup
    characters replaced by entities. *)
Fixpoint doubleQuotes (s : string) : string :=
  match s with
  | EmptyString => EmptyString
  | String a rest =>
      if Ascii.eqb a "034"%char then dq +:+ dq +:+ doubleQuotes rest
      else String a (doubleQuotes rest)
  end.

Definition csvEscape (s : string) : string := quoted (doubleQuotes s).

Fixpoint xmlEscape (s : string) : string :=
  match s with
  | EmptyString => EmptyString
  | String a rest =>
      (if Ascii.eqb a "&"%char then "&amp;"
       else if Ascii.eqb a "<"%char then "&lt;"
       else if Ascii.eqb a ">"%char then "&gt;"
       else String a EmptyString) +:+ xmlEscape rest
  end.

(** Sample data: a contact object that has a phone number, at address 0,
    and a portfolio that refers to it. *)
Definition contactWithPhone : ContactInfo :=
  {| email := "gary@example.com"; phone := Some "+1-555-0100";
     location := "United States"; website := "https://gary-portfolio.com" |}.

(** [contactInfo] as shipped: no phone number. *)
Definition contactInfo : ContactInfo :=
  {| email := "gary@example.com"; phone := None;
     location := "United States"; website := "https://gary-portfolio.com" |}.

Definition sampleSkill (name : string) : Skill :=
  {| skill_name := name; skill_category := "adobe"; skill_level := "advanced";
     skill_proficiency := 85;
     skill_description := "Vector graphics and logo design" |}.

Definition samplePortfolio (skills : list Skill) : Portfolio :=
  {| p_title := "Portfolio"; p_description := "Graphic design";
     skills := skills; projects := []; contact := 0%nat |}.

Definition defaultArgs : ExportArgs :=
  {| arg_format := None; arg_includePrivate := false; arg_compress := false |}.

(** The XML document of a portfolio without skills and projects. *)
Definition emptyXML (data : Portfolio) : string :=
  "<?xml version=" +:+ quoted "1.0" +:+ " encoding=" +:+ quoted "UTF-8" +:+ "?>" +:+ nl +:+
  "<portfolio>" +:+ nl +:+
  "  <title>" +:+ p_title data +:+ "</title>" +:+ nl +:+
  "  <description>" +:+ p_description data +:+ "</description>" +:+ nl +:+
  "  <skills>" +:+ nl +:+
  "    " +:+ nl +:+
  "  </skills>" +:+ nl +:+
  "  <projects>" +:+ nl +:+
  "    " +:+ nl +:+
  "  </projects>" +:+ nl +:+
  "</portfolio>".

(** Skill names with an ampersand and with a double quote. *)
Definition ampersand : Portfolio := samplePortfolio [sampleSkill "A&B"].
Definition quotation : Portfolio :=
  samplePortfolio [sampleSkill ("5" +:+ dq +:+ " ruler")].

End ExportTools.

(** ** Rate limiter: caller identities, administrative operations, statistics *)
Module RateLimiterOps.
Import RateLimiter.

(** The identity a key stands for: the address, else the user agent, else
    the shared anonymous bucket. *)
Inductive Identity :=
  | ByIp (ip : string)
  | ByUserAgent (userAgent : string)
  | Anonymous.

Definition identityOf (request : Request) : Identity :=
  if truthy (req_ip request) then ByIp (default EmptyString (req_ip request))
  else if truthy (req_userAgent request)
       then ByUserAgent (default EmptyString (req_userAgent request))
       else Anonymous.

(** The operations that touch the limiter's map: a call of [checkLimit], a
    tick of the sweep timer, and the two resets. *)
Inductive Op :=
  | OpCheckLimit (now : Z) (request : Request)
  | OpCleanup (now : Z)
  | OpReset (request : Request)
  | OpResetAll.

Definition step (config : RateLimitConfig) (requests : requests_map) (op : Op)
    : requests_map :=
  match op with
  | OpCheckLimit now request => (checkLimit config now request requests).2
  | OpCleanup now => cleanup config now requests
  | OpReset request => reset request requests
  | OpResetAll => resetAll requests
  end.

(** The map after a sequence of operations on a new limiter. *)
Definition runOps (config : RateLimitConfig) (ops : list Op) : requests_map :=
  fold_left (step config) ops ∅.

(** [Math.round(a / b)] for integers [a >= 0] and [b > 0] (exact below
    [2^52]): halves round up. *)
Definition roundDiv (a b : Z) : Z := (2 * a + b) / (2 * b).

Record Stats := {
  activeUsers : Z;
  totalActiveRequests : Z;
  stats_windowMs : Z;
  stats_maxRequests : Z;
  averageRequestsPerUser : Z;
}.

(** [getStats]: the loop over the entries of the map. *)
Definition getStats (config : RateLimitConfig) (now : Z) (requests : requests_map)
    : Stats :=
  let windowStart := now - windowMs config in
  let '(totalActiveRequests, activeUsers) :=
    fold_left (fun '(total, users) '(key, l) =>
                 let validRequests := prune windowStart l in
                 if (0 <? Z.of_nat (length validRequests))
                 then (total + Z.of_nat (length validRequests), users + 1)
                 else (total, users))
              (map_to_list requests) (0, 0) in
  {| activeUsers := activeUsers;
     totalActiveRequests := totalActiveRequests;
     stats_windowMs := windowMs config;
     stats_maxRequests := maxRequests config;
     averageRequestsPerUser :=
       if 0 <? activeUsers then roundDiv totalActiveRequests activeUsers else 0 |}.

(** States that look the same to every call from some instant on. *)
Definition sameFrom (config : RateLimitConfig) (t0 : Z) (request : Request)
    (s1 s2 : requests_map) : Prop :=
  forall now, t0 <= now ->
    inWindow config now request s1 = inWindow config now request s2.

(** The invariant of the stored logs. *)
Definition logsBounded (config : RateLimitConfig) (requests : requests_map) : Prop :=
  forall k l, requests !! k = Some l ->
    l <> [] /\ Z.of_nat (length l) <= maxRequests config.

(** A request as the dispatcher passes it: neither address nor user
    agent. *)
Definition mcpLike : Request := {| req_ip := None; req_userAgent := None |}.

End RateLimiterOps.

(** ** Error handler: the other error classes and utilities
    ([utils/error-handler.ts]) *)
Module ErrorHandlerUtils.
Import ErrorHandler.

(** [message: string = 'Authentication required']: the default applies to
    an absent argument. *)
Definition AuthenticationError (message : option string) : Error :=
  PortfolioError "AuthenticationError"
    (default "Authentication required" message) "AUTHENTICATION_ERROR" 401 None.

Definition AuthorizationError (message : option string) : Error :=
  PortfolioError "AuthorizationError"
    (default "Insufficient permissions" message) "AUTHORIZATION_ERROR" 403 None.

Definition ExportError (format : string) (reason : option string) : Error :=
  let message :=
    if truthy reason
    then "Export failed for " +:+ format +:+ ": " +:+ default EmptyString reason
    else "Export failed for " +:+ format in
  PortfolioError "ExportError" message "EXPORT_ERROR" 500
    (Some {[ "format" := JStr format;
             "reason" := from_option JStr JUndefined reason ]}).

(** The response of [createErrorResponse]; [development] is
    [process.env.NODE_ENV === 'development']. *)
Record ErrorResponse := {
  resp_success : bool;
  resp_error : string;
  resp_code : string;
  resp_timestamp : string;
  resp_context : option context_map;
}.

Definition createErrorResponse (development : bool) (timestamp : string)
    (error : Error) (context : option context_map) : ErrorResponse :=
  let errorDetails := handleError timestamp error context in
  {| resp_success := false;
     resp_error := message errorDetails;
     resp_code := code errorDetails;
     resp_timestamp := ErrorHandler.timestamp errorDetails;
     resp_context := if development then ErrorHandler.context errorDetails else None |}.

(** [logError]: the logger method called, its title, and the fields of the
    payload; [stack] is [error.stack]. *)
Inductive Level := LevelError | LevelWarn | LevelInfo.

Record LogCall := {
  level : Level;
  log_title : string;
  log_message : string;
  log_code : string;
  log_stack : option JsVal;
  log_context : option context_map;
}.

Definition logError (timestamp : string) (stack : JsVal) (error : Error)
    (context : option context_map) : LogCall :=
  let errorDetails := handleError timestamp error context in
  if 500 <=? statusCode errorDetails then
    {| level := LevelError; log_title := "Server error:";
       log_message := message errorDetails; log_code := code errorDetails;
       log_stack := Some stack;
       log_context := ErrorHandler.context errorDetails |}
  else if 400 <=? statusCode errorDetails then
    {| level := LevelWarn; log_title := "Client error:";
       log_message := message errorDetails; log_code := code errorDetails;
       log_stack := None;
       log_context := ErrorHandler.context errorDetails |}
  else
    {| level := LevelInfo; log_title := "Error handled:";
       log_message := message errorDetails; log_code := code errorDetails;
       log_stack := None;
       log_context := ErrorHandler.context errorDetails |}.

Definition fromHttpResponse (status : Z) (message : string)
    (context : option context_map) : Error :=
  let code :=
    if status =? 400 then "BAD_REQUEST"
    else if status =? 401 then "UNAUTHORIZED"
    else if status =? 403 then "FORBIDDEN"
    else if status =? 404 then "NOT_FOUND"
    else if status =? 429 then "RATE_LIMIT_EXCEEDED"
    else if status =? 500 then "INTERNAL_SERVER_ERROR"
    else "HTTP_ERROR" in
  PortfolioError "PortfolioError" message code status context.

(** [validateOrThrow]: returns, or throws the validation error. *)
Definition validateOrThrow (condition : bool) (message : string)
    (context : option context_map) : unit + Error :=
  if negb condition then inr (ValidationError message context) else inl tt.

(** [assertExists]: [None] stands for [null] and [undefined]. *)
Definition assertExists {T} (resource : option T) (resourceName : string)
    (id : option string) : T + Error :=
  match resource with
  | None => inr (NotFoundError resourceName id)
  | Some r => inl r
  end.

(** The names the handler treats as client errors among the errors that
    are not instances of [PortfolioError]. *)
Definition clientErrorName (name : string) : bool :=
  String.eqb name "TypeError" || String.eqb name "SyntaxError"
  || String.eqb name "ZodError".

End ErrorHandlerUtils.

(** ** Validation helpers ([utils/validation.ts]) *)
Module ValidationUtils.
Import Validation.

(** Characters are code units below 256. *)
Definition codeOf (a : ascii) : Z := Z.of_nat (nat_of_ascii a).

(** [\s], and the characters [trim] removes: tab to carriage return,
    space, no-break space. *)
Definition isWhiteSpace (a : ascii) : bool :=
  let n := codeOf a in
  ((9 <=? n) && (n <=? 13)) || (n =? 32) || (n =? 160).

(** [\w]: letters, digits and the underscore. *)
Definition isWordChar (a : ascii) : bool :=
  let n := codeOf a in
  ((48 <=? n) && (n <=? 57)) || ((65 <=? n) && (n <=? 90))
  || ((97 <=? n) && (n <=? 122)) || (n =? 95).

Fixpoint trimStart (s : string) : string :=
  match s with
  | EmptyString => EmptyString
  | String a rest => if isWhiteSpace a then trimStart rest else s
  end.

Fixpoint trimEnd (s : string) : string :=
  match s with
  | EmptyString => EmptyString
  | String a rest =>
      match trimEnd rest with
      | EmptyString => if isWhiteSpace a then EmptyString else String a EmptyString
      | rest' => String a rest'
      end
  end.

(** [s.trim()]. *)
Definition trim (s : string) : string := trimEnd (trimStart s).

(** [s.replace(/[class]/g, '')]: the characters outside the class stay. *)
Fixpoint removeChars (inClass : ascii -> bool) (s : string) : string :=
  match s with
  | EmptyString => EmptyString
  | String a rest =>
      if inClass a then removeChars inClass rest
      else String a (removeChars inClass rest)
  end.

(** The class [[<>]] and the complement of [[\w\s\-_.@]]. *)
Definition isAngle (a : ascii) : bool :=
  Ascii.eqb a "<"%char || Ascii.eqb a ">"%char.

Definition isSafe (a : ascii) : bool :=
  isWordChar a || isWhiteSpace a || Ascii.eqb a "-"%char || Ascii.eqb a "_"%char
  || Ascii.eqb a "."%char || Ascii.eqb a "@"%char.

Definition sanitizeString (input : string) : string :=
  removeChars (fun a => negb (isSafe a)) (removeChars isAngle (trim input)).

(** Every character of a string satisfies a test. *)
Fixpoint allChars (p : ascii -> bool) (s : string) : bool :=
  match s with
  | EmptyString => true
  | String a rest => p a && allChars p rest
  end.

Definition validateSearchQuery (query : option string) : ValidationResult :=
  if negb (truthy query) then
    {| valid := false; errors := ["Search query must be a non-empty string"];
       data := None |}
  else
    let sanitized := sanitizeString (default EmptyString query) in
    if (String.length sanitized <? 1)%nat then
      {| valid := false; errors := ["Search query too short after sanitization"];
         data := None |}
    else if (100 <? String.length sanitized)%nat then
      {| valid := false; errors := ["Search query too long (max 100 characters)"];
         data := None |}
    else {| valid := true; errors := []; data := Some (JStr sanitized) |}.

(** A JavaScript number as the validators see it: an integer, a number
    that is not an integer (a fraction or an infinity), or [NaN]. *)
Inductive JsNumber :=
  | Int (z : Z)
  | NonInt
  | NaN.

(** [x || d] on a possibly absent number. *)
Definition number_or (x : option JsNumber) (d : Z) : JsNumber :=
  match x with
  | None | Some NaN | Some (Int 0) => Int d
  | Some n => n
  end.

Record Pagination := {
  limit : JsNumber;
  offset : JsNumber;
}.

Record PaginationResult := {
  pg_valid : bool;
  pg_errors : list string;
  pg_data : Pagination;
}.

(** [!Number.isInteger(x) || x < lo || x > hi], with [hi] optional. *)
Definition outside (x : JsNumber) (lo : Z) (hi : option Z) : bool :=
  match x with
  | Int z => (z <? lo) || match hi with Some h => h <? z | None => false end
  | _ => true
  end.

Definition validatePagination (limit offset : option JsNumber) : PaginationResult :=
  let errors :=
    match limit with
    | Some l => if outside l 1 (Some 100)
                then ["Limit must be an integer between 1 and 100"] else []
    | None => []
    end in
  let errors :=
    match offset with
    | Some o => if outside o 0 None
                then (errors ++ ["Offset must be a non-negative integer"])%list
                else errors
    | None => errors
    end in
  {| pg_valid := (length errors =? 0)%nat;
     pg_errors := errors;
     pg_data := {| limit := number_or limit 10; offset := number_or offset 0 |} |}.

Record Sort := {
  sortBy : string;
  sortOrder : string;
}.

Record SortResult := {
  sort_valid : bool;
  sort_errors : list string;
  sort_data : Sort;
}.

Definition validateSort (sortBy sortOrder : option string) (allowedFields : list string)
    : SortResult :=
  let errors :=
    if truthy sortBy && (0 <? length allowedFields)%nat
       && negb (existsb (String.eqb (default EmptyString sortBy)) allowedFields)
    then ["Sort field must be one of: " +:+ join ", " allowedFields] else [] in
  let errors :=
    if truthy sortOrder
       && negb (existsb (String.eqb (default EmptyString sortOrder)) ["asc"; "desc"])
    then (errors ++ ["Sort order must be " +:+ dq +:+ "asc" +:+ dq +:+ " or "
                     +:+ dq +:+ "desc" +:+ dq])%list
    else errors in
  {| sort_valid := (length errors =? 0)%nat;
     sort_errors := errors;
     sort_data := {| sortBy := if truthy sortBy then default EmptyString sortBy else "date";
                     sortOrder := if truthy sortOrder
                                  then default EmptyString sortOrder else "desc" |} |}.

Record ProficiencyResult := {
  prof_valid : bool;
  prof_errors : list string;
  prof_data : option JsNumber;
}.

Definition validateProficiency (proficiency : JsNumber) : ProficiencyResult :=
  if outside proficiency 0 (Some 100) then
    {| prof_valid := false;
       prof_errors := ["Proficiency must be an integer between 0 and 100"];
       prof_data := None |}
  else {| prof_valid := true; prof_errors := []; prof_data := Some proficiency |}.

End ValidationUtils.

(** ** Dispatcher: tool tables and [executeTool] ([index.ts]) *)
Module ServerTools.
Import RateLimiter ErrorHandler Validation Server.

Section Handlers.
(** The state the handlers own. *)
Variable World : Type.

(** A tool with its [handler] property: from the arguments and the
    handlers' state to a result or a thrown error, and the new state. *)
Record ToolEntry := {
  entry : Tool;
  handler : option (JsVal -> World -> (JsVal + Error) * World);
}.

(** The five exported tool arrays. *)
Variables portfolioTools skillTools projectTools analyticsTools exportTools
  : list ToolEntry.

(** [initializeTools] applied to the spread of the five arrays. *)
Definition allTools : list ToolEntry :=
  portfolioTools ++ skillTools ++ projectTools ++ analyticsTools ++ exportTools.

Definition registry : gmap string Tool := initializeTools (map entry allTools).

(** [group.find(t => t.name === toolName)?.handler?.(args)]: [undefined]
    when no tool of the group has the name or the tool has no handler. *)
Definition callHandler (group : list ToolEntry) (toolName : string) (args : JsVal)
    (w : World) : (JsVal + Error) * World :=
  match List.find (fun t => String.eqb (name (entry t)) toolName) group with
  | Some t =>
      match handler t with
      | Some h => h args w
      | None => (inl JUndefined, w)
      end
  | None => (inl JUndefined, w)
  end.

Definition portfolioCases : list string :=
  ["get_portfolio_overview"; "get_portfolio_stats"; "get_contact_info"].
Definition skillCases : list string :=
  ["get_skills"; "get_skill_by_id"; "filter_skills"; "get_skills_by_category"].
Definition projectCases : list string :=
  ["get_projects"; "get_project_by_id"; "filter_projects"; "get_featured_projects"].
Definition analyticsCases : list string := ["track_event"; "get_analytics_stats"].
Definition exportCases : list string :=
  ["export_portfolio"; "export_skills"; "export_projects"].

(** The [switch] of [executeTool]. *)
Definition executeTool (toolName : string) (args : JsVal) (w : World)
    : (JsVal + Error) * World :=
  if existsb (String.eqb toolName) portfolioCases
  then callHandler portfolioTools toolName args w
  else if existsb (String.eqb toolName) skillCases
  then callHandler skillTools toolName args w
  else if existsb (String.eqb toolName) projectCases
  then callHandler projectTools toolName args w
  else if existsb (String.eqb toolName) analyticsCases
  then callHandler analyticsTools toolName args w
  else if existsb (String.eqb toolName) exportCases
  then callHandler exportTools toolName args w
  else (inr (newError ("Tool handler not implemented: " +:+ toolName)), w).

(** The names the [switch] has a case for. *)
Definition implemented : list string :=
  portfolioCases ++ skillCases ++ projectCases ++ analyticsCases ++ exportCases.

End Handlers.

(** A tool without schema whose handler answers with its own name. *)
Definition echoTool (toolName : string) : ToolEntry unit :=
  {| entry := {| name := toolName; description := EmptyString; inputSchema := None |};
     handler := Some (fun _ w => (inl (JStr toolName), w)) |}.

(** The analytics array as exported: three tools. *)
Definition sampleAnalyticsTools : list (ToolEntry unit) :=
  [echoTool "track_event"; echoTool "get_analytics_stats";
   echoTool "get_popular_content"].

(** A handler table whose [get_featured_projects] handler throws the typed
    not-found error. *)
Definition throwingTool (toolName : string) (args : JsVal) (w : unit)
    : (JsVal + Error) * unit :=
  (inr (NotFoundError "Project" (Some "42")), w).

Definition sampleRegistry : gmap string Tool :=
  registry unit [] [] [] sampleAnalyticsTools [].

End ServerTools.

(** ** Analytics: sequences of tracking calls, statistics
    ([tools/analytics-tools.ts]) *)
Module AnalyticsStatsTools.
Import AnalyticsTools.

(** One call of [track_event]: the id drawn, the instant, the
    arguments. *)
Record TrackCall := {
  call_uuid : string;
  call_now : Z;
  call_args : TrackArgs;
}.

Record StatsSummary := {
  totalEvents : Z;
  eventTypes : counters;
  resourceTypes : counters;
  dailyBreakdown : counters;
  hourlyBreakdown : counters;
  topResources : counters;
}.

(** The arguments of [get_analytics_stats]. *)
Record StatsArgs := {
  stats_timeRange : option string;
  stats_includeEvents : bool;
  stats_eventType : option string;
}.

Record StatsData := {
  stats : StatsSummary;
  range_start : Z;
  range_end : Z;
  range_period : string;
  recentEvents : option (list AnalyticsEvent);
}.

Section WithEnvironment.
(** [new URL(url).hostname], and the two renderings of an instant that
    depend on the calendar and the time zone:
    [toISOString().split('T')[0]] and [getHours().toString()]. *)
Variable hostname : string -> option string.
Variable isoDay : Z -> string.
Variable localHour : Z -> string.

Definition trackAll (calls : list TrackCall) (st : Store) : Store :=
  fold_left (fun st c =>
               (trackEvent hostname (call_uuid c) (call_now c) (call_args c) st).2)
            calls st.

(** The body of the loop of [calculateStats]. *)
Definition statsStep (stats : StatsSummary) (event : AnalyticsEvent) : StatsSummary :=
  {| totalEvents := totalEvents stats;
     eventTypes := increment (type event) (eventTypes stats);
     resourceTypes := increment (resource event) (resourceTypes stats);
     dailyBreakdown := increment (isoDay (timestamp event)) (dailyBreakdown stats);
     hourlyBreakdown := increment (localHour (timestamp event)) (hourlyBreakdown stats);
     topResources :=
       if truthy (resourceId event)
       then increment (resource event +:+ ":" +:+ default EmptyString (resourceId event))
                      (topResources stats)
       else topResources stats |}.

Definition calculateStats (events : list AnalyticsEvent) : StatsSummary :=
  fold_left statsStep events
    {| totalEvents := Z.of_nat (length events);
       eventTypes := []; resourceTypes := []; dailyBreakdown := [];
       hourlyBreakdown := []; topResources := [] |}.

(** The two filters of [get_analytics_stats]. *)
Definition statsEvents (now : Z) (args : StatsArgs) (events : list AnalyticsEvent)
    : list AnalyticsEvent :=
  let timeRange := str_or (stats_timeRange args) "month" in
  let filteredEvents :=
    List.filter (fun event => startDate now timeRange <=? timestamp event) events in
  if truthy (stats_eventType args)
  then List.filter (fun event =>
                      String.eqb (type event)
                                 (default EmptyString (stats_eventType args)))
                   filteredEvents
  else filteredEvents.

(** The [get_analytics_stats] handler. *)
Definition getAnalyticsStats (now : Z) (args : StatsArgs) (st : Store) : StatsData :=
  let timeRange := str_or (stats_timeRange args) "month" in
  let filteredEvents := statsEvents now args (analyticsEvents st) in
  {| stats := calculateStats filteredEvents;
     range_start := startDate now timeRange;
     range_end := now;
     range_period := timeRange;
     recentEvents :=
       if stats_includeEvents args
       then Some (take 20 (sortDesc timestamp filteredEvents))
       else None |}.
End WithEnvironment.

(** The sum of the values of a counter table. *)
Definition counterSum (o : counters) : Z := fold_right Z.add 0 (map snd o).

(** The stored events of type "view". *)
Definition viewCount (events : list AnalyticsEvent) : Z :=
  Z.of_nat (length (List.filter (fun e => String.eqb (type e) "view") events)).

(** A most-recent-first list of [track_event]: no entry twice, at most
    ten entries. *)
Definition ring (l : list string) : Prop := NoDup l /\ (length l <= 10)%nat.

Definition ringsOk (stats : AnalyticsStats) : Prop :=
  ring (popularProjects stats) /\ ring (popularSkills stats) /\
  ring (topReferrers stats).

End AnalyticsStatsTools.

(** ** More export tools ([tools/export-tools.ts]) *)
Module ExportProjectsTools.
Import ExportTools.

(** The arguments of [export_projects]; [featured] and [includeImages] are
    booleans or absent. *)
Record ProjectsArgs := {
  pa_format : option string;
  pa_category : option string;
  pa_featured : option bool;
  pa_includeImages : option bool;
}.

(** Truthiness of a boolean that may be [undefined]. *)
Definition truthyB (o : option bool) : bool := default false o.

Record ProjectsData := {
  pe_content : string;
  pe_format : string;
  pe_mimeType : string;
  pe_filename : string;
  projectCount : Z;
  pe_category : option string;
  pe_featured : option bool;
  pe_size : Z;
}.

Inductive ProjectsResponse :=
  | ProjectsSuccess (data : ProjectsData)
  | ProjectsFailure (error : string).

(** [{ ...project, images: [] }]. *)
Definition withoutImages (project : Project) : Project :=
  {| title := title project; category := category project; year := year project;
     description := description project;
     shortDescription := shortDescription project; status := status project;
     featured := featured project; views := views project; likes := likes project;
     technologies := technologies project; images := [];
     liveUrl := liveUrl project; githubUrl := githubUrl project |}.

Definition projectsCsvHeaders : list string :=
  ["Title"; "Category"; "Status"; "Year"; "Featured"; "Views"; "Likes";
   "Technologies"; "Description"].

Definition projectsCsvRow (project : Project) : string :=
  join "," [quoted (title project); category project; status project;
            show (year project);
            if featured project then "true" else "false";
            show (views project); show (likes project);
            quoted (join ", " (technologies project));
            quoted (shortDescription project)].

Definition generateProjectsCSV (projects : list Project) : string :=
  join nl (join "," projectsCsvHeaders :: map projectsCsvRow projects).

(** The three filters of [export_projects], applied to a copy of
    [projectsData]. *)
Definition selectProjects (args : ProjectsArgs) (projectsData : list Project)
    : list Project :=
  let projects := projectsData in
  let projects :=
    if truthy (pa_category args)
    then List.filter (fun project =>
                        String.eqb (category project)
                                   (default EmptyString (pa_category args)))
                     projects
    else projects in
  let projects :=
    if truthyB (pa_featured args)
    then List.filter (fun project => featured project) projects
    else projects in
  if negb (truthyB (pa_includeImages args))
  then map withoutImages projects
  else projects.

(** The category and featured conditions of [export_projects] on one
    project. *)
Definition selected (args : ProjectsArgs) (project : Project) : bool :=
  (if truthy (pa_category args)
   then String.eqb (category project) (default EmptyString (pa_category args))
   else true) &&
  (if truthyB (pa_featured args) then featured project else true).

Section Handlers.
(** [JSON.stringify({ projects, stats, exportedAt }, null, 2)] and
    [generateProjectsMarkdown(projects)]: renderers that read the selected
    projects. *)
Variable JSON_stringify : list Project -> string.
Variable generateProjectsMarkdown : list Project -> string.

(** The [export_projects] handler over the dataset [projectsData]. *)
Definition exportProjects (projectsData : list Project) (args : ProjectsArgs)
    : ProjectsResponse :=
  let projects := selectProjects args projectsData in
  let format := if truthy (pa_format args)
                then default EmptyString (pa_format args) else "json" in
  let stem :=
    "projects" +:+
    (if truthy (pa_category args)
     then "-" +:+ default EmptyString (pa_category args) else EmptyString) +:+
    (if truthyB (pa_featured args) then "-featured" else EmptyString) in
  let rendered :=
    if String.eqb format "json" then
      Some (JSON_stringify projects, "application/json", stem +:+ ".json")
    else if String.eqb format "csv" then
      Some (generateProjectsCSV projects, "text/csv", stem +:+ ".csv")
    else if String.eqb format "markdown" then
      Some (generateProjectsMarkdown projects, "text/markdown", stem +:+ ".md")
    else None in
  match rendered with
  | Some (result, mimeType, filename) =>
      ProjectsSuccess
        {| pe_content := result; pe_format := format; pe_mimeType := mimeType;
           pe_filename := filename;
           projectCount := Z.of_nat (length projects);
           pe_category := pa_category args;
           pe_featured := pa_featured args;
           pe_size := Z.of_nat (String.length result) |}
  | None => ProjectsFailure "Failed to export projects"
  end.
End Handlers.

(** A project of the sample dataset. *)
Definition sampleProject (name cat : string) (feat : bool) (v l : Z) : Project :=
  {| title := name; category := cat; year := 2024;
     description := "Brand identity"; shortDescription := "Branding";
     status := "completed"; featured := feat; views := v; likes := l;
     technologies := ["Illustrator"; "Photoshop"];
     images := ["cover.png"];
     liveUrl := Some "https://example.com/work"; githubUrl := None |}.

Definition sampleProjects : list Project :=
  [ sampleProject "Logo" "branding" true 10 1;
    sampleProject "Poster" "print" false 50 5;
    sampleProject "Identity" "branding" true 30 4 ].

Definition csvArgs : ProjectsArgs :=
  {| pa_format := Some "csv"; pa_category := Some "branding";
     pa_featured := Some true; pa_includeImages := None |}.

(** An [export_portfolio] call with a format outside the enumeration. *)
Definition pdfArgs : ExportArgs :=
  {| arg_format := Some "pdf"; arg_includePrivate := false; arg_compress := false |}.

End ExportProjectsTools.

(** ** The text formats of the exports ([tools/export-tools.ts]) *)
Module ExportFormats.
Import ExportTools ExportProjectsTools.

(** The skill line and the project section of [generateMarkdownExport]. *)
Definition markdownSkill (skill : Skill) : string :=
  "- **" +:+ skill_name skill +:+ "** (" +:+ skill_level skill +:+ ", " +:+
  show (skill_proficiency skill) +:+ "%) - " +:+ skill_description skill.

Definition markdownProject (project : Project) : string :=
  "### " +:+ title project +:+ nl +:+
  description project +:+ nl +:+
  "- **Category**: " +:+ category project +:+ nl +:+
  "- **Year**: " +:+ show (year project) +:+ nl +:+
  "- **Technologies**: " +:+ join ", " (technologies project) +:+ nl +:+
  (if truthy (liveUrl project)
   then "- **Live URL**: " +:+ default EmptyString (liveUrl project)
   else EmptyString) +:+ nl.

(** [generateMarkdownExport(data)], over the dataset and the contact object
    it refers to; [exportedOn] is [new Date().toISOString()]. *)
Definition generateMarkdownExport (exportedOn : string) (data : Portfolio)
    (contact : ContactInfo) : string :=
  "# " +:+ p_title data +:+ nl +:+
  nl +:+
  p_description data +:+ nl +:+
  nl +:+
  "## Contact Information" +:+ nl +:+
  "- **Email**: " +:+ email contact +:+ nl +:+
  "- **Location**: " +:+ location contact +:+ nl +:+
  "- **Website**: " +:+ website contact +:+ nl +:+
  nl +:+
  "## Skills (" +:+ show (Z.of_nat (length (skills data))) +:+ ")" +:+ nl +:+
  join nl (map markdownSkill (skills data)) +:+ nl +:+
  nl +:+
  "## Projects (" +:+ show (Z.of_nat (length (projects data))) +:+ ")" +:+ nl +:+
  join nl (map markdownProject (projects data)) +:+ nl +:+
  nl +:+
  "---" +:+ nl +:+
  "*Exported on " +:+ exportedOn +:+ "*" +:+ nl.

(** The section [generateProjectsMarkdown] appends for one project. *)
Definition projectsMarkdownSection (project : Project) : string :=
  "## " +:+ title project +:+ nl +:+
  description project +:+ nl +:+
  nl +:+
  "- **Category**: " +:+ category project +:+ nl +:+
  "- **Year**: " +:+ show (year project) +:+ nl +:+
  "- **Status**: " +:+ status project +:+ nl +:+
  "- **Featured**: " +:+ (if featured project then "Yes" else "No") +:+ nl +:+
  "- **Technologies**: " +:+ join ", " (technologies project) +:+ nl +:+
  "- **Views**: " +:+ show (views project) +:+ nl +:+
  "- **Likes**: " +:+ show (likes project) +:+ nl +:+
  (if truthy (liveUrl project)
   then "- **Live URL**: " +:+ default EmptyString (liveUrl project)
   else EmptyString) +:+ nl +:+
  (if truthy (githubUrl project)
   then "- **GitHub**: " +:+ default EmptyString (githubUrl project)
   else EmptyString) +:+ nl +:+
  nl.

(** [generateProjectsMarkdown(projects)]: the loop appends to the
    heading. *)
Definition generateProjectsMarkdown (projects : list Project) : string :=
  fold_left (fun markdown project => markdown +:+ projectsMarkdownSection project)
            projects ("# Projects Export" +:+ nl +:+ nl).

Section Numbers.
(** [yearsOfExperience] is a number that need not be an integer (2.5 in
    the shipped dataset): the numbers, their rendering [String(x)], their
    sum and the literal [0] are parameters. *)
Variable Number : Type.
Variable Number_toString : Number -> string.
Variable Number_add : Number -> Number -> Number.
Variable Number_zero : Number.

(** A skill with the two fields that only the skills export reads. *)
Record SkillDetails := {
  detail_skill : Skill;
  yearsOfExperience : Number;
  skill_projectCount : Z;
}.

Definition skillsCsvHeaders : list string :=
  ["Name"; "Category"; "Level"; "Proficiency"; "Experience Years"; "Projects";
   "Description"].

Definition skillsCsvRow (skill : SkillDetails) : string :=
  join "," [quoted (skill_name (detail_skill skill));
            skill_category (detail_skill skill);
            skill_level (detail_skill skill);
            show (skill_proficiency (detail_skill skill));
            Number_toString (yearsOfExperience skill);
            show (skill_projectCount skill);
            quoted (skill_description (detail_skill skill))].

Definition generateSkillsCSV (skills : list SkillDetails) : string :=
  join nl (join "," skillsCsvHeaders :: map skillsCsvRow skills).

(** The statistics of [calculateSkillStats] that the Markdown export
    prints. The average is [Math.round] of a quotient of integers, which is
    [NaN] for an empty list. *)
Definition averageProficiency (skills : list SkillDetails) : option Z :=
  match skills with
  | [] => None
  | _ =>
      Some (RateLimiterOps.roundDiv
              (fold_left (fun sum skill => sum + skill_proficiency (detail_skill skill))
                         skills 0)
              (Z.of_nat (length skills)))
  end.

Definition totalExperience (skills : list SkillDetails) : Number :=
  fold_left (fun sum skill => Number_add sum (yearsOfExperience skill))
            skills Number_zero.

Definition totalProjects (skills : list SkillDetails) : Z :=
  fold_left (fun sum skill => sum + skill_projectCount skill) skills 0.

Definition statisticsSection (skills : list SkillDetails) : string :=
  "## Statistics" +:+ nl +:+
  "- **Total Skills**: " +:+ show (Z.of_nat (length skills)) +:+ nl +:+
  "- **Average Proficiency**: " +:+
    match averageProficiency skills with
    | Some n => show n
    | None => "NaN"
    end +:+ "%" +:+ nl +:+
  "- **Total Experience**: " +:+ Number_toString (totalExperience skills)
    +:+ " years" +:+ nl +:+
  "- **Total Projects**: " +:+ show (totalProjects skills) +:+ nl +:+
  nl.

(** The section [generateSkillsMarkdown] appends for one skill. *)
Definition skillsMarkdownSection (skill : SkillDetails) : string :=
  "### " +:+ skill_name (detail_skill skill) +:+ nl +:+
  "- **Category**: " +:+ skill_category (detail_skill skill) +:+ nl +:+
  "- **Level**: " +:+ skill_level (detail_skill skill) +:+ nl +:+
  "- **Proficiency**: " +:+ show (skill_proficiency (detail_skill skill)) +:+ "%" +:+ nl +:+
  "- **Experience**: " +:+ Number_toString (yearsOfExperience skill) +:+ " years" +:+ nl +:+
  "- **Projects**: " +:+ show (skill_projectCount skill) +:+ nl +:+
  "- **Description**: " +:+ skill_description (detail_skill skill) +:+ nl +:+
  nl.

(** [generateSkillsMarkdown(skills, includeStats)]. *)
Definition generateSkillsMarkdown (skills : list SkillDetails) (includeStats : bool)
    : string :=
  let markdown := "# Skills Export" +:+ nl +:+ nl in
  let markdown :=
    if includeStats then markdown +:+ statisticsSection skills else markdown in
  let markdown := markdown +:+ "## Skills List" +:+ nl +:+ nl in
  fold_left (fun markdown skill => markdown +:+ skillsMarkdownSection skill)
            skills markdown.
End Numbers.

Arguments detail_skill {Number} _.
Arguments yearsOfExperience {Number} _.
Arguments skill_projectCount {Number} _.

(** Whether a text is free of line feeds. *)
Fixpoint noLineFeed (s : string) : bool :=
  match s with
  | EmptyString => true
  | String a rest => negb (Ascii.eqb a "010"%char) && noLineFeed rest
  end.

End ExportFormats.

(** ** Project tools ([tools/project-tools.ts]) *)
Module ProjectTools.
Import ExportTools.

(** The arguments of [get_featured_projects]; [limit] is an integer when
    present. *)
Record FeaturedArgs := {
  fa_category : option string;
  fa_limit : option Z;
}.

Record FeaturedData := {
  fd_projects : list Project;
  fd_total : Z;
  fd_categories : list string;
}.

(** [a.views + (a.likes * 2)]. The code computes it in double precision;
    the two agree while the counters are safe integers, see [safeCounters]. *)
Definition score (a : Project) : Z := views a + likes a * 2.

(** [views] and [likes] are counters, and small enough for the score to
    be exact in double precision: not negative, and the score at most
    [Number.MAX_SAFE_INTEGER]. *)
Definition safeCounters (a : Project) : bool :=
  (0 <=? views a) && (0 <=? likes a) && (score a <=? 2 ^ 53 - 1).

(** [[...new Set(values)]]: the distinct values, each at its first
    occurrence. *)
Definition distinct (values : list string) : list string :=
  fold_left (fun acc v =>
               if existsb (String.eqb v) acc then acc else (acc ++ [v])%list)
            values [].

(** The projects [get_featured_projects] ranks: the featured ones, of the
    category asked for when there is one. *)
Definition featuredPool (projectsData : list Project) (args : FeaturedArgs)
    : list Project :=
  let featuredProjects := List.filter (fun project => featured project) projectsData in
  if truthy (fa_category args)
  then List.filter (fun project =>
                      String.eqb (category project)
                                 (default EmptyString (fa_category args)))
                   featuredProjects
  else featuredProjects.

(** The [get_featured_projects] handler over the dataset [projectsData]. *)
Definition getFeaturedProjects (projectsData : list Project) (args : FeaturedArgs)
    : FeaturedData :=
  let featuredProjects := featuredPool projectsData args in
  let featuredProjects := sortDesc score featuredProjects in
  let limit := num_or (default 0 (fa_limit args)) 5 in
  let featuredProjects := slice0 limit featuredProjects in
  {| fd_projects := featuredProjects;
     fd_total := Z.of_nat (length featuredProjects);
     fd_categories :=
       distinct (map category
                   (List.filter (fun p => featured p) projectsData)) |}.

End ProjectTools.

(** * Properties *)

(** ** Rate limiter *)
Module RateLimiterProps.
Import RateLimiter.

Lemma ceil_div_zero d : ceil_div 0 d = 0.
Proof. unfold ceil_div. simpl. now rewrite Zdiv_0_l. Qed.

(** The reset time the code computes is the constant zero: the window
    start plus the window length is [now] again. *)
Lemma checkLimit_resetTime config now request requests :
  resetTime (checkLimit config now request requests).1 = 0.
Proof.
  unfold checkLimit. cbn [fst resetTime].
  replace (now - windowMs config + windowMs config - now) with 0 by lia.
  apply ceil_div_zero.
Qed.

Lemma checkLimit_under config now request requests :
  let w := inWindow config now request requests in
  Z.of_nat (length w) < maxRequests config ->
  checkLimit config now request requests =
    ({| allowed := true;
        remaining := maxRequests config - Z.of_nat (length w) - 1;
        resetTime := 0;
        totalRequests := Z.of_nat (length w) + 1 |},
     <[generateKey request := (w ++ [entry now request])%list]> requests).
Proof.
  intros w Hlt. pose proof (checkLimit_resetTime config now request requests) as Hr.
  unfold checkLimit in *. cbn [fst resetTime] in Hr. rewrite Hr.
  fold (inWindow config now request requests). fold w.
  rewrite bool_decide_eq_true_2 by exact Hlt.
  rewrite length_app. cbn [length]. unfold entry.
  f_equal. f_equal; lia.
Qed.

Lemma checkLimit_over config now request requests :
  let w := inWindow config now request requests in
  maxRequests config <= Z.of_nat (length w) ->
  checkLimit config now request requests =
    ({| allowed := false;
        remaining := 0;
        resetTime := 0;
        totalRequests := Z.of_nat (length w) |},
     requests).
Proof.
  intros w Hge. pose proof (checkLimit_resetTime config now request requests) as Hr.
  unfold checkLimit in *. cbn [fst resetTime] in Hr. rewrite Hr.
  fold (inWindow config now request requests). fold w.
  rewrite bool_decide_eq_false_2 by lia.
  f_equal. f_equal; lia.
Qed.







(** The log of a caller whose entries all lie in the window is kept whole
    by the prune. *)
Lemma prune_all windowStart (l : list RequestInfo) :
  Forall (fun r => windowStart < timestamp r) l -> prune windowStart l = l.
Proof.
  unfold prune. induction 1 as [|r l Hr _ IH]; [reflexivity|].
  rewrite filter_cons_True by exact Hr. now rewrite IH.
Qed.

(** A burst: calls at instants that pairwise lie within one window of each
    other, made by a caller whose stored log lies in the window of each of
    them. The [i]-th call of the burst is allowed exactly while the log
    length plus [i] is below [maxRequests]: the first [maxRequests] calls
    of a fresh caller pass, every later one is denied. *)
Lemma burst_admission config request (times : list Z) :
  forall requests : requests_map,
  let log := default [] (requests !! generateKey request) in
  (forall t t', In t times -> In t' times -> t - windowMs config < t') ->
  (forall t, In t times -> Forall (fun r => t - windowMs config < timestamp r) log) ->
  map allowed (run config request times requests).1 =
    map (fun i => bool_decide (Z.of_nat (length log + i) < maxRequests config))
        (seq 0 (length times)).
Proof.
  induction times as [|t rest IH]; intros requests log Hpair Hlog; [reflexivity|].
  assert (Hw : inWindow config t request requests = log).
  { unfold inWindow. apply prune_all. apply Hlog. now left. }
  cbn [run length seq map].
  destruct (Z_lt_le_dec (Z.of_nat (length log)) (maxRequests config)) as [Hlt|Hge].
  - pose proof (checkLimit_under config t request requests) as Hc.
    cbn zeta in Hc. rewrite Hw in Hc. rewrite Hc by exact Hlt. clear Hc.
    specialize (IH (<[generateKey request := (log ++ [entry t request])%list]> requests)).
    cbn zeta in IH. rewrite lookup_insert_eq in IH.
    cbn [default from_option] in IH. unfold id in IH.
    destruct (run config request rest _) as [rs st'] eqn:Hrun.
    cbn [fst map] in *. rewrite IH.
    + f_equal.
      * rewrite Nat.add_0_r. now rewrite bool_decide_eq_true_2.
      * rewrite <- seq_shift, map_map. apply map_ext. intros i.
        rewrite length_app. cbn [length]. apply bool_decide_ext. lia.
    + intros a b Ha Hb. apply Hpair; now right.
    + intros a Ha. apply Forall_app. split.
      * apply Hlog. now right.
      * constructor; [|constructor]. cbn. apply Hpair; [now right|now left].
  - pose proof (checkLimit_over config t request requests) as Hc.
    cbn zeta in Hc. rewrite Hw in Hc. rewrite Hc by exact Hge. clear Hc.
    specialize (IH requests). cbn zeta in IH. fold log in IH.
    destruct (run config request rest requests) as [rs st'] eqn:Hrun.
    cbn [fst map] in *. rewrite IH.
    + f_equal.
      * rewrite Nat.add_0_r. rewrite bool_decide_eq_false_2; [reflexivity|lia].
      * rewrite <- seq_shift, map_map. apply map_ext. intros i.
        rewrite !bool_decide_eq_false_2; [reflexivity|lia|lia].
    + intros a b Ha Hb. apply Hpair; now right.
    + intros a Ha. apply Hlog. now right.
Qed.

(** Pruning at a later window start subsumes pruning at an earlier one. *)
Lemma prune_prune w' w (l : list RequestInfo) :
  w' <= w -> prune w (prune w' l) = prune w l.
Proof.
  intros Hle. unfold prune. induction l as [|r l IH]; [reflexivity|].
  rewrite (filter_cons (fun req => w' < timestamp req)).
  destruct (decide (w' < timestamp r)) as [Hin|Hout].
  - rewrite !filter_cons. now rewrite IH.
  - rewrite IH. rewrite filter_cons_False by lia. reflexivity.
Qed.

(** The periodic sweep does not change what a later call sees: the
    timestamps in the window of a call at [now] are the same whether or not
    a sweep ran at an earlier instant [swept]. *)
Lemma cleanup_inWindow config swept now request requests :
  swept <= now ->
  inWindow config now request (cleanup config swept requests)
  = inWindow config now request requests.
Proof.
  intros Hle. unfold inWindow, cleanup. rewrite lookup_omap.
  destruct (requests !! generateKey request) as [l|]; [|reflexivity].
  cbn [mbind option_bind default from_option]. unfold id.
  rewrite <- (prune_prune (swept - windowMs config) (now - windowMs config) l) by lia.
  destruct (prune (swept - windowMs config) l); reflexivity.
Qed.

(** Hence a sweep between two calls leaves the answer of the later call
    as it was. *)
Lemma cleanup_checkLimit config swept now request requests :
  swept <= now ->
  (checkLimit config now request (cleanup config swept requests)).1
  = (checkLimit config now request requests).1.
Proof.
  intros Hle.
  pose proof (cleanup_inWindow config swept now request requests Hle) as Hw.
  destruct (Z_lt_le_dec (Z.of_nat (length (inWindow config now request requests)))
              (maxRequests config)) as [Hlt|Hge].
  - rewrite (checkLimit_under config now request requests Hlt).
    rewrite <- Hw in Hlt. rewrite (checkLimit_under _ _ _ _ Hlt). now rewrite Hw.
  - rewrite (checkLimit_over config now request requests Hge).
    rewrite <- Hw in Hge. rewrite (checkLimit_over _ _ _ _ Hge). now rewrite Hw.
Qed.

(** C3. The reset time and the oldest timestamp. With a window of 1000 ms
    and one logged call at instant 0, a call at instant 100 should report one
    second until that timestamp leaves the window; [checkLimit] reports 0,
    as it does for every call. *)
Theorem resetTime_ignores_oldest_timestamp :
  let requests : requests_map := {[ "ip:X" := [entry 0 caller_X] ]} in
  resetTime (checkLimit scenario_config 100 caller_X requests).1 = 0 /\
  resetTimeSeconds_spec scenario_config 100 caller_X requests = 1.
Proof. split; vm_compute; reflexivity. Qed.

End RateLimiterProps.

(** ** Dispatcher *)
Module ServerProps.
Import RateLimiter ErrorHandler Validation Server RateLimiterProps.

Section Facts.
Variable zodSafeParse : JsVal -> JsVal -> ZodOutcome.
Variable World : Type.
Variable executeTool : string -> JsVal -> World -> (JsVal + Error) * World.
Variable config : RateLimitConfig.
Variable tools : gmap string Tool.

Let call := callTool zodSafeParse World executeTool config tools.

(** What the catch block makes of a plain [Error] with a non-empty
    message. *)
Lemma catch_plain_error clock name args msg :
  msg <> EmptyString ->
  catch clock name args (newError msg) =
    (IsError {| success := false; error := msg; env_code := "INTERNAL_ERROR";
                env_timestamp := iso_envelope clock |},
     Some {| message := msg; code := "INTERNAL_ERROR"; statusCode := 500;
             timestamp := iso_handled clock;
             context := Some {[ "tool" := JStr name;
                                "args" := default JUndefined args;
                                "timestamp" := JStr (iso_context clock) ]} |}).
Proof.
  intros Hne. unfold catch, handleError, newError. cbn.
  destruct (String.eqb_spec msg EmptyString); [contradiction|reflexivity].
Qed.

Lemma denied_call clock request name args st :
  allowed (checkLimit config (now clock) request (requests World st)).1 = false ->
  call clock request name args st =
    (catch clock name args
       (newError "Rate limit exceeded. Try again in 0 seconds."),
     st).
Proof.
  intros Hden. unfold call, callTool.
  pose proof (checkLimit_resetTime config (now clock) request (requests World st)) as Hr.
  pose proof (checkLimit_under config (now clock) request (requests World st)) as Hunder.
  pose proof (checkLimit_over config (now clock) request (requests World st)) as Hover.
  cbn zeta in Hunder, Hover.
  destruct (checkLimit config (now clock) request (requests World st)) as [r rq] eqn:Hc.
  cbn [fst snd] in *. rewrite Hden, Hr. cbn [negb].
  destruct (Z_lt_le_dec
              (Z.of_nat (length (inWindow config (now clock) request (requests World st))))
              (maxRequests config)) as [Hlt|Hge].
  - specialize (Hunder Hlt). inversion Hunder; subst. discriminate Hden.
  - specialize (Hover Hge). inversion Hover; subst. destruct st. reflexivity.
Qed.

Lemma unknown_tool_call clock request name args st :
  allowed (checkLimit config (now clock) request (requests World st)).1 = true ->
  tools !! name = None ->
  call clock request name args st =
    (catch clock name args (newError ("Unknown tool: " +:+ name)),
     {| requests := (checkLimit config (now clock) request (requests World st)).2;
        world := world World st |}).
Proof.
  intros Hok Hnone. unfold call, callTool.
  destruct (checkLimit config (now clock) request (requests World st)) as [r rq].
  cbn [fst snd] in *. rewrite Hok, Hnone. reflexivity.
Qed.

Lemma invalid_input_call clock request name args st tool :
  allowed (checkLimit config (now clock) request (requests World st)).1 = true ->
  tools !! name = Some tool ->
  valid (validateToolInput zodSafeParse tool (default (JObj []) args)) = false ->
  call clock request name args st =
    (catch clock name args
       (newError ("Invalid input: " +:+
          join ", " (errors (validateToolInput zodSafeParse tool
                               (default (JObj []) args))))),
     {| requests := (checkLimit config (now clock) request (requests World st)).2;
        world := world World st |}).
Proof.
  intros Hok Htool Hinv. unfold call, callTool.
  destruct (checkLimit config (now clock) request (requests World st)) as [r rq].
  cbn [fst snd] in *. rewrite Hok, Htool, Hinv. reflexivity.
Qed.

(** Had the dispatcher thrown the [RateLimitError] of the error module,
    the handler would have produced the typed record. *)
Lemma handleError_RateLimitError ts n clock name args :
  let d := handleError ts (RateLimitError n)
             (Some {[ "tool" := JStr name;
                      "args" := default JUndefined args;
                      "timestamp" := JStr (iso_context clock) ]}) in
  code d = "RATE_LIMIT_EXCEEDED" /\ statusCode d = 429 /\
  contextEntry d "resetTime" = Some (JNum n).
Proof.
  cbn. split; [reflexivity|]. split; [reflexivity|].
  unfold contextEntry, spread2. cbn.
  rewrite lookup_union_r; [apply lookup_singleton_eq|]. reflexivity.
Qed.

(** C2. A call the rate limiter denies: the dispatcher throws a plain
    [Error], so the envelope carries the code INTERNAL_ERROR, the
    logged record has status 500, and its context has no [resetTime]
    entry (the reset time appears in the message text only). *)
Theorem denied_call_envelope clock request name args st :
  allowed (checkLimit config (now clock) request (requests World st)).1 = false ->
  let '(resp, logged, st') := call clock request name args st in
  resp = IsError {| success := false;
                    error := "Rate limit exceeded. Try again in 0 seconds.";
                    env_code := "INTERNAL_ERROR";
                    env_timestamp := iso_envelope clock |} /\
  (exists d, logged = Some d /\ code d = "INTERNAL_ERROR" /\
             statusCode d = 500 /\ contextEntry d "resetTime" = None) /\
  st' = st.
Proof.
  intros Hden. rewrite denied_call by exact Hden.
  rewrite catch_plain_error by discriminate.
  split; [reflexivity|]. split; [|reflexivity].
  eexists. split; [reflexivity|]. cbn. split; [reflexivity|]. split; reflexivity.
Qed.

(** C4 (amended). The rate-limiter gate comes before the descriptor
    lookup: a call whose operation name is not registered is answered
    with an error envelope whose message is "Unknown tool: <name>" when
    the limiter allows the call, and the limiter's "Rate limit exceeded"
    message, with the reset time the limiter reported, when it denies
    it; in both cases the limiter has already run on the call, and the
    handlers' state is as it was. *)
Theorem unregistered_after_rate_gate clock request name args st :
  tools !! name = None ->
  let r := (checkLimit config (now clock) request (requests World st)).1 in
  let '(resp, _, st') := call clock request name args st in
  (exists envelope,
     resp = IsError envelope /\ success envelope = false /\
     error envelope =
       if allowed r then "Unknown tool: " +:+ name
       else "Rate limit exceeded. Try again in " +:+ show (resetTime r)
            +:+ " seconds.") /\
  requests World st' = (checkLimit config (now clock) request (requests World st)).2 /\
  world World st' = world World st.
Proof.
  intros Hnone r. subst r.
  pose proof (checkLimit_resetTime config (now clock) request (requests World st)) as Hr.
  destruct (allowed (checkLimit config (now clock) request (requests World st)).1) eqn:Ha.
  - rewrite unknown_tool_call by assumption.
    rewrite catch_plain_error by discriminate.
    split; [|split; reflexivity]. eexists. split; [reflexivity|]. split; reflexivity.
  - pose proof (checkLimit_over config (now clock) request (requests World st)) as Hover.
    pose proof (checkLimit_under config (now clock) request (requests World st)) as Hunder.
    cbn zeta in Hover, Hunder.
    rewrite denied_call by exact Ha.
    rewrite catch_plain_error by discriminate. rewrite Hr.
    split; [eexists; split; [reflexivity|]; split; reflexivity|].
    split; [|reflexivity].
    destruct (Z_lt_le_dec
                (Z.of_nat (length (inWindow config (now clock) request (requests World st))))
                (maxRequests config)) as [Hlt|Hge].
    + rewrite Hunder in Ha by exact Hlt. discriminate.
    + rewrite Hover by exact Hge. reflexivity.
Qed.

(** C5 (amended). Dispatching the unregistered name "get_nonexistent",
    when the rate limiter admits the call, returns the envelope with
    [success = false], error "Unknown tool: get_nonexistent" and code
    INTERNAL_ERROR. *)
Theorem get_nonexistent_envelope clock request args st :
  tools !! "get_nonexistent" = None ->
  allowed (checkLimit config (now clock) request (requests World st)).1 = true ->
  (call clock request "get_nonexistent" args st).1.1 =
    IsError {| success := false;
               error := "Unknown tool: get_nonexistent";
               env_code := "INTERNAL_ERROR";
               env_timestamp := iso_envelope clock |}.
Proof.
  intros Hnone Hok. rewrite unknown_tool_call by assumption.
  rewrite catch_plain_error by discriminate. reflexivity.
Qed.

(** C6. A call whose arguments fail schema validation: the message
    lists every issue the validator reports, in order, each prefixed
    with its dot-joined path; the dispatcher throws a plain [Error],
    so the code is INTERNAL_ERROR and the logged status 500. *)
Theorem invalid_input_envelope clock request name args st tool schema issues :
  allowed (checkLimit config (now clock) request (requests World st)).1 = true ->
  tools !! name = Some tool ->
  inputSchema tool = Some schema ->
  zodSafeParse schema (default (JObj []) args) = ParseFailure issues ->
  let '(resp, logged, _) := call clock request name args st in
  resp = IsError {| success := false;
                    error := "Invalid input: " +:+
                             join ", " (map formatIssue issues);
                    env_code := "INTERNAL_ERROR";
                    env_timestamp := iso_envelope clock |} /\
  (exists d, logged = Some d /\ code d = "INTERNAL_ERROR" /\ statusCode d = 500).
Proof.
  intros Hok Htool Hschema Hzod.
  assert (Hv : validateToolInput zodSafeParse tool (default (JObj []) args) =
               {| valid := false; errors := map formatIssue issues; data := None |}).
  { unfold validateToolInput. rewrite Hschema, Hzod. reflexivity. }
  rewrite (invalid_input_call clock request name args st tool Hok Htool)
    by (rewrite Hv; reflexivity).
  rewrite Hv. cbn [errors].
  rewrite catch_plain_error by discriminate.
  split; [reflexivity|]. eexists. split; [reflexivity|]. split; reflexivity.
Qed.

End Facts.

Lemma denied_call_envelope_witness :
  allowed (checkLimit scenario_config 200 mcp_request exhausted).1 = false /\
  (callTool acceptAll unit notImplemented scenario_config sample_tools
     (sample_clock 200) mcp_request "get_featured_projects" None exhausted_state).1.1
  = IsError {| success := false;
               error := "Rate limit exceeded. Try again in 0 seconds.";
               env_code := "INTERNAL_ERROR";
               env_timestamp := "2024-01-01T00:00:00.000Z" |}.
Proof.
  assert (Hden : allowed (checkLimit scenario_config (now (sample_clock 200))
                            mcp_request (requests unit exhausted_state)).1 = false)
    by (vm_compute; reflexivity).
  split; [exact Hden|].
  pose proof (denied_call_envelope acceptAll unit notImplemented scenario_config
                sample_tools (sample_clock 200) mcp_request
                "get_featured_projects" None exhausted_state Hden) as H.
  destruct (callTool _ _ _ _ _ _ _ _ _ _) as [[resp logged] st'].
  exact (proj1 H).
Defined.

(** C4, as stated, fails: with the caller's budget used up, the call of
    an unregistered name is answered with the rate-limit error, not with
    the unknown-operation envelope. *)
Lemma lookup_before_rate_gate_counterexample :
  let resp :=
    (callTool acceptAll unit notImplemented scenario_config sample_tools
       (sample_clock 200) mcp_request "get_nonexistent" None exhausted_state).1.1 in
  sample_tools !! "get_nonexistent" = None /\
  resp = IsError {| success := false;
                    error := "Rate limit exceeded. Try again in 0 seconds.";
                    env_code := "INTERNAL_ERROR";
                    env_timestamp := "2024-01-01T00:00:00.000Z" |} /\
  ~ unknownOperationEnvelope "get_nonexistent" resp.
Proof.
  cbv zeta. split; [vm_compute; reflexivity|].
  assert (Hr : (callTool acceptAll unit notImplemented scenario_config sample_tools
                  (sample_clock 200) mcp_request "get_nonexistent" None
                  exhausted_state).1.1
               = IsError {| success := false;
                            error := "Rate limit exceeded. Try again in 0 seconds.";
                            env_code := "INTERNAL_ERROR";
                            env_timestamp := "2024-01-01T00:00:00.000Z" |})
    by (vm_compute; reflexivity).
  split; [exact Hr|]. rewrite Hr. intros [ts Hts]. discriminate Hts.
Qed.

Lemma unregistered_after_rate_gate_witness :
  sample_tools !! "get_nonexistent" = None /\
  requests unit
    (callTool acceptAll unit notImplemented scenario_config sample_tools
       (sample_clock 0) mcp_request "get_nonexistent" None fresh_state).2
  = {[ "anonymous" := [entry 0 mcp_request] ]}.
Proof.
  assert (Hnone : sample_tools !! "get_nonexistent" = None) by (vm_compute; reflexivity).
  split; [exact Hnone|].
  pose proof (unregistered_after_rate_gate acceptAll unit notImplemented
                scenario_config sample_tools (sample_clock 0) mcp_request
                "get_nonexistent" None fresh_state Hnone) as H.
  cbv zeta in H.
  destruct (callTool _ _ _ _ _ _ _ _ _ _) as [[resp logged] st'].
  cbn [snd]. rewrite (proj1 (proj2 H)). vm_compute. reflexivity.
Defined.

(** C5, as stated, fails: on a fresh limiter the call of "get_nonexistent"
    is answered with the code INTERNAL_ERROR. *)
Lemma get_nonexistent_counterexample :
  let resp :=
    (callTool acceptAll unit notImplemented (constructor 0 0) sample_tools
       (sample_clock 0) mcp_request "get_nonexistent" None fresh_state).1.1 in
  resp = IsError {| success := false;
                    error := "Unknown tool: get_nonexistent";
                    env_code := "INTERNAL_ERROR";
                    env_timestamp := "2024-01-01T00:00:00.000Z" |} /\
  ~ unknownOperationEnvelope "get_nonexistent" resp.
Proof.
  cbv zeta.
  assert (Hr : (callTool acceptAll unit notImplemented (constructor 0 0) sample_tools
                  (sample_clock 0) mcp_request "get_nonexistent" None
                  fresh_state).1.1
               = IsError {| success := false;
                            error := "Unknown tool: get_nonexistent";
                            env_code := "INTERNAL_ERROR";
                            env_timestamp := "2024-01-01T00:00:00.000Z" |})
    by (vm_compute; reflexivity).
  split; [exact Hr|]. rewrite Hr. intros [ts Hts]. discriminate Hts.
Qed.

Lemma get_nonexistent_envelope_witness :
  sample_tools !! "get_nonexistent" = None /\
  allowed (checkLimit (constructor 0 0) 0 mcp_request ∅).1 = true /\
  (callTool acceptAll unit notImplemented (constructor 0 0) sample_tools
     (sample_clock 0) mcp_request "get_nonexistent" None fresh_state).1.1
  = IsError {| success := false;
               error := "Unknown tool: get_nonexistent";
               env_code := "INTERNAL_ERROR";
               env_timestamp := "2024-01-01T00:00:00.000Z" |}.
Proof.
  assert (Hnone : sample_tools !! "get_nonexistent" = None) by (vm_compute; reflexivity).
  assert (Hok : allowed (checkLimit (constructor 0 0) (now (sample_clock 0))
                           mcp_request (requests unit fresh_state)).1 = true)
    by (vm_compute; reflexivity).
  split; [exact Hnone|]. split; [exact Hok|].
  exact (get_nonexistent_envelope acceptAll unit notImplemented (constructor 0 0)
           sample_tools (sample_clock 0) mcp_request None fresh_state Hnone Hok).
Defined.

Lemma invalid_input_envelope_witness :
  (callTool rejectSample unit notImplemented (constructor 0 0) sample_tools
     (sample_clock 0) mcp_request "get_featured_projects" (Some sample_args)
     fresh_state).1.1
  = IsError {| success := false;
               error := "Invalid input: category: Expected string, received number, limit: Number must be less than or equal to 20";
               env_code := "INTERNAL_ERROR";
               env_timestamp := "2024-01-01T00:00:00.000Z" |}.
Proof.
  assert (Hok : allowed (checkLimit (constructor 0 0) (now (sample_clock 0))
                           mcp_request (requests unit fresh_state)).1 = true)
    by (vm_compute; reflexivity).
  assert (Htool : sample_tools !! "get_featured_projects" = Some getFeaturedProjects)
    by (vm_compute; reflexivity).
  pose proof (invalid_input_envelope rejectSample unit notImplemented (constructor 0 0)
                sample_tools (sample_clock 0) mcp_request "get_featured_projects"
                (Some sample_args) fresh_state getFeaturedProjects _ sample_issues
                Hok Htool eq_refl eq_refl) as H.
  destruct (callTool _ _ _ _ _ _ _ _ _ _) as [[resp logged] st'].
  exact (proj1 H).
Defined.

End ServerProps.

(** ** Strings *)
Module StringFacts.

Lemma append_cons x (a b : string) : String x a +:+ b = String x (a +:+ b).
Proof. reflexivity. Qed.

Lemma append_nil_l (b : string) : EmptyString +:+ b = b.
Proof. reflexivity. Qed.

Lemma append_assoc (a b c : string) : (a +:+ b) +:+ c = a +:+ (b +:+ c).
Proof.
  induction a as [|x a IH]; [reflexivity|].
  rewrite !append_cons. f_equal. exact IH.
Qed.

Lemma append_nil_r (a : string) : a +:+ EmptyString = a.
Proof.
  induction a as [|x a IH]; [reflexivity|].
  rewrite append_cons. f_equal. exact IH.
Qed.

Lemma prefix_spec (a b : string) :
  String.prefix a b = true <-> exists post, b = a +:+ post.
Proof.
  revert b. induction a as [|x a IH]; intros b.
  - split; [intros _; now exists b|]. intros _. now destruct b.
  - destruct b as [|y b]; cbn [String.prefix].
    + split; [discriminate|]. intros [post H]. discriminate H.
    + destruct (ascii_dec x y) as [->|Hne].
      * rewrite IH. split; intros [post H]; exists post.
        -- rewrite append_cons. now rewrite H.
        -- rewrite append_cons in H. now inversion H.
      * split; [discriminate|]. intros [post H].
        rewrite append_cons in H. inversion H. congruence.
Qed.

(** [contains] decides the substring relation. *)
Lemma contains_spec (a b : string) :
  contains a b = true <-> exists pre post, b = pre +:+ a +:+ post.
Proof.
  induction b as [|y b IH].
  - cbn [contains]. rewrite orb_false_r, prefix_spec. split.
    + intros [post H]. now exists EmptyString, post.
    + intros (pre & post & H). destruct pre; [now exists post|discriminate H].
  - cbn [contains]. rewrite orb_true_iff, prefix_spec, IH. split.
    + intros [[post H]|(pre & post & H)].
      * now exists EmptyString, post.
      * exists (String y pre), post. rewrite append_cons. now rewrite H.
    + intros (pre & post & H). destruct pre as [|x pre].
      * left. now exists post.
      * right. rewrite append_cons in H. inversion H. now exists pre, post.
Qed.

Lemma contains_intro (pre a post : string) : contains a (pre +:+ a +:+ post) = true.
Proof. apply contains_spec. now exists pre, post. Qed.

Lemma contains_trans (a b c : string) :
  contains a b = true -> contains b c = true -> contains a c = true.
Proof.
  rewrite !contains_spec. intros (p1 & q1 & ->) (p2 & q2 & ->).
  exists (p2 +:+ p1), (q1 +:+ q2). now rewrite !append_assoc.
Qed.

Lemma join_cons (sep x y : string) (l : list string) :
  join sep (x :: y :: l) = x +:+ sep +:+ join sep (y :: l).
Proof. reflexivity. Qed.

Lemma contains_app_r (x a b : string) :
  contains x b = true -> contains x (a +:+ b) = true.
Proof.
  rewrite !contains_spec. intros (pre & post & ->).
  exists (a +:+ pre), post. now rewrite append_assoc.
Qed.

Lemma contains_here (x post : string) : contains x (x +:+ post) = true.
Proof. apply (contains_intro EmptyString). Qed.

(** Every element of a joined list is a substring of the result. *)
Lemma contains_join (sep r : string) (rows : list string) :
  In r rows -> contains r (join sep rows) = true.
Proof.
  induction rows as [|x rows IH]; [intros []|].
  intros [->|Hin].
  - destruct rows as [|y rows].
    + apply contains_spec. exists EmptyString, EmptyString.
      cbn [join]. now rewrite append_nil_l, append_nil_r.
    + rewrite join_cons. apply (contains_intro EmptyString).
  - specialize (IH Hin). destruct rows as [|y rows]; [destruct Hin|].
    rewrite join_cons. apply contains_spec in IH as (pre & post & H).
    apply contains_spec. exists (x +:+ sep +:+ pre), post.
    rewrite H. now rewrite !append_assoc.
Qed.

(** [split] and [join] are inverse to each other. *)
Lemma split_nonempty c s : split c s <> [].
Proof.
  destruct s as [|a s]; cbn [split]; [discriminate|].
  destruct (Ascii.eqb a c); [discriminate|]. destruct (split c s); discriminate.
Qed.

Lemma join_split (c : ascii) (s : string) :
  join (String c EmptyString) (split c s) = s.
Proof.
  induction s as [|a s IH]; [reflexivity|]. cbn [split].
  pose proof (split_nonempty c s) as Hn.
  destruct (Ascii.eqb_spec a c) as [->|Hne].
  - destruct (split c s) as [|p ps]; [contradiction|].
    rewrite join_cons, IH. reflexivity.
  - destruct (split c s) as [|p ps]; [contradiction|].
    destruct ps as [|q ps].
    + cbn [join] in *. now rewrite IH.
    + rewrite join_cons in *. rewrite append_cons. now rewrite IH.
Qed.

Lemma split_part (c : ascii) (p rest : string) :
  split c p = [p] ->
  split c (p +:+ String c rest) = p :: split c rest.
Proof.
  induction p as [|a p IH]; intros Hp.
  - change (EmptyString +:+ String c rest) with (String c rest).
    cbn [split]. now rewrite Ascii.eqb_refl.
  - rewrite append_cons. cbn [split] in *.
    destruct (Ascii.eqb a c); [discriminate|].
    pose proof (split_nonempty c p) as Hn.
    destruct (split c p) as [|q qs] eqn:Hq; [contradiction|].
    injection Hp as -> ->. now rewrite IH.
Qed.

End StringFacts.

(** ** Analytics tracker *)
Module AnalyticsProps.
Import AnalyticsTools StringFacts.

Lemma truthy_Some (s : string) : s <> EmptyString -> truthy (Some s) = true.
Proof.
  intros Hne. unfold truthy. destruct (String.eqb_spec s EmptyString); [contradiction|reflexivity].
Qed.

Lemma trackEvent_ip hostname uuid now args st s :
  arg_ip args = Some s -> s <> EmptyString ->
  lastStoredIp (trackEvent hostname uuid now args st).2 = Some (Some (anonymizeIP s)).
Proof.
  intros Hip Hne. unfold lastStoredIp, trackEvent. cbn [snd analyticsEvents].
  rewrite last_snoc. cbn [fmap option_fmap option_map ip].
  rewrite Hip, truthy_Some by exact Hne. reflexivity.
Qed.

(** An absent or empty address is stored as [undefined]. *)
Lemma trackEvent_no_ip hostname uuid now args st :
  truthy (arg_ip args) = false ->
  lastStoredIp (trackEvent hostname uuid now args st).2 = Some None.
Proof.
  intros Hip. unfold lastStoredIp, trackEvent. cbn [snd analyticsEvents].
  rewrite last_snoc. cbn [fmap option_fmap option_map ip]. now rewrite Hip.
Qed.

Lemma anonymizeIP_four (s p0 p1 p2 p3 : string) :
  split "." s = [p0; p1; p2; p3] ->
  anonymizeIP s = join "." [p0; p1; p2; "0"].
Proof. intros H. unfold anonymizeIP. rewrite H. reflexivity. Qed.

Lemma anonymizeIP_other (s : string) :
  length (split "." s) <> 4%nat ->
  anonymizeIP s = substring0 (String.length s / 2) s +:+ "xxxx".
Proof.
  intros H. unfold anonymizeIP.
  destruct (split "." s) as [|p0 [|p1 [|p2 [|p3 [|p4 ps]]]]]; try reflexivity.
  now contradiction H.
Qed.

(** C7 (amended). The address stored by [track_event] for a non-empty
    [ip] argument: when the string splits at its dots into exactly four
    parts, as every IPv4 address does, the stored value is the first three
    parts unchanged followed by [.0]; in every other case it is the first
    half of the string (rounded down) followed by [xxxx]. *)
Theorem stored_address_anonymized hostname uuid now args st (s : string) :
  arg_ip args = Some s -> s <> EmptyString ->
  let stored := lastStoredIp (trackEvent hostname uuid now args st).2 in
  (forall p0 p1 p2 p3, split "." s = [p0; p1; p2; p3] ->
     s = join "." [p0; p1; p2; p3] /\
     stored = Some (Some (join "." [p0; p1; p2; "0"]))) /\
  (isIPv4 s = true -> exists p0 p1 p2 p3, split "." s = [p0; p1; p2; p3]) /\
  (length (split "." s) <> 4%nat ->
     stored = Some (Some (substring0 (String.length s / 2) s +:+ "xxxx"))).
Proof.
  intros Hip Hne stored. subst stored. rewrite (trackEvent_ip _ _ _ _ _ s Hip Hne).
  split; [|split].
  - intros p0 p1 p2 p3 Hs. split.
    + rewrite <- Hs. symmetry. apply (join_split "."%char).
    + now rewrite (anonymizeIP_four s p0 p1 p2 p3 Hs).
  - unfold isIPv4.
    destruct (split "." s) as [|p0 [|p1 [|p2 [|p3 [|p4 ps]]]]]; try discriminate.
    intros _. now exists p0, p1, p2, p3.
  - intros Hlen. now rewrite anonymizeIP_other.
Qed.

Section Sorting.
Context {A : Type} (key : A -> Z).

Let ge_key (a b : A) : Prop := key b <= key a.

Lemma insertDesc_Forall (P : A -> Prop) x l :
  P x -> Forall P l -> Forall P (insertDesc key x l).
Proof.
  intros Hx Hl. induction Hl as [|y l Hy Hl IH]; cbn [insertDesc].
  - now constructor.
  - destruct (key y <=? key x); repeat constructor; assumption.
Qed.

Lemma insertDesc_sorted x l :
  StronglySorted ge_key l -> StronglySorted ge_key (insertDesc key x l).
Proof.
  induction 1 as [|y l Hl IH Hy]; cbn [insertDesc].
  - repeat constructor.
  - destruct (Z.leb_spec (key y) (key x)) as [Hle|Hgt].
    + constructor; [now constructor|]. constructor; [exact Hle|].
      eapply Forall_impl; [exact Hy|]. intros z Hz. unfold ge_key in *. lia.
    + constructor; [exact IH|]. apply insertDesc_Forall; [|exact Hy].
      unfold ge_key. lia.
Qed.

Lemma sortDesc_sorted l : StronglySorted ge_key (sortDesc key l).
Proof.
  induction l as [|x l IH]; [constructor|]. apply insertDesc_sorted, IH.
Qed.

Lemma insertDesc_perm x l : insertDesc key x l ≡ₚ x :: l.
Proof.
  induction l as [|y l IH]; cbn [insertDesc]; [reflexivity|].
  destruct (key y <=? key x); [reflexivity|]. rewrite IH. apply Permutation_swap.
Qed.

Lemma sortDesc_perm l : sortDesc key l ≡ₚ l.
Proof.
  induction l as [|x l IH]; [reflexivity|].
  cbn [sortDesc foldr]. fold (sortDesc key l). now rewrite insertDesc_perm, IH.
Qed.

(** Stability: for each key value, the elements that carry it come out in
    the order they went in. *)
Lemma insertDesc_stable (c : Z) x l :
  filter (fun y => key y = c) (insertDesc key x l) =
  filter (fun y => key y = c) (x :: l).
Proof.
  induction l as [|y l IH]; cbn [insertDesc]; [reflexivity|].
  destruct (Z.leb_spec (key y) (key x)) as [Hle|Hgt]; [reflexivity|].
  rewrite filter_cons, IH, !filter_cons.
  destruct (decide (key y = c)), (decide (key x = c)); try reflexivity. lia.
Qed.

Lemma sortDesc_stable (c : Z) l :
  filter (fun y => key y = c) (sortDesc key l) = filter (fun y => key y = c) l.
Proof.
  induction l as [|x l IH]; [reflexivity|].
  cbn [sortDesc foldr]. fold (sortDesc key l).
  rewrite insertDesc_stable, !filter_cons, IH. reflexivity.
Qed.

Lemma take_sorted n l : StronglySorted ge_key l -> StronglySorted ge_key (take n l).
Proof.
  intros H. revert n. induction H as [|x l Hl IH Hx]; intros [|n]; cbn [take];
    try constructor; [apply IH|].
  apply Forall_take, Hx.
Qed.

Lemma slice0_sorted k l : StronglySorted ge_key l -> StronglySorted ge_key (slice0 k l).
Proof. intros H. unfold slice0. destruct (k <? 0); now apply take_sorted. Qed.

End Sorting.

Lemma stored_address_anonymized_witness :
  lastStoredIp (trackEvent noHostname "id-1" 1000 (ipArgs "192.168.1.77") emptyStore).2
    = Some (Some "192.168.1.0") /\
  lastStoredIp (trackEvent noHostname "id-2" 1000 (ipArgs "2001:db8::1") emptyStore).2
    = Some (Some "2001:xxxx").
Proof.
  split.
  - assert (Hne : "192.168.1.77" <> EmptyString) by discriminate.
    exact (proj2 (proj1 (stored_address_anonymized noHostname "id-1" 1000
                           (ipArgs "192.168.1.77") emptyStore "192.168.1.77"
                           eq_refl Hne)
                    "192" "168" "1" "77" eq_refl)).
  - assert (Hne : "2001:db8::1" <> EmptyString) by discriminate.
    assert (Hlen : length (split "." "2001:db8::1") <> 4%nat) by (vm_compute; discriminate).
    exact (proj2 (proj2 (stored_address_anonymized noHostname "id-2" 1000
                           (ipArgs "2001:db8::1") emptyStore "2001:db8::1"
                           eq_refl Hne)) Hlen).
Defined.

(** C7, as stated, fails: an IPv4-mapped IPv6 address is not an IPv4
    address, yet it has four dot-separated parts and is stored with its
    last part replaced, not as its first half and the marker. *)
Lemma non_ipv4_counterexample :
  let s := "::ffff:192.168.1.77" in
  isIPv4 s = false /\
  lastStoredIp (trackEvent noHostname "id-1" 1000 (ipArgs s) emptyStore).2
    = Some (Some "::ffff:192.168.1.0") /\
  lastStoredIp (trackEvent noHostname "id-1" 1000 (ipArgs s) emptyStore).2
    <> Some (Some (substring0 (String.length s / 2) s +:+ "xxxx")).
Proof.
  cbv zeta. split; [vm_compute; reflexivity|].
  assert (H : lastStoredIp (trackEvent noHostname "id-1" 1000
                              (ipArgs "::ffff:192.168.1.77") emptyStore).2
              = Some (Some "::ffff:192.168.1.0")) by (vm_compute; reflexivity).
  split; [exact H|]. rewrite H. vm_compute. discriminate.
Qed.

(** *** The counting object *)

Lemma num_or_zero x : num_or x 0 = x.
Proof. unfold num_or. destruct (Z.eqb_spec x 0); congruence. Qed.

Lemma getCounter_setCounter k k' v o :
  getCounter k (setCounter k' v o) = if String.eqb k' k then Some v else getCounter k o.
Proof.
  induction o as [|[k'' v''] o IH]; cbn [setCounter getCounter].
  - reflexivity.
  - destruct (String.eqb_spec k'' k') as [->|Hne]; cbn [getCounter].
    + destruct (String.eqb_spec k' k); reflexivity.
    + rewrite IH. destruct (String.eqb_spec k'' k) as [->|]; [|reflexivity].
      destruct (String.eqb_spec k' k); [congruence|reflexivity].
Qed.

Lemma keys_setCounter x k v o :
  In x (map fst (setCounter k v o)) -> x = k \/ In x (map fst o).
Proof.
  induction o as [|[k'' v''] o IH]; cbn [setCounter map fst In].
  - intros [<-|[]]. now left.
  - destruct (String.eqb_spec k'' k) as [->|Hne]; cbn [map fst In].
    + tauto.
    + intros [<-|Hin]; [tauto|]. destruct (IH Hin); tauto.
Qed.

Lemma NoDup_setCounter k v o :
  List.NoDup (map fst o) -> List.NoDup (map fst (setCounter k v o)).
Proof.
  induction o as [|[k'' v''] o IH]; cbn [setCounter map fst]; intros Hnd.
  - repeat constructor. intros [].
  - inversion Hnd as [|? ? Hnotin Hnd']; subst.
    destruct (String.eqb_spec k'' k) as [->|Hne]; cbn [map fst].
    + now constructor.
    + constructor; [|now apply IH].
      intros Hin. destruct (keys_setCounter _ _ _ _ Hin); congruence.
Qed.

Lemma NoDup_countInteractions evs : List.NoDup (map fst (countInteractions evs)).
Proof.
  unfold countInteractions.
  assert (H : forall acc, List.NoDup (map fst acc) ->
                List.NoDup (map fst (fold_left countStep evs acc))).
  { induction evs as [|e evs IH]; intros acc Hacc; [exact Hacc|].
    cbn [fold_left]. apply IH. unfold countStep.
    destruct (truthy (resourceId e)); [|exact Hacc].
    now apply NoDup_setCounter. }
  apply H. constructor.
Qed.

Lemma getCounter_In k v o :
  List.NoDup (map fst o) -> In (k, v) o -> getCounter k o = Some v.
Proof.
  induction o as [|[k'' v''] o IH]; [intros _ []|].
  cbn [map fst getCounter]. intros Hnd Hin.
  inversion Hnd as [|? ? Hnotin Hnd']; subst.
  destruct Hin as [Heq|Hin].
  - inversion Heq; subst. now rewrite String.eqb_refl.
  - destruct (String.eqb_spec k'' k) as [->|Hne]; [|now apply IH].
    exfalso. apply Hnotin. apply in_map_iff. now exists (k, v).
Qed.

(** Each counter holds the number of events that carry its key. *)
Lemma countInteractions_count rid evs :
  default 0 (getCounter rid (countInteractions evs)) = occurrences rid evs.
Proof.
  unfold countInteractions.
  assert (H : forall acc,
            default 0 (getCounter rid (fold_left countStep evs acc))
            = default 0 (getCounter rid acc) + occurrences rid evs).
  { induction evs as [|e evs IH]; intros acc.
    - unfold occurrences. cbn. lia.
    - cbn [fold_left]. rewrite IH. unfold occurrences. cbn [List.filter].
      unfold countStep, increment.
      destruct (truthy (resourceId e)); cbn [andb].
      + rewrite getCounter_setCounter, num_or_zero.
        destruct (String.eqb_spec (default EmptyString (resourceId e)) rid) as [->|].
        * destruct (getCounter rid acc); cbn [from_option length];
            cbv [Datatypes.id]; lia.
        * reflexivity.
      + reflexivity. }
  rewrite H. cbn [getCounter from_option id]. lia.
Qed.

Lemma Object_entries_perm o : Object_entries o ≡ₚ o.
Proof.
  unfold Object_entries, sortAsc.
  rewrite reverse_Permutation, (sortDesc_perm _), reverse_Permutation.
  apply filter_app_complement.
Qed.

(** Without array-index keys the entries come in creation order. *)
Lemma Object_entries_plain o :
  Forall (fun e => arrayIndex e.1 = None) o -> Object_entries o = o.
Proof.
  intros H. unfold Object_entries.
  assert (H1 : filter (fun e : string * Z => is_Some (arrayIndex e.1)) o = []).
  { induction H as [|e o He _ IH]; [reflexivity|].
    rewrite filter_cons_False; [exact IH|]. cbn beta. rewrite He.
    intros [? ?]. discriminate. }
  assert (H2 : filter (fun e : string * Z => ~ is_Some (arrayIndex e.1)) o = o).
  { clear H1. induction H as [|e o He _ IH]; [reflexivity|].
    rewrite filter_cons_True; [f_equal; exact IH|]. cbn beta. rewrite He.
    intros [? ?]. discriminate. }
  rewrite H1, H2. reflexivity.
Qed.

Lemma In_slice0 {A} (x : A) k l : In x (slice0 k l) -> In x l.
Proof.
  unfold slice0. rewrite <- !list_elem_of_In.
  destruct (k <? 0); apply subseteq_take.
Qed.

(** An item's count is the number of filtered events with its id. *)
Lemma ranking_count filteredEvents rid c :
  In (rid, c) (ranking filteredEvents) -> c = occurrences rid filteredEvents.
Proof.
  intros Hin. unfold ranking in Hin.
  apply list_elem_of_In in Hin.
  rewrite (sortDesc_perm snd), Object_entries_perm in Hin.
  apply list_elem_of_In in Hin.
  apply (getCounter_In _ _ _ (NoDup_countInteractions filteredEvents)) in Hin.
  rewrite <- countInteractions_count, Hin. reflexivity.
Qed.

Lemma keys_countInteractions k evs :
  In k (map fst (countInteractions evs)) ->
  exists e, In e evs /\ resourceId e = Some k.
Proof.
  unfold countInteractions.
  assert (H : forall acc, In k (map fst (fold_left countStep evs acc)) ->
                In k (map fst acc) \/ exists e, In e evs /\ resourceId e = Some k).
  { induction evs as [|e evs IH]; intros acc Hin; [now left|].
    cbn [fold_left] in Hin. destruct (IH _ Hin) as [Hacc|(e' & He' & Hk)].
    - unfold countStep in Hacc. destruct (resourceId e) as [r|] eqn:Hr; cbn [truthy] in Hacc.
      + destruct (negb (String.eqb r EmptyString)); [|now left].
        unfold increment in Hacc. apply keys_setCounter in Hacc as [->|Hacc]; [|now left].
        right. exists e. split; [now left|]. now rewrite Hr.
      + now left.
    - right. exists e'. split; [now right|exact Hk]. }
  intros Hin. destruct (H [] Hin) as [[]|He]. exact He.
Qed.

(** *** The enumeration order of the counting object *)

Lemma arrayIndex_show k n : arrayIndex k = Some n -> k = show n.
Proof.
  unfold arrayIndex. destruct k as [|a k]; [discriminate|].
  destruct (parseDigits 0 (String a k)) as [m|]; [|discriminate].
  destruct (String.eqb_spec (show m) (String a k)) as [Heq|]; cbn [andb]; [|discriminate].
  destruct (m <? 2 ^ 32 - 1); [|discriminate]. intros [= <-]. now rewrite Heq.
Qed.

Lemma SS_reverse {A} (R : A -> A -> Prop) l :
  StronglySorted R l -> StronglySorted (fun a b => R b a) (reverse l).
Proof.
  induction 1 as [|x l Hl IH Hx]; [constructor|].
  rewrite reverse_cons. apply StronglySorted_app_2; [|exact IH|repeat constructor].
  intros a b Ha Hb. apply list_elem_of_singleton in Hb. subst b.
  rewrite elem_of_reverse in Ha. rewrite Forall_forall in Hx. now apply Hx.
Qed.

Lemma SS_filter {A} (R : A -> A -> Prop) (P : A -> Prop)
    `{!forall x, Decision (P x)} l :
  StronglySorted R l -> StronglySorted R (filter P l).
Proof.
  induction 1 as [|x l Hl IH Hx]; [constructor|].
  rewrite filter_cons. destruct (decide (P x)); [|exact IH].
  constructor; [exact IH|]. rewrite Forall_forall in *.
  intros b Hb. apply list_elem_of_filter in Hb as [_ Hb]. now apply Hx.
Qed.

Lemma SS_take {A} (R : A -> A -> Prop) n l :
  StronglySorted R l -> StronglySorted R (take n l).
Proof.
  intros H. rewrite <- (take_drop n l) in H. now apply StronglySorted_app_1_l in H.
Qed.

Lemma SS_impl {A} (R R' : A -> A -> Prop) l :
  (forall a b, a ∈ l -> b ∈ l -> R a b -> R' a b) ->
  StronglySorted R l -> StronglySorted R' l.
Proof.
  intros Himp H. induction H as [|x l Hl IH Hx]; [constructor|].
  constructor.
  - apply IH. intros a b Ha Hb. apply Himp; now apply list_elem_of_further.
  - rewrite Forall_forall in *. intros b Hb.
    apply Himp; [apply list_elem_of_here|now apply list_elem_of_further|now apply Hx].
Qed.

Lemma SS_distinct {A} (f : A -> string) (R : A -> A -> Prop) l :
  List.NoDup (map f l) -> StronglySorted R l ->
  StronglySorted (fun a b => R a b /\ f a <> f b) l.
Proof.
  intros Hnd H. induction H as [|x l Hl IH Hx]; [constructor|].
  cbn [map] in Hnd. inversion Hnd as [|? ? Hnotin Hnd']; subst.
  constructor; [now apply IH|].
  rewrite Forall_forall in *. intros b Hb. split; [now apply Hx|].
  intros Heq. apply Hnotin. rewrite Heq. apply in_map. now apply list_elem_of_In.
Qed.

Lemma SS_map_inv {A B} (f : A -> B) (R : B -> B -> Prop) l :
  StronglySorted R (map f l) -> StronglySorted (fun a b => R (f a) (f b)) l.
Proof.
  induction l as [|x l IH]; intros H; [constructor|].
  cbn [map] in H. apply StronglySorted_inv in H as [H Hx].
  constructor; [now apply IH|]. now rewrite Forall_map in Hx.
Qed.

(** A stable descending sort of a list that is in [S]-order gives the
    lexicographic order: larger key first, equal keys in [S]-order. *)
Lemma insertDesc_lex {A} (key : A -> Z) (S : A -> A -> Prop) x l :
  StronglySorted (fun a b => key b < key a \/ (key a = key b /\ S a b)) l ->
  Forall (S x) l ->
  StronglySorted (fun a b => key b < key a \/ (key a = key b /\ S a b))
    (insertDesc key x l).
Proof.
  induction 1 as [|y l Hl IH Hy]; intros HS; cbn [insertDesc].
  - repeat constructor.
  - apply Forall_cons in HS as [HSy HS].
    destruct (Z.leb_spec (key y) (key x)) as [Hle|Hgt].
    + constructor; [now constructor|]. constructor.
      * destruct (Z.eq_dec (key x) (key y)); [right; auto|left; lia].
      * rewrite Forall_forall in *. intros z Hz.
        specialize (Hy z Hz). specialize (HS z Hz).
        destruct (Z.eq_dec (key x) (key z)); [right; auto|left].
        destruct Hy as [Hy|[Hy _]]; lia.
    + constructor; [now apply IH|].
      apply insertDesc_Forall; [left; lia|exact Hy].
Qed.

Lemma sortDesc_lex {A} (key : A -> Z) (S : A -> A -> Prop) l :
  StronglySorted S l ->
  StronglySorted (fun a b => key b < key a \/ (key a = key b /\ S a b))
    (sortDesc key l).
Proof.
  induction 1 as [|x l Hl IH Hx]; [constructor|].
  cbn [sortDesc foldr]. fold (sortDesc key l). apply insertDesc_lex; [exact IH|].
  rewrite Forall_forall in *. intros z Hz. apply Hx.
  now rewrite <- (sortDesc_perm key l).
Qed.

Lemma firstIndex_app_lt rid pre evs :
  (exists e, In e pre /\ resourceId e = Some rid) ->
  (firstIndex rid (pre ++ evs) < length pre)%nat.
Proof.
  induction pre as [|a pre IH]; intros (e & Hin & He); [destruct Hin|].
  cbn [app firstIndex length]. destruct Hin as [->|Hin].
  - rewrite He, String.eqb_refl. lia.
  - destruct (match resourceId a with
              | Some r => String.eqb r rid
              | None => false
              end); [lia|].
    assert (firstIndex rid (pre ++ evs) < length pre)%nat by (apply IH; eauto). lia.
Qed.

Lemma firstIndex_app_here rid pre e evs :
  (forall e', In e' pre -> resourceId e' <> Some rid) ->
  resourceId e = Some rid ->
  firstIndex rid (pre ++ e :: evs) = length pre.
Proof.
  intros Hpre He. induction pre as [|a pre IH]; cbn [app firstIndex length].
  - now rewrite He, String.eqb_refl.
  - destruct (resourceId a) as [r|] eqn:Hr.
    + destruct (String.eqb_spec r rid) as [->|_].
      * exfalso. apply (Hpre a); [now left|exact Hr].
      * rewrite IH; [reflexivity|]. intros e' He'. apply Hpre. now right.
    + rewrite IH; [reflexivity|]. intros e' He'. apply Hpre. now right.
Qed.

Lemma keys_setCounter_eq k v o :
  map fst (setCounter k v o) =
    if existsb (fun k' => String.eqb k' k) (map fst o)
    then map fst o else (map fst o ++ [k])%list.
Proof.
  induction o as [|[k' v'] o IH]; [reflexivity|].
  cbn [setCounter map fst existsb].
  destruct (String.eqb k' k); cbn [orb map fst]; [reflexivity|].
  rewrite IH. now destruct (existsb _ _).
Qed.

(** The keys of the counting object are in order of the first event that
    carries them. *)
Lemma countInteractions_order_gen fe : forall evs pre acc,
  fe = (pre ++ evs)%list ->
  StronglySorted (fun a b => (firstIndex a fe < firstIndex b fe)%nat) (map fst acc) ->
  (forall k, In k (map fst acc) <->
     k <> EmptyString /\ exists e, In e pre /\ resourceId e = Some k) ->
  StronglySorted (fun a b => (firstIndex a fe < firstIndex b fe)%nat)
    (map fst (fold_left countStep evs acc)).
Proof.
  induction evs as [|e evs IH]; intros pre acc Hfe Hs Hk; [exact Hs|].
  cbn [fold_left].
  assert (Hstep :
    map fst (countStep acc e) =
      match resourceId e with
      | Some r =>
          if String.eqb r EmptyString then map fst acc
          else if existsb (fun k' => String.eqb k' r) (map fst acc)
               then map fst acc else (map fst acc ++ [r])%list
      | None => map fst acc
      end).
  { unfold countStep. destruct (resourceId e) as [r|]; cbn [truthy]; [|reflexivity].
    destruct (String.eqb r EmptyString); cbn [negb]; [reflexivity|].
    unfold increment. rewrite keys_setCounter_eq. reflexivity. }
  apply (IH (pre ++ [e])%list).
  - rewrite <- app_assoc. exact Hfe.
  - rewrite Hstep. destruct (resourceId e) as [r|] eqn:Hr; [|exact Hs].
    destruct (String.eqb_spec r EmptyString) as [|Hne]; [exact Hs|].
    destruct (existsb (fun k' => String.eqb k' r) (map fst acc)) eqn:Hex; [exact Hs|].
    apply StronglySorted_app_2; [|exact Hs|repeat constructor].
    intros a b Ha Hb. apply list_elem_of_singleton in Hb. subst b.
    apply list_elem_of_In, Hk in Ha as [_ Ha].
    assert (Hnot : forall e', In e' pre -> resourceId e' <> Some r).
    { intros e' He' Hr'. apply not_true_iff_false in Hex. apply Hex.
      apply existsb_exists. exists r. split; [|apply String.eqb_refl].
      apply Hk. split; [exact Hne|]. now exists e'. }
    rewrite Hfe, (firstIndex_app_here r pre e evs Hnot Hr).
    now apply firstIndex_app_lt.
  - intros k. rewrite Hstep.
    assert (Hpre : (exists e0, In e0 (pre ++ [e])%list /\ resourceId e0 = Some k) <->
                   (exists e0, In e0 pre /\ resourceId e0 = Some k) \/ resourceId e = Some k).
    { split.
      - intros (e0 & Hin & He0). apply in_app_or in Hin as [Hin|[<-|[]]]; eauto.
      - intros [(e0 & Hin & He0)|He0].
        + exists e0. split; [apply in_or_app; now left|exact He0].
        + exists e. split; [apply in_or_app; right; now left|exact He0]. }
    rewrite Hpre. destruct (resourceId e) as [r|] eqn:Hr.
    + destruct (String.eqb_spec r EmptyString) as [->|Hne].
      * rewrite Hk. split; [intros [? ?]; auto|].
        intros [Hkne [H|[= <-]]]; [auto|contradiction].
      * destruct (existsb (fun k' => String.eqb k' r) (map fst acc)) eqn:Hex.
        -- apply existsb_exists in Hex as (k' & Hin & Heq).
           apply String.eqb_eq in Heq. subst k'.
           rewrite Hk. split; [intros [? ?]; auto|].
           intros [Hkne [H|[= <-]]]; [auto|]. now apply Hk.
        -- rewrite in_app_iff, Hk. cbn [In]. split.
           ++ intros [[? ?]|[<-|[]]]; auto.
           ++ intros [Hkne [H|[= <-]]]; auto.
    + rewrite Hk. split; [intros [? ?]; auto|].
      intros [Hkne [H|H]]; [auto|discriminate].
Qed.

Lemma countInteractions_order fe :
  StronglySorted (fun a b : string * Z => (firstIndex a.1 fe < firstIndex b.1 fe)%nat)
    (countInteractions fe).
Proof.
  apply (SS_map_inv fst (fun a b => (firstIndex a fe < firstIndex b fe)%nat)).
  unfold countInteractions.
  apply (countInteractions_order_gen fe fe [] []); [reflexivity|constructor|].
  intros k. cbn. split; [intros []|intros [_ (e & [] & _)]].
Qed.

Lemma NoDup_keys_filter (P : string * Z -> Prop) `{!forall x, Decision (P x)}
    (o : counters) :
  List.NoDup (map fst o) -> List.NoDup (map fst (filter P o)).
Proof.
  induction o as [|x o IH]; intros Hnd; [constructor|].
  cbn [map] in Hnd. inversion Hnd as [|? ? Hnotin Hnd']; subst.
  rewrite filter_cons. destruct (decide (P x)); [|now apply IH].
  cbn [map]. constructor; [|now apply IH].
  intros Hin. apply Hnotin. apply in_map_iff in Hin as (y & Hy & Hin).
  apply in_map_iff. exists y. split; [exact Hy|].
  apply list_elem_of_In in Hin. apply list_elem_of_filter in Hin as [_ Hin].
  now apply list_elem_of_In.
Qed.

(** [Object.entries] lists the keys of the counting object in the
    enumeration order. *)
Lemma Object_entries_enumerated fe (o : counters) :
  List.NoDup (map fst o) ->
  StronglySorted (fun a b : string * Z => (firstIndex a.1 fe < firstIndex b.1 fe)%nat) o ->
  StronglySorted (fun a b : string * Z => enumeratedBefore fe a.1 b.1) (Object_entries o).
Proof.
  intros Hnd Hs. unfold Object_entries, sortAsc.
  set (idx := filter (fun e : string * Z => is_Some (arrayIndex e.1)) o).
  set (key := fun e : string * Z => default 0 (arrayIndex e.1)).
  assert (Hperm : reverse (sortDesc key (reverse idx)) ≡ₚ idx)
    by (now rewrite reverse_Permutation, (sortDesc_perm key), reverse_Permutation).
  assert (Hidx : forall x, x ∈ reverse (sortDesc key (reverse idx)) ->
                           is_Some (arrayIndex x.1)).
  { intros x Hx. rewrite Hperm in Hx. unfold idx in Hx.
    now apply list_elem_of_filter in Hx as [Hx _]. }
  apply StronglySorted_app_2.
  - intros x1 x2 H1 H2. apply Hidx in H1 as [m Hm].
    apply list_elem_of_filter in H2 as [H2 _].
    unfold enumeratedBefore. rewrite Hm.
    destruct (arrayIndex x2.1) eqn:H2'; [|exact I].
    exfalso. apply H2. eauto.
  - assert (Hsorted : StronglySorted (fun a b => key a <= key b)
                        (reverse (sortDesc key (reverse idx)))).
    { apply (SS_reverse (fun a b => key b <= key a)). apply (sortDesc_sorted key). }
    apply (SS_distinct fst) in Hsorted.
    2:{ eapply Permutation_NoDup; [apply Permutation_map; symmetry; exact Hperm|].
        now apply NoDup_keys_filter. }
    eapply SS_impl; [|exact Hsorted].
    intros a b Ha Hb [Hle Hne]. cbn beta in Hle, Hne.
    apply Hidx in Ha as [m Hm]. apply Hidx in Hb as [n Hn].
    unfold enumeratedBefore. rewrite Hm, Hn.
    unfold key in Hle. rewrite Hm, Hn in Hle. cbn in Hle. unfold Datatypes.id in Hle.
    destruct (Z.eq_dec m n) as [->|]; [|lia].
    exfalso. apply Hne.
    now rewrite (arrayIndex_show _ _ Hm), (arrayIndex_show _ _ Hn).
  - eapply SS_impl; [|apply SS_filter; exact Hs].
    intros a b Ha Hb Hlt.
    apply list_elem_of_filter in Ha as [Ha _]. apply list_elem_of_filter in Hb as [Hb _].
    unfold enumeratedBefore.
    destruct (arrayIndex a.1); [exfalso; apply Ha; eauto|].
    destruct (arrayIndex b.1); [exfalso; apply Hb; eauto|]. exact Hlt.
Qed.

(** C8 (amended). For a popular-content query over events none of whose
    resource ids names a property inherited from [Object.prototype], the
    items are in descending order of interaction count, and items with
    equal counts are in the order in which the keys of the counting
    object are enumerated: ids that are array indices first, in ascending
    numeric order, then the other ids in order of their first counted
    event, whatever their last interaction. The count of an item is the
    number of filtered events that carry its id, and no returned id is an
    inherited name. Three views of p1 and one of p2 rank p1 above p2 with
    counts 3 and 1. *)
Theorem popular_content_order now args st :
  let contentType := str_or (arg_contentType args) "projects" in
  let timeRange := str_or (arg_timeRange args) "month" in
  let filteredEvents := filterEvents now contentType timeRange (analyticsEvents st) in
  let items := popularItems (getPopularContent now args st) in
  (forall e rid, In e filteredEvents -> resourceId e = Some rid ->
                 inherited rid = false) ->
  StronglySorted (fun a b => interactions b <= interactions a) items /\
  StronglySorted (rankedAhead filteredEvents) items /\
  (forall item, In item items ->
     interactions item = occurrences (item_resourceId item) filteredEvents /\
     inherited (item_resourceId item) = false) /\
  map idCount
    (popularItems
       (getPopularContent 5000 popularAll
          (trackViews [("p1", 1000); ("p1", 2000); ("p1", 3000); ("p2", 4000)]
             emptyStore)))
  = [("p1", 3); ("p2", 1)].
Proof.
  intros contentType timeRange filteredEvents items Hown.
  set (limit := num_or (default 0 (arg_limit args)) 10).
  set (mk := fun '(rid, count) =>
               {| item_resourceId := rid; interactions := count;
                  lastInteraction := lastInteractionOf filteredEvents rid |}).
  assert (Hitems : items = map mk (slice0 limit (ranking filteredEvents)))
    by reflexivity.
  assert (Hrank : StronglySorted (rankedAhead filteredEvents) items).
  { rewrite Hitems.
    apply (StronglySorted_fmap mk
             (fun a b : string * Z =>
                b.2 < a.2 \/ (a.2 = b.2 /\ enumeratedBefore filteredEvents a.1 b.1))).
    { intros [ra ca] [rb cb] H. exact H. }
    unfold slice0. destruct (limit <? 0); apply SS_take;
      apply (sortDesc_lex snd), Object_entries_enumerated;
      auto using NoDup_countInteractions, countInteractions_order. }
  split; [|split; [exact Hrank|split]].
  - eapply SS_impl; [|exact Hrank].
    intros a b _ _ [Hlt|[Heq _]]; lia.
  - intros item Hin. rewrite Hitems in Hin.
    apply in_map_iff in Hin as ([rid c] & <- & Hin). cbn [mk interactions item_resourceId].
    apply In_slice0 in Hin. split; [now apply ranking_count|].
    unfold ranking in Hin. apply list_elem_of_In in Hin.
    rewrite (sortDesc_perm snd), Object_entries_perm in Hin.
    apply list_elem_of_In in Hin.
    assert (Hk : In rid (map fst (countInteractions filteredEvents)))
      by (apply in_map_iff; now exists (rid, c)).
    apply keys_countInteractions in Hk as (e & He & Hr). exact (Hown e rid He Hr).
  - vm_compute. reflexivity.
Qed.

Lemma popular_content_order_witness :
  let st := trackViews [("p1", 1000); ("p1", 2000); ("p1", 3000); ("p2", 4000)]
              emptyStore in
  let item := {| item_resourceId := "p1"; interactions := 3;
                 lastInteraction := Some 3000 |} in
  In item (popularItems (getPopularContent 5000 popularAll st)) /\
  occurrences "p1" (filterEvents 5000 "projects" "all" (analyticsEvents st)) = 3.
Proof.
  cbv zeta.
  assert (Hin : In {| item_resourceId := "p1"; interactions := 3;
                      lastInteraction := Some 3000 |}
                  (popularItems
                     (getPopularContent 5000 popularAll
                        (trackViews [("p1", 1000); ("p1", 2000); ("p1", 3000);
                                     ("p2", 4000)] emptyStore))))
    by (vm_compute; left; reflexivity).
  split; [exact Hin|].
  pose proof (popular_content_order 5000 popularAll
                (trackViews [("p1", 1000); ("p1", 2000); ("p1", 3000); ("p2", 4000)]
                   emptyStore)) as H.
  cbv zeta in H.
  assert (Hown : forall e rid,
            In e (filterEvents 5000 (str_or (arg_contentType popularAll) "projects")
                    (str_or (arg_timeRange popularAll) "month")
                    (analyticsEvents
                       (trackViews [("p1", 1000); ("p1", 2000); ("p1", 3000);
                                    ("p2", 4000)] emptyStore))) ->
            resourceId e = Some rid -> inherited rid = false).
  { intros e rid He Hr. vm_compute in He.
    destruct He as [<-|[<-|[<-|[<-|[]]]]]; injection Hr as <-; reflexivity. }
  destruct (H Hown) as (_ & _ & Hcount & _).
  symmetry. exact (proj1 (Hcount _ Hin)).
Defined.

(** C8, as stated, fails: p1 and p2 have one interaction each, p2 the more
    recent one, and p1 is ranked first. *)
Lemma tie_order_counterexample :
  let items :=
    popularItems
      (getPopularContent 5000 popularAll
         (trackViews [("p1", 1000); ("p2", 2000)] emptyStore)) in
  items = [ {| item_resourceId := "p1"; interactions := 1;
               lastInteraction := Some 1000 |};
            {| item_resourceId := "p2"; interactions := 1;
               lastInteraction := Some 2000 |} ] /\
  orderedBy rankedBefore items = false.
Proof. cbv zeta. split; vm_compute; reflexivity. Qed.

End AnalyticsProps.

(** ** Export formatter *)
Module ExportProps.
Import ExportTools ExportProjectsTools ExportFormats StringFacts.

Section Frame.
Variable JSON_stringify : Portfolio -> ContactInfo -> Z -> string.
Variable generateMarkdownExport : Portfolio -> ContactInfo -> string.

Let export := exportPortfolio JSON_stringify generateMarkdownExport.

(** The heap after [export_portfolio]. *)
Lemma exportPortfolio_heap portfolioData args h :
  (export portfolioData args h).2 =
    if negb (arg_includePrivate args) && truthy (phone (h !!! contact portfolioData))
    then deletePhone (contact portfolioData) h else h.
Proof.
  unfold export, exportPortfolio. cbn [spread contact].
  destruct (arg_includePrivate args); cbn [negb andb];
    [|destruct (truthy (phone (h !!! contact portfolioData)))];
    repeat match goal with |- context [if ?b then _ else _] => destruct b end;
    reflexivity.
Qed.

(** With private data included, or no phone number on the contact object,
    the export writes nothing. *)
Lemma exportPortfolio_frame portfolioData args h :
  arg_includePrivate args = true \/ truthy (phone (h !!! contact portfolioData)) = false ->
  (export portfolioData args h).2 = h.
Proof.
  intros H. rewrite exportPortfolio_heap.
  destruct H as [-> | ->]; [reflexivity|]. now rewrite andb_false_r.
Qed.

(** C9. [export_portfolio] called with its default arguments on a dataset
    whose contact object has a phone number: the copy it edits is shallow,
    so the deletion of the phone number lands in the dataset's own contact
    object. *)
Theorem export_portfolio_deletes_phone :
  let h : heap := {[ 0%nat := contactWithPhone ]} in
  let h' := (export (samplePortfolio []) defaultArgs h).2 in
  phone <$> h !! 0%nat = Some (Some "+1-555-0100") /\
  phone <$> h' !! 0%nat = Some None /\
  h' <> h.
Proof.
  cbv zeta. rewrite exportPortfolio_heap.
  assert (Hh : deletePhone 0%nat {[ 0%nat := contactWithPhone ]}
               = ({[ 0%nat := contactInfo ]} : heap)).
  { unfold deletePhone. now rewrite alter_singleton_eq. }
  cbn [negb andb defaultArgs arg_includePrivate samplePortfolio contact].
  rewrite lookup_total_singleton_eq. cbn [phone contactWithPhone truthy String.eqb negb].
  rewrite Hh, !lookup_singleton_eq. cbn.
  split; [reflexivity|]. split; [reflexivity|].
  intros Heq. apply (f_equal (fun m : heap => m !! 0%nat)) in Heq.
  rewrite !lookup_singleton_eq in Heq. discriminate Heq.
Qed.

End Frame.

(** A substring, given the text before and after it. *)
Ltac substring_at pre post :=
  apply contains_spec; exists pre, post; rewrite ?append_assoc; reflexivity.

Lemma csv_skill_row (data : Portfolio) (skill : Skill) :
  In skill (skills data) -> contains (skillRow skill) (generateCSVExport data) = true.
Proof.
  intros Hin. unfold generateCSVExport. apply contains_join.
  apply in_or_app. left. apply in_or_app. right. now apply in_map.
Qed.

Lemma csv_project_row (data : Portfolio) (project : Project) :
  In project (projects data) ->
  contains (projectRow project) (generateCSVExport data) = true.
Proof.
  intros Hin. unfold generateCSVExport. apply contains_join.
  apply in_or_app. right. now apply in_map.
Qed.

(** Walk down a right-nested concatenation to the part that starts with
    the wanted text. *)
Ltac walk_to :=
  first [ apply contains_here | apply contains_app_r; walk_to ].

(** The same for an indented [<tag>value</tag>] line of an element. *)
Ltac walk_to_line :=
  first [ lazymatch goal with
          | |- contains (_ +:+ ?v +:+ _) (_ +:+ ?v +:+ _ +:+ ?rest) = true =>
              substring_at "      " rest
          end
        | apply contains_app_r; walk_to_line ].

Lemma xml_skill_element (data : Portfolio) (skill : Skill) :
  In skill (skills data) ->
  contains (skillElement skill) (generateXMLExport data) = true.
Proof.
  intros Hin.
  apply (contains_trans _ (join EmptyString (map skillElement (skills data)))).
  - apply contains_join. now apply in_map.
  - unfold generateXMLExport. walk_to.
Qed.

Lemma xml_project_element (data : Portfolio) (project : Project) :
  In project (projects data) ->
  contains (projectElement project) (generateXMLExport data) = true.
Proof.
  intros Hin.
  apply (contains_trans _ (join EmptyString (map projectElement (projects data)))).
  - apply contains_join. now apply in_map.
  - unfold generateXMLExport. walk_to.
Qed.

(** *** Lines *)

Lemma noLineFeed_app (a b : string) :
  noLineFeed (a +:+ b) = noLineFeed a && noLineFeed b.
Proof.
  induction a as [|x a IH]; [reflexivity|].
  rewrite append_cons. cbn [noLineFeed]. rewrite IH. now rewrite andb_assoc.
Qed.

Lemma noLineFeed_quoted (s : string) : noLineFeed (quoted s) = noLineFeed s.
Proof.
  unfold quoted. rewrite !noLineFeed_app. cbn. now rewrite andb_true_r.
Qed.

Lemma noLineFeed_join (sep : string) (l : list string) :
  noLineFeed sep = true -> forallb noLineFeed l = true ->
  noLineFeed (join sep l) = true.
Proof.
  intros Hsep. induction l as [|x l IH]; [reflexivity|].
  cbn [forallb]. intros [Hx Hl]%andb_prop. destruct l as [|y l]; [exact Hx|].
  rewrite join_cons, !noLineFeed_app, Hx, Hsep. now apply IH.
Qed.

Lemma pretty_N_go_noLineFeed (x : N) : forall s,
  noLineFeed s = true -> noLineFeed (pretty_N_go x s) = true.
Proof.
  induction (N.lt_wf_0 x) as [x _ IH]; intros s Hs.
  destruct (N.eq_dec x 0%N) as [->|Hx]; [now rewrite pretty_N_go_0|].
  rewrite pretty_N_go_step by lia. apply IH.
  - apply N.div_lt; lia.
  - cbn [noLineFeed]. rewrite Hs.
    unfold pretty_N_char. now repeat case_match.
Qed.

Lemma show_noLineFeed (n : Z) : noLineFeed (show n) = true.
Proof.
  unfold show, pretty, pretty_Z.
  assert (Hp : forall p : positive, noLineFeed (pretty p) = true).
  { intros p. unfold pretty, pretty_positive, pretty, pretty_N.
    destruct (decide (N.pos p = 0%N)); [reflexivity|].
    now apply pretty_N_go_noLineFeed. }
  destruct n as [|p|p]; [reflexivity|apply Hp|].
  rewrite noLineFeed_app. now rewrite Hp.
Qed.

Lemma noLineFeed_split (s : string) :
  noLineFeed s = true -> split "010" s = [s].
Proof.
  induction s as [|a s IH]; [reflexivity|].
  cbn [noLineFeed split]. intros [Ha Hs]%andb_prop.
  apply negb_true_iff in Ha. rewrite Ha, (IH Hs). reflexivity.
Qed.

(** A text made of rows without line feeds splits into these rows. *)
Lemma split_join_rows (row : string) (rows : list string) :
  forallb noLineFeed (row :: rows) = true ->
  split "010" (join nl (row :: rows)) = row :: rows.
Proof.
  revert row. induction rows as [|r rows IH]; intros row; cbn [forallb];
    intros [Hrow Hrows]%andb_prop.
  - now apply noLineFeed_split.
  - rewrite join_cons.
    change (row +:+ nl +:+ join nl (r :: rows))
      with (row +:+ String "010" (join nl (r :: rows))).
    rewrite split_part by now apply noLineFeed_split.
    now rewrite IH.
Qed.

Lemma forallb_map_rows {A} (row : A -> string) (ok : A -> bool) (l : list A) :
  (forall x, ok x = true -> noLineFeed (row x) = true) ->
  forallb ok l = true -> forallb noLineFeed (map row l) = true.
Proof.
  intros Hrow. induction l as [|x l IH]; [reflexivity|].
  cbn [forallb map]. intros [Hx Hl]%andb_prop. now rewrite Hrow, IH.
Qed.

(** A loop that appends one section per entity. *)
Lemma fold_left_append {A} (section : A -> string) (l : list A) (init : string) :
  fold_left (fun text x => text +:+ section x) l init
  = init +:+ join EmptyString (map section l).
Proof.
  revert init. induction l as [|x l IH]; intros init; cbn [fold_left map].
  - cbn [join]. now rewrite append_nil_r.
  - rewrite IH, append_assoc. f_equal.
    destruct l as [|y l]; [cbn [map join]; now rewrite append_nil_r|].
    cbn [map]. now rewrite join_cons.
Qed.

(** Walk down a right-nested concatenation to a label and its value. *)
Ltac walk_to_field :=
  first [ apply contains_here
        | lazymatch goal with
          | |- contains (?l +:+ ?v) (?l +:+ ?v +:+ ?rest) = true =>
              substring_at EmptyString rest
          | |- contains (?l +:+ ?v +:+ ?c) (?l +:+ ?v +:+ ?c +:+ ?rest) = true =>
              substring_at EmptyString rest
          end
        | apply contains_app_r; walk_to_field ].

Section Formats.
Variable Number : Type.
Variable Number_toString : Number -> string.
Variable Number_add : Number -> Number -> Number.
Variable Number_zero : Number.

Let skillsCSV := generateSkillsCSV Number Number_toString.
Let skillsRow := skillsCsvRow Number Number_toString.
Let skillsMarkdown := generateSkillsMarkdown Number Number_toString Number_add Number_zero.
Let skillsSection := skillsMarkdownSection Number Number_toString.
Let statistics := statisticsSection Number Number_toString Number_add Number_zero.

Lemma skillsMarkdown_closed (skills : list (SkillDetails Number)) (includeStats : bool) :
  skillsMarkdown skills includeStats
  = "# Skills Export" +:+ nl +:+ nl +:+
    (if includeStats then statistics skills else EmptyString) +:+
    "## Skills List" +:+ nl +:+ nl +:+
    join EmptyString (map skillsSection skills).
Proof.
  unfold skillsMarkdown, generateSkillsMarkdown. cbv zeta.
  rewrite fold_left_append. fold skillsSection. fold statistics.
  destruct includeStats; now rewrite !append_assoc.
Qed.

Lemma projectsMarkdown_closed (projects : list Project) :
  generateProjectsMarkdown projects
  = "# Projects Export" +:+ nl +:+ nl +:+
    join EmptyString (map projectsMarkdownSection projects).
Proof.
  unfold generateProjectsMarkdown. rewrite fold_left_append.
  now rewrite !append_assoc.
Qed.

(** C10 (amended). The format functions of the exports that build their
    text themselves (the CSV, XML and Markdown generators; the JSON
    formats are the library's [JSON.stringify]) are total. For empty
    collections they give the document with zero entries: the header line
    alone, the document with empty [skills] and [projects] elements, the
    headings alone. Every entity contributes exactly one row, element or
    section, in the order of the collection: a CSV text whose fields hold
    no line feed splits into the header and one row per entity, and the
    XML and Markdown texts are the fixed frame around the entities'
    elements and sections. Every field value a format prints is copied as
    it is: a CSV row is its fields joined by commas, names, titles,
    technologies and descriptions between double quotes, and an XML or
    Markdown value stands between its tags or after its label, no
    character of a value being escaped or dropped. *)
Theorem export_fields_verbatim :
  (* the documents of the empty collections *)
  (forall exportedOn data contact, skills data = [] -> projects data = [] ->
     generateCSVExport data = "Type,Name,Category,Description,Year,Status" /\
     generateXMLExport data = emptyXML data /\
     generateMarkdownExport exportedOn data contact =
       "# " +:+ p_title data +:+ nl +:+ nl +:+
       p_description data +:+ nl +:+ nl +:+
       "## Contact Information" +:+ nl +:+
       "- **Email**: " +:+ email contact +:+ nl +:+
       "- **Location**: " +:+ location contact +:+ nl +:+
       "- **Website**: " +:+ website contact +:+ nl +:+ nl +:+
       "## Skills (0)" +:+ nl +:+ nl +:+ nl +:+
       "## Projects (0)" +:+ nl +:+ nl +:+ nl +:+
       "---" +:+ nl +:+
       "*Exported on " +:+ exportedOn +:+ "*" +:+ nl) /\
  (skillsCSV [] =
     "Name,Category,Level,Proficiency,Experience Years,Projects,Description" /\
   skillsMarkdown [] false =
     "# Skills Export" +:+ nl +:+ nl +:+ "## Skills List" +:+ nl +:+ nl /\
   skillsMarkdown [] true =
     "# Skills Export" +:+ nl +:+ nl +:+
     "## Statistics" +:+ nl +:+
     "- **Total Skills**: 0" +:+ nl +:+
     "- **Average Proficiency**: NaN%" +:+ nl +:+
     "- **Total Experience**: " +:+ Number_toString Number_zero +:+ " years" +:+ nl +:+
     "- **Total Projects**: 0" +:+ nl +:+ nl +:+
     "## Skills List" +:+ nl +:+ nl /\
   generateProjectsCSV [] =
     "Title,Category,Status,Year,Featured,Views,Likes,Technologies,Description" /\
   generateProjectsMarkdown [] = "# Projects Export" +:+ nl +:+ nl) /\
  (* one row per entity *)
  (forall data,
     generateCSVExport data =
       join nl ("Type,Name,Category,Description,Year,Status"
                :: (map skillRow (skills data) ++ map projectRow (projects data))%list)) /\
  (forall skills,
     skillsCSV skills =
       join nl ("Name,Category,Level,Proficiency,Experience Years,Projects,Description"
                :: map skillsRow skills)) /\
  (forall projects,
     generateProjectsCSV projects =
       join nl ("Title,Category,Status,Year,Featured,Views,Likes,Technologies,Description"
                :: map projectsCsvRow projects)) /\
  (forall data,
     forallb (fun skill =>
                forallb noLineFeed [skill_name skill; skill_category skill;
                                    skill_description skill; skill_level skill])
             (skills data) = true ->
     forallb (fun project =>
                forallb noLineFeed [title project; category project;
                                    shortDescription project; status project])
             (projects data) = true ->
     split "010" (generateCSVExport data) =
       "Type,Name,Category,Description,Year,Status"
       :: (map skillRow (skills data) ++ map projectRow (projects data))%list) /\
  (forall skills : list (SkillDetails Number),
     forallb (fun skill =>
                forallb noLineFeed
                  [skill_name (detail_skill skill); skill_category (detail_skill skill);
                   skill_level (detail_skill skill);
                   Number_toString (yearsOfExperience skill);
                   skill_description (detail_skill skill)])
             skills = true ->
     split "010" (skillsCSV skills) =
       "Name,Category,Level,Proficiency,Experience Years,Projects,Description"
       :: map skillsRow skills) /\
  (forall projects : list Project,
     forallb (fun project =>
                forallb noLineFeed
                  (title project :: category project :: status project ::
                   shortDescription project :: technologies project))
             projects = true ->
     split "010" (generateProjectsCSV projects) =
       "Title,Category,Status,Year,Featured,Views,Likes,Technologies,Description"
       :: map projectsCsvRow projects) /\
  (* one element or section per entity *)
  (forall data,
     generateXMLExport data =
       "<?xml version=" +:+ quoted "1.0" +:+ " encoding=" +:+ quoted "UTF-8" +:+ "?>" +:+ nl +:+
       "<portfolio>" +:+ nl +:+
       "  <title>" +:+ p_title data +:+ "</title>" +:+ nl +:+
       "  <description>" +:+ p_description data +:+ "</description>" +:+ nl +:+
       "  <skills>" +:+ nl +:+
       "    " +:+ join EmptyString (map skillElement (skills data)) +:+ nl +:+
       "  </skills>" +:+ nl +:+
       "  <projects>" +:+ nl +:+
       "    " +:+ join EmptyString (map projectElement (projects data)) +:+ nl +:+
       "  </projects>" +:+ nl +:+
       "</portfolio>") /\
  (forall exportedOn data contact,
     generateMarkdownExport exportedOn data contact =
       "# " +:+ p_title data +:+ nl +:+ nl +:+
       p_description data +:+ nl +:+ nl +:+
       "## Contact Information" +:+ nl +:+
       "- **Email**: " +:+ email contact +:+ nl +:+
       "- **Location**: " +:+ location contact +:+ nl +:+
       "- **Website**: " +:+ website contact +:+ nl +:+ nl +:+
       "## Skills (" +:+ show (Z.of_nat (length (skills data))) +:+ ")" +:+ nl +:+
       join nl (map markdownSkill (skills data)) +:+ nl +:+ nl +:+
       "## Projects (" +:+ show (Z.of_nat (length (projects data))) +:+ ")" +:+ nl +:+
       join nl (map markdownProject (projects data)) +:+ nl +:+ nl +:+
       "---" +:+ nl +:+
       "*Exported on " +:+ exportedOn +:+ "*" +:+ nl) /\
  (forall skills includeStats,
     skillsMarkdown skills includeStats =
       "# Skills Export" +:+ nl +:+ nl +:+
       (if includeStats then statistics skills else EmptyString) +:+
       "## Skills List" +:+ nl +:+ nl +:+
       join EmptyString (map skillsSection skills)) /\
  (forall projects,
     generateProjectsMarkdown projects =
       "# Projects Export" +:+ nl +:+ nl +:+
       join EmptyString (map projectsMarkdownSection projects)) /\
  (* every field of a skill *)
  (forall skill : Skill,
     skillRow skill =
       "Skill," +:+ dq +:+ skill_name skill +:+ dq +:+ "," +:+
       skill_category skill +:+ "," +:+
       dq +:+ skill_description skill +:+ dq +:+ ",," +:+ skill_level skill /\
     contains ("<name>" +:+ skill_name skill +:+ "</name>") (skillElement skill) = true /\
     contains ("<category>" +:+ skill_category skill +:+ "</category>")
       (skillElement skill) = true /\
     contains ("<level>" +:+ skill_level skill +:+ "</level>") (skillElement skill) = true /\
     contains ("<proficiency>" +:+ show (skill_proficiency skill) +:+ "</proficiency>")
       (skillElement skill) = true /\
     contains ("<description>" +:+ skill_description skill +:+ "</description>")
       (skillElement skill) = true /\
     markdownSkill skill =
       "- **" +:+ skill_name skill +:+ "** (" +:+ skill_level skill +:+ ", " +:+
       show (skill_proficiency skill) +:+ "%) - " +:+ skill_description skill) /\
  (* every field of a project *)
  (forall project : Project,
     projectRow project =
       "Project," +:+ dq +:+ title project +:+ dq +:+ "," +:+
       category project +:+ "," +:+
       dq +:+ shortDescription project +:+ dq +:+ "," +:+
       show (year project) +:+ "," +:+ status project /\
     projectsCsvRow project =
       dq +:+ title project +:+ dq +:+ "," +:+
       category project +:+ "," +:+ status project +:+ "," +:+
       show (year project) +:+ "," +:+
       (if featured project then "true" else "false") +:+ "," +:+
       show (views project) +:+ "," +:+ show (likes project) +:+ "," +:+
       dq +:+ join ", " (technologies project) +:+ dq +:+ "," +:+
       dq +:+ shortDescription project +:+ dq /\
     contains ("<title>" +:+ title project +:+ "</title>") (projectElement project) = true /\
     contains ("<category>" +:+ category project +:+ "</category>")
       (projectElement project) = true /\
     contains ("<year>" +:+ show (year project) +:+ "</year>")
       (projectElement project) = true /\
     contains ("<description>" +:+ description project +:+ "</description>")
       (projectElement project) = true /\
     contains ("<status>" +:+ status project +:+ "</status>")
       (projectElement project) = true /\
     contains ("### " +:+ title project +:+ nl +:+ description project +:+ nl)
       (markdownProject project) = true /\
     contains ("- **Category**: " +:+ category project) (markdownProject project) = true /\
     contains ("- **Year**: " +:+ show (year project)) (markdownProject project) = true /\
     contains ("- **Technologies**: " +:+ join ", " (technologies project))
       (markdownProject project) = true /\
     (forall url, liveUrl project = Some url -> url <> EmptyString ->
        contains ("- **Live URL**: " +:+ url) (markdownProject project) = true /\
        contains ("- **Live URL**: " +:+ url) (projectsMarkdownSection project) = true) /\
     (forall url, githubUrl project = Some url -> url <> EmptyString ->
        contains ("- **GitHub**: " +:+ url) (projectsMarkdownSection project) = true) /\
     contains ("## " +:+ title project +:+ nl +:+ description project +:+ nl)
       (projectsMarkdownSection project) = true /\
     contains ("- **Category**: " +:+ category project)
       (projectsMarkdownSection project) = true /\
     contains ("- **Year**: " +:+ show (year project))
       (projectsMarkdownSection project) = true /\
     contains ("- **Status**: " +:+ status project)
       (projectsMarkdownSection project) = true /\
     contains ("- **Featured**: " +:+ (if featured project then "Yes" else "No"))
       (projectsMarkdownSection project) = true /\
     contains ("- **Technologies**: " +:+ join ", " (technologies project))
       (projectsMarkdownSection project) = true /\
     contains ("- **Views**: " +:+ show (views project))
       (projectsMarkdownSection project) = true /\
     contains ("- **Likes**: " +:+ show (likes project))
       (projectsMarkdownSection project) = true) /\
  (* every field of a skill of the skills export *)
  (forall skill : SkillDetails Number,
     skillsRow skill =
       dq +:+ skill_name (detail_skill skill) +:+ dq +:+ "," +:+
       skill_category (detail_skill skill) +:+ "," +:+
       skill_level (detail_skill skill) +:+ "," +:+
       show (skill_proficiency (detail_skill skill)) +:+ "," +:+
       Number_toString (yearsOfExperience skill) +:+ "," +:+
       show (skill_projectCount skill) +:+ "," +:+
       dq +:+ skill_description (detail_skill skill) +:+ dq /\
     contains ("### " +:+ skill_name (detail_skill skill)) (skillsSection skill) = true /\
     contains ("- **Category**: " +:+ skill_category (detail_skill skill))
       (skillsSection skill) = true /\
     contains ("- **Level**: " +:+ skill_level (detail_skill skill))
       (skillsSection skill) = true /\
     contains ("- **Proficiency**: " +:+ show (skill_proficiency (detail_skill skill))
               +:+ "%") (skillsSection skill) = true /\
     contains ("- **Experience**: " +:+ Number_toString (yearsOfExperience skill)
               +:+ " years") (skillsSection skill) = true /\
     contains ("- **Projects**: " +:+ show (skill_projectCount skill))
       (skillsSection skill) = true /\
     contains ("- **Description**: " +:+ skill_description (detail_skill skill))
       (skillsSection skill) = true).
Proof.
  split; [|split; [|split; [|split; [|split; [|split; [|split; [|split;
    [|split; [|split; [|split; [|split; [|split; [|split]]]]]]]]]]]]].
  - intros exportedOn data contact Hs Hp.
    unfold generateCSVExport, generateXMLExport, emptyXML, generateMarkdownExport.
    rewrite Hs, Hp. repeat split; reflexivity.
  - rewrite !skillsMarkdown_closed. split; [reflexivity|]. split; [reflexivity|].
    split; [|split; reflexivity].
    unfold statistics, statisticsSection. cbn [averageProficiency totalExperience
      totalProjects fold_left length map join].
    now rewrite !append_assoc.
  - reflexivity.
  - reflexivity.
  - reflexivity.
  - intros data Hs Hp. unfold generateCSVExport. cbv zeta.
    change ([join "," csvHeaders] ++ map skillRow (skills data)
              ++ map projectRow (projects data))%list
      with (join "," csvHeaders
              :: (map skillRow (skills data) ++ map projectRow (projects data)))%list.
    apply split_join_rows. cbn [forallb]. rewrite forallb_app. apply andb_true_intro.
    split; [reflexivity|]. apply andb_true_intro. split.
    + eapply forallb_map_rows; [|exact Hs]. intros skill Hok. cbn [forallb] in Hok.
      apply noLineFeed_join; [reflexivity|]. cbn [forallb].
      rewrite !noLineFeed_quoted. cbn [noLineFeed]. rewrite andb_true_r in *.
      destruct (noLineFeed (skill_name skill)), (noLineFeed (skill_category skill)),
        (noLineFeed (skill_description skill)), (noLineFeed (skill_level skill));
        try discriminate; reflexivity.
    + eapply forallb_map_rows; [|exact Hp]. intros project Hok. cbn [forallb] in Hok.
      apply noLineFeed_join; [reflexivity|]. cbn [forallb].
      rewrite !noLineFeed_quoted, show_noLineFeed. cbn [noLineFeed].
      rewrite andb_true_r in *.
      destruct (noLineFeed (title project)), (noLineFeed (category project)),
        (noLineFeed (shortDescription project)), (noLineFeed (status project));
        try discriminate; reflexivity.
  - intros skills Hs. unfold skillsCSV, generateSkillsCSV.
    apply split_join_rows. cbn [forallb]. apply andb_true_intro.
    split; [reflexivity|].
    eapply forallb_map_rows; [|exact Hs]. intros skill Hok. cbn [forallb] in Hok.
    apply noLineFeed_join; [reflexivity|]. cbn [forallb].
    rewrite !noLineFeed_quoted, !show_noLineFeed. rewrite andb_true_r in *.
    destruct (noLineFeed (skill_name (detail_skill skill))),
      (noLineFeed (skill_category (detail_skill skill))),
      (noLineFeed (skill_level (detail_skill skill))),
      (noLineFeed (Number_toString (yearsOfExperience skill))),
      (noLineFeed (skill_description (detail_skill skill)));
      try discriminate; reflexivity.
  - intros projects Hp. unfold generateProjectsCSV.
    apply split_join_rows. cbn [forallb]. apply andb_true_intro.
    split; [reflexivity|].
    eapply forallb_map_rows; [|exact Hp]. intros project Hok. cbn [forallb] in Hok.
    apply noLineFeed_join; [reflexivity|]. cbn [forallb].
    rewrite !noLineFeed_quoted, !show_noLineFeed.
    assert (Ht : noLineFeed (join ", " (technologies project)) = true).
    { apply noLineFeed_join; [reflexivity|].
      destruct (noLineFeed (title project)), (noLineFeed (category project)),
        (noLineFeed (status project)), (noLineFeed (shortDescription project));
        try discriminate; exact Hok. }
    rewrite Ht.
    destruct (noLineFeed (title project)), (noLineFeed (category project)),
      (noLineFeed (status project)), (noLineFeed (shortDescription project));
      try discriminate; now destruct (featured project).
  - reflexivity.
  - reflexivity.
  - apply skillsMarkdown_closed.
  - apply projectsMarkdown_closed.
  - intros skill. split.
    { unfold skillRow. rewrite !join_cons. cbn [join]. unfold quoted.
      now rewrite !append_assoc. }
    repeat split; try reflexivity; unfold skillElement; walk_to_line.
  - intros project. split.
    { unfold projectRow. rewrite !join_cons. cbn [join]. unfold quoted.
      now rewrite !append_assoc. }
    split.
    { unfold projectsCsvRow. rewrite !join_cons. cbn [join]. unfold quoted.
      now rewrite !append_assoc. }
    split; [unfold projectElement; walk_to_line|].
    split; [unfold projectElement; walk_to_line|].
    split; [unfold projectElement; walk_to_line|].
    split; [unfold projectElement; walk_to_line|].
    split; [unfold projectElement; walk_to_line|].
    split; [unfold markdownProject; substring_at EmptyString
              ("- **Category**: " +:+ category project +:+ nl +:+
               "- **Year**: " +:+ show (year project) +:+ nl +:+
               "- **Technologies**: " +:+ join ", " (technologies project) +:+ nl +:+
               (if truthy (liveUrl project)
                then "- **Live URL**: " +:+ default EmptyString (liveUrl project)
                else EmptyString) +:+ nl)|].
    split; [unfold markdownProject; walk_to_field|].
    split; [unfold markdownProject; walk_to_field|].
    split; [unfold markdownProject; walk_to_field|].
    split.
    { intros url Hu Hne. unfold markdownProject, projectsMarkdownSection.
      rewrite Hu, (AnalyticsProps.truthy_Some url Hne). cbn [default from_option]. unfold Datatypes.id.
      split; walk_to_field. }
    split.
    { intros url Hu Hne. unfold projectsMarkdownSection.
      rewrite Hu, (AnalyticsProps.truthy_Some url Hne). cbn [default from_option]. unfold Datatypes.id.
      walk_to_field. }
    split; [unfold projectsMarkdownSection; substring_at EmptyString
              (nl +:+ "- **Category**: " +:+ category project +:+ nl +:+
               "- **Year**: " +:+ show (year project) +:+ nl +:+
               "- **Status**: " +:+ status project +:+ nl +:+
               "- **Featured**: " +:+ (if featured project then "Yes" else "No") +:+ nl +:+
               "- **Technologies**: " +:+ join ", " (technologies project) +:+ nl +:+
               "- **Views**: " +:+ show (views project) +:+ nl +:+
               "- **Likes**: " +:+ show (likes project) +:+ nl +:+
               (if truthy (liveUrl project)
                then "- **Live URL**: " +:+ default EmptyString (liveUrl project)
                else EmptyString) +:+ nl +:+
               (if truthy (githubUrl project)
                then "- **GitHub**: " +:+ default EmptyString (githubUrl project)
                else EmptyString) +:+ nl +:+ nl)|].
    repeat split; unfold projectsMarkdownSection; walk_to_field.
  - intros skill. split.
    { unfold skillsRow, skillsCsvRow. rewrite !join_cons. cbn [join]. unfold quoted.
      now rewrite !append_assoc. }
    repeat split; unfold skillsSection, skillsMarkdownSection; walk_to_field.
Qed.

End Formats.

Lemma export_fields_verbatim_witness :
  generateCSVExport (samplePortfolio []) = "Type,Name,Category,Description,Year,Status" /\
  length (split "010" (generateCSVExport ampersand)) = 2%nat /\
  contains "- **Live URL**: https://example.com/work"
    (markdownProject (sampleProject "Logo" "branding" true 10 1)) = true.
Proof.
  pose proof (export_fields_verbatim Z show Z.add 0) as H.
  split; [|split].
  - exact (proj1 (proj1 H EmptyString (samplePortfolio []) contactInfo eq_refl eq_refl)).
  - rewrite (proj1 (proj2 (proj2 (proj2 (proj2 (proj2 H))))) ampersand eq_refl eq_refl).
    reflexivity.
  - destruct H as (_ & _ & _ & _ & _ & _ & _ & _ & _ & _ & _ & _ & _ & Hproject & _).
    destruct (Hproject (sampleProject "Logo" "branding" true 10 1))
      as (_ & _ & _ & _ & _ & _ & _ & _ & _ & _ & _ & Hurl & _).
    apply (Hurl "https://example.com/work" eq_refl). discriminate.
Defined.

(** C10, as stated, fails: an ampersand in a skill name reaches the XML
    document unescaped, and a double quote in a skill name reaches the CSV
    row undoubled. *)
Lemma escaping_counterexample :
  In (sampleSkill "A&B") (skills ampersand) /\
  contains (xmlEscape "A&B") (generateXMLExport ampersand) = false /\
  contains "<name>A&B</name>" (generateXMLExport ampersand) = true /\
  contains (csvEscape ("5" +:+ dq +:+ " ruler")) (generateCSVExport quotation) = false /\
  contains (quoted ("5" +:+ dq +:+ " ruler")) (generateCSVExport quotation) = true.
Proof.
  split; [left; reflexivity|]. repeat split; vm_compute; reflexivity.
Qed.

End ExportProps.

(** * Further properties *)

(** ** Rate limiter: runs, sweeps, buckets *)
Module RateLimiterExtras.
Import RateLimiter RateLimiterOps RateLimiterProps.

(** Where the result of a call and the caller's new log come from: the
    caller's own stored log and nothing else. *)
Lemma checkLimit_local config now request (requests1 requests2 : requests_map) :
  requests1 !! generateKey request = requests2 !! generateKey request ->
  (checkLimit config now request requests1).1 = (checkLimit config now request requests2).1
  /\ (checkLimit config now request requests1).2 !! generateKey request
     = (checkLimit config now request requests2).2 !! generateKey request.
Proof.
  intros Heq. unfold checkLimit. rewrite Heq. cbn [fst snd].
  split; [reflexivity|].
  destruct (bool_decide _); [|exact Heq].
  now rewrite !lookup_insert_eq.
Qed.

Lemma checkLimit_other config now request requests k :
  k <> generateKey request ->
  (checkLimit config now request requests).2 !! k = requests !! k.
Proof.
  intros Hne. unfold checkLimit. cbn [snd].
  destruct (bool_decide _); [|reflexivity].
  now rewrite lookup_insert_ne.
Qed.

(** X1. A caller without a stored log who makes a burst of calls at
    instants that pairwise lie within one window of each other: the calls
    are answered allowed up to the [maxRequests]-th and denied from then
    on. *)
Theorem fresh_burst config request (times : list Z) (requests : requests_map) :
  requests !! generateKey request = None ->
  (forall t t', In t times -> In t' times -> t - windowMs config < t') ->
  map allowed (run config request times requests).1 =
    map (fun i => bool_decide (Z.of_nat i < maxRequests config))
        (seq 0 (length times)).
Proof.
  intros Hnone Hpair.
  pose proof (burst_admission config request times requests) as H.
  cbn zeta in H. rewrite Hnone in H. cbn [default from_option length] in H.
  apply H; [exact Hpair|]. intros t _. constructor.
Qed.

Lemma fresh_burst_witness :
  map allowed (run (constructor 60000 3) caller_X [0; 10; 20; 30; 40] ∅).1
  = [true; true; true; false; false].
Proof.
  apply (fresh_burst (constructor 60000 3) caller_X [0; 10; 20; 30; 40] ∅).
  - reflexivity.
  - intros t t' Ht Ht'. cbn in Ht, Ht'. cbn. lia.
Defined.

Lemma checkLimit_sameFrom config t0 now request s1 s2 :
  t0 <= now -> sameFrom config t0 request s1 s2 ->
  (checkLimit config now request s1).1 = (checkLimit config now request s2).1 /\
  sameFrom config t0 request (checkLimit config now request s1).2
                             (checkLimit config now request s2).2.
Proof.
  intros Hle Hsame. pose proof (Hsame now Hle) as Hw.
  destruct (Z_lt_le_dec (Z.of_nat (length (inWindow config now request s2)))
              (maxRequests config)) as [Hlt|Hge].
  - rewrite (checkLimit_under config now request s2 Hlt).
    rewrite <- Hw in Hlt. rewrite (checkLimit_under config now request s1 Hlt).
    rewrite Hw. split; [reflexivity|].
    intros now' _. unfold inWindow. cbn [snd]. now rewrite !lookup_insert_eq.
  - rewrite (checkLimit_over config now request s2 Hge).
    rewrite <- Hw in Hge. rewrite (checkLimit_over config now request s1 Hge).
    rewrite Hw. split; [reflexivity|exact Hsame].
Qed.

(** X2. The periodic sweep is invisible to callers: a run of calls made
    at instants not before the sweep gets the same answers whether or not
    the sweep ran first. *)
Theorem sweep_transparent config swept request (times : list Z) requests :
  Forall (fun t => swept <= t) times ->
  (run config request times (cleanup config swept requests)).1
  = (run config request times requests).1.
Proof.
  intros Htimes.
  assert (H : forall s1 s2, sameFrom config swept request s1 s2 ->
                (run config request times s1).1 = (run config request times s2).1).
  { induction Htimes as [|t times Ht _ IH]; intros s1 s2 Hsame; [reflexivity|].
    cbn [run].
    destruct (checkLimit_sameFrom config swept t request s1 s2 Ht Hsame) as [Hr Hs].
    destruct (checkLimit config t request s1) as [r1 s1'].
    destruct (checkLimit config t request s2) as [r2 s2'].
    cbn [fst snd] in Hr, Hs. subst r2.
    specialize (IH s1' s2' Hs).
    destruct (run config request times s1') as [rs1 ?].
    destruct (run config request times s2') as [rs2 ?].
    cbn [fst] in *. now rewrite IH. }
  apply H. intros now Hle. now apply cleanup_inWindow.
Qed.

Lemma sweep_transparent_witness :
  (run scenario_config caller_X [900; 1100; 1200]
     (cleanup scenario_config 800 {[ "ip:X" := [entry 0 caller_X; entry 100 caller_X] ]})).1
  = (run scenario_config caller_X [900; 1100; 1200]
       {[ "ip:X" := [entry 0 caller_X; entry 100 caller_X] ]}).1.
Proof.
  apply (sweep_transparent scenario_config 800 caller_X [900; 1100; 1200]).
  repeat constructor; lia.
Defined.

Lemma step_logsBounded config requests op :
  logsBounded config requests -> logsBounded config (step config requests op).
Proof.
  intros Hinv k l. destruct op as [now request|now|request|]; cbn [step].
  - destruct (Z_lt_le_dec
                (Z.of_nat (length (inWindow config now request requests)))
                (maxRequests config)) as [Hlt|Hge].
    + rewrite (checkLimit_under config now request requests Hlt). cbn [snd].
      destruct (decide (k = generateKey request)) as [->|Hne].
      * rewrite lookup_insert_eq. intros [= <-]. split.
        -- now destruct (inWindow config now request requests).
        -- rewrite length_app. cbn [length]. lia.
      * rewrite lookup_insert_ne by congruence. apply Hinv.
    + rewrite (checkLimit_over config now request requests Hge). apply Hinv.
  - unfold cleanup. rewrite lookup_omap.
    destruct (requests !! k) as [l0|] eqn:Hk; [|discriminate].
    cbn [mbind option_bind].
    destruct (prune (now - windowMs config) l0) as [|r l'] eqn:Hp; [discriminate|].
    intros [= <-]. split; [discriminate|].
    destruct (Hinv k l0 Hk) as [_ Hlen].
    pose proof (length_filter (fun req => now - windowMs config < timestamp req) l0) as Hf.
    unfold prune in Hp. rewrite Hp in Hf. lia.
  - unfold reset. intros Hl. apply lookup_delete_Some in Hl as [_ Hl].
    exact (Hinv k l Hl).
  - unfold resetAll. rewrite lookup_empty. discriminate.
Qed.

(** X3. Whatever calls, sweeps and resets a limiter has seen, no stored
    log is empty and none holds more than [maxRequests] timestamps: the
    memory per caller is bounded by the configured limit. *)
Theorem stored_logs_bounded config (ops : list Op) k l :
  runOps config ops !! k = Some l ->
  l <> [] /\ Z.of_nat (length l) <= maxRequests config.
Proof.
  unfold runOps.
  assert (H : forall s, logsBounded config s -> logsBounded config (fold_left (step config) ops s)).
  { induction ops as [|op ops IH]; intros s Hs; [exact Hs|].
    cbn [fold_left]. apply IH. now apply step_logsBounded. }
  apply H. intros k' l'. rewrite lookup_empty. discriminate.
Qed.

Lemma stored_logs_bounded_witness :
  Z.of_nat (length [entry 0 caller_X; entry 100 caller_X]) <= 2.
Proof.
  exact (proj2 (stored_logs_bounded scenario_config
                  [OpCheckLimit 0 caller_X; OpCheckLimit 100 caller_X;
                   OpCheckLimit 200 caller_X; OpCleanup 300]
                  "ip:X" [entry 0 caller_X; entry 100 caller_X] eq_refl)).
Defined.

End RateLimiterExtras.

(** ** Rate limiter: sweep, buckets, resets, statistics *)
Module RateLimiterMore.
Import RateLimiter RateLimiterOps RateLimiterProps RateLimiterExtras.





(** X5. Two requests share a rate-limit bucket exactly when they have the
    same identity: the same address, or no address and the same user
    agent, or neither an address nor a user agent. *)
Theorem bucket_sharing (request1 request2 : Request) :
  generateKey request1 = generateKey request2 <->
  identityOf request1 = identityOf request2.
Proof.
  unfold generateKey, identityOf.
  destruct (truthy (req_ip request1)), (truthy (req_ip request2)),
           (truthy (req_userAgent request1)), (truthy (req_userAgent request2));
    split; intros H; try discriminate H; try reflexivity;
    try (apply (String.app_inj "ip:") in H; now rewrite H);
    try (apply (String.app_inj "ua:") in H; now rewrite H);
    try (injection H as ->; reflexivity).
Qed.

Lemma bucket_sharing_witness :
  generateKey {| req_ip := None; req_userAgent := None |}
  = generateKey {| req_ip := Some EmptyString; req_userAgent := Some EmptyString |}.
Proof.
  apply (proj2 (bucket_sharing {| req_ip := None; req_userAgent := None |}
                  {| req_ip := Some EmptyString; req_userAgent := Some EmptyString |})).
  reflexivity.
Defined.

(** X6. Callers in different buckets do not affect each other: a call by
    one caller leaves the log of every other bucket as it was, so the
    answer the other caller gets afterwards is the answer it would have
    got without that call. *)
Theorem bucket_isolation config now1 now2 request1 request2 requests :
  generateKey request1 <> generateKey request2 ->
  (checkLimit config now1 request1 requests).2 !! generateKey request2
    = requests !! generateKey request2 /\
  (checkLimit config now2 request2 (checkLimit config now1 request1 requests).2).1
    = (checkLimit config now2 request2 requests).1.
Proof.
  intros Hne.
  assert (H : (checkLimit config now1 request1 requests).2 !! generateKey request2
              = requests !! generateKey request2)
    by (apply checkLimit_other; congruence).
  split; [exact H|]. now apply checkLimit_local.
Qed.

Lemma bucket_isolation_witness :
  allowed (checkLimit scenario_config 200 mcpLike
             (checkLimit scenario_config 150 caller_X
                {[ "ip:X" := [entry 0 caller_X; entry 100 caller_X] ]}).2).1
  = true.
Proof.
  assert (Hne : generateKey caller_X <> generateKey mcpLike) by discriminate.
  rewrite (proj2 (bucket_isolation scenario_config 150 200 caller_X mcpLike
                    {[ "ip:X" := [entry 0 caller_X; entry 100 caller_X] ]} Hne)).
  reflexivity.
Defined.

(** X7. An administrative reset gives the caller a full budget again: the
    next call is allowed and counted as the first (when the limit is
    positive), and the logs of the other buckets are untouched. *)
Theorem reset_restores_budget config now request requests :
  0 < maxRequests config ->
  (checkLimit config now request (reset request requests)).1
    = {| allowed := true; remaining := maxRequests config - 1;
         resetTime := 0; totalRequests := 1 |} /\
  (forall k, k <> generateKey request ->
     reset request requests !! k = requests !! k).
Proof.
  intros Hpos. split.
  - assert (Hw : inWindow config now request (reset request requests) = []).
    { unfold inWindow, reset. now rewrite lookup_delete_eq. }
    pose proof (checkLimit_under config now request (reset request requests)) as H.
    cbn zeta in H. rewrite Hw in H. cbn [length] in H.
    rewrite H by lia. cbn [fst]. f_equal; lia.
  - intros k Hne. unfold reset. now rewrite lookup_delete_ne by congruence.
Qed.

Lemma reset_restores_budget_witness :
  allowed (checkLimit scenario_config 200 caller_X
             (reset caller_X {[ "ip:X" := [entry 0 caller_X; entry 100 caller_X] ]})).1
  = true.
Proof.
  assert (Hpos : 0 < maxRequests scenario_config) by (vm_compute; reflexivity).
  now rewrite (proj1 (reset_restores_budget scenario_config 200 caller_X
                        {[ "ip:X" := [entry 0 caller_X; entry 100 caller_X] ]} Hpos)).
Defined.

End RateLimiterMore.

(** ** Rate limiter: statistics *)
Module RateLimiterStats.
Import RateLimiter RateLimiterOps RateLimiterProps RateLimiterExtras.

Lemma runOps_logsBounded config ops : logsBounded config (runOps config ops).
Proof.
  unfold runOps.
  assert (H : forall s, logsBounded config s ->
                logsBounded config (fold_left (step config) ops s)).
  { induction ops as [|op ops IH]; intros s Hs; [exact Hs|].
    cbn [fold_left]. apply IH. now apply step_logsBounded. }
  apply H. intros k l. rewrite lookup_empty. discriminate.
Qed.

(** The counting loop of [getStats] over entries whose logs are bounded. *)
Lemma stats_loop_bounded windowStart (m : Z) (entries : list (string * list RequestInfo))
    (total users : Z) :
  Forall (fun e => Z.of_nat (length e.2) <= m) entries ->
  0 <= users -> 0 <= total <= users * m ->
  let '(total', users') :=
    fold_left (fun '(total, users) '(key, l) =>
                 let validRequests := prune windowStart l in
                 if (0 <? Z.of_nat (length validRequests))
                 then (total + Z.of_nat (length validRequests), users + 1)
                 else (total, users))
              entries (total, users) in
  0 <= users' <= users + Z.of_nat (length entries) /\ 0 <= total' <= users' * m.
Proof.
  intros Hall. revert total users.
  induction Hall as [|[k l] entries Hl _ IH]; intros total users Hu Ht.
  - cbn. lia.
  - cbn [fold_left].
    pose proof (length_filter (fun req => windowStart < timestamp req) l) as Hf.
    fold (prune windowStart l) in Hf. cbn [snd] in Hl.
    destruct (Z.ltb_spec 0 (Z.of_nat (length (prune windowStart l)))) as [Hpos|Hz].
    + specialize (IH (total + Z.of_nat (length (prune windowStart l))) (users + 1)).
      destruct (fold_left _ entries _) as [t' u'].
      cbn [length]. destruct IH as [IH1 IH2]; [lia|nia|]. split; lia.
    + specialize (IH total users Hu Ht).
      destruct (fold_left _ entries _) as [t' u'].
      cbn [length]. split; lia.
Qed.

(** X8. After any history of calls, sweeps and resets, the statistics are
    consistent with the limit: the number of active users is at most the
    number of stored buckets, the active requests are at most
    [maxRequests] per active user, and so is the reported average. *)
Theorem getStats_within_limit config (ops : list Op) now :
  let stats := getStats config now (runOps config ops) in
  0 <= activeUsers stats <= Z.of_nat (size (runOps config ops)) /\
  0 <= totalActiveRequests stats <= activeUsers stats * maxRequests config /\
  averageRequestsPerUser stats <= Z.max 0 (maxRequests config).
Proof.
  cbn zeta. unfold getStats.
  pose proof (stats_loop_bounded (now - windowMs config) (maxRequests config)
                (map_to_list (runOps config ops)) 0 0) as H.
  destruct (fold_left _ (map_to_list (runOps config ops)) (0, 0)) as [total users].
  cbn [activeUsers totalActiveRequests averageRequestsPerUser].
  rewrite length_map_to_list in H.
  destruct H as [Hu Ht]; [|lia|lia|].
  - apply Forall_forall. intros [k l] Hin. cbn [snd].
    apply elem_of_map_to_list in Hin.
    now apply (runOps_logsBounded config ops k l).
  - split; [lia|]. split; [lia|].
    destruct (Z.ltb_spec 0 users) as [Hpos|Hz]; [|lia].
    unfold roundDiv.
    assert ((2 * total + users) / (2 * users) < maxRequests config + 1); [|lia].
    apply Z.div_lt_upper_bound; nia.
Qed.

End RateLimiterStats.

(** ** Error handler *)
Module ErrorHandlerProps.
Import ErrorHandler ErrorHandlerUtils.

(** X9. For an instance of [PortfolioError] the handler keeps message,
    code and status, and merges the two contexts: a key of the call-site
    context has the call-site value, any other key has the value of the
    error's own context, and no key comes from elsewhere. *)
Theorem handleError_context_precedence ts name msg c status
    (errorContext callContext : option context_map) (k : string) :
  let d := handleError ts (PortfolioError name msg c status errorContext) callContext in
  message d = msg /\ code d = c /\ statusCode d = status /\
  contextEntry d k =
    match default ∅ callContext !! k with
    | Some v => Some v
    | None => default ∅ errorContext !! k
    end.
Proof.
  cbn. split; [reflexivity|]. split; [reflexivity|]. split; [reflexivity|].
  unfold contextEntry, spread2. cbn [context].
  rewrite lookup_union.
  destruct (default ∅ callContext !! k), (default ∅ errorContext !! k); reflexivity.
Qed.

(** X10. What [logError] does with an error that is not an instance of
    [PortfolioError]: it is logged as a client error (warn, without the
    stack) when its name is TypeError, SyntaxError or ZodError, and as a
    server error (error, with the stack) otherwise; never as info. *)
Theorem logError_level ts stack (error : Error) context :
  portfolio error = None ->
  let call := logError ts stack error context in
  level call = (if clientErrorName (err_name error) then LevelWarn else LevelError) /\
  log_stack call = (if clientErrorName (err_name error) then None else Some stack) /\
  level call <> LevelInfo.
Proof.
  intros Hp. unfold logError, handleError, clientErrorName. rewrite Hp.
  destruct (String.eqb_spec (err_name error) "TypeError") as [Ht|_];
    [rewrite Ht; cbn; repeat split; discriminate|].
  destruct (String.eqb_spec (err_name error) "SyntaxError") as [Hs|_];
    [rewrite Hs; cbn; repeat split; discriminate|].
  destruct (String.eqb_spec (err_name error) "ReferenceError") as [Hr|_];
    [rewrite Hr; cbn; repeat split; discriminate|].
  destruct (String.eqb_spec (err_name error) "ZodError") as [Hz|_];
    cbn; repeat split; discriminate.
Qed.

Lemma logError_level_witness :
  level (logError "2024-01-01T00:00:00.000Z" (JStr "Error: boom")
           (newError "boom") None) = LevelError.
Proof.
  exact (proj1 (logError_level "2024-01-01T00:00:00.000Z" (JStr "Error: boom")
                  (newError "boom") None eq_refl)).
Defined.

(** X11. [assertExists] returns a present resource as it is; for a
    missing one it throws the error that the handler reports as NOT_FOUND
    with status 404, with the message "<name> not found with ID: <id>"
    (or "<name> not found" when no id is given) and the resource name in
    its context. *)
Theorem assertExists_not_found {T} ts (resourceName : string) (id : option string)
    (r : T) :
  assertExists (Some r) resourceName id = inl r /\
  exists e, assertExists (@None T) resourceName id = inr e /\
    let d := handleError ts e None in
    code d = "NOT_FOUND" /\ statusCode d = 404 /\
    message d = (if truthy id
                 then resourceName +:+ " not found with ID: " +:+ default EmptyString id
                 else resourceName +:+ " not found") /\
    contextEntry d "resource" = Some (JStr resourceName).
Proof.
  split; [reflexivity|]. eexists. split; [reflexivity|].
  cbn. split; [reflexivity|]. split; [reflexivity|]. split; [reflexivity|].
  unfold contextEntry, spread2. cbn [context from_option]. unfold Datatypes.id.
  rewrite (left_id_L ∅ (∪)).
  rewrite lookup_insert_eq. reflexivity.
Qed.

(** X12. An error made from an HTTP response keeps its status and message
    through the handler, and its code is HTTP_ERROR exactly when the
    status is none of 400, 401, 403, 404, 429 and 500. *)
Theorem fromHttpResponse_roundtrip ts (status : Z) (msg : string)
    (context callContext : option context_map) :
  let d := handleError ts (fromHttpResponse status msg context) callContext in
  statusCode d = status /\ message d = msg /\
  (code d = "HTTP_ERROR" <-> ~ In status [400; 401; 403; 404; 429; 500]).
Proof.
  cbn. split; [reflexivity|]. split; [reflexivity|].
  destruct (Z.eqb_spec status 400); [split; [discriminate|cbn; intuition lia]|].
  destruct (Z.eqb_spec status 401); [split; [discriminate|cbn; intuition lia]|].
  destruct (Z.eqb_spec status 403); [split; [discriminate|cbn; intuition lia]|].
  destruct (Z.eqb_spec status 404); [split; [discriminate|cbn; intuition lia]|].
  destruct (Z.eqb_spec status 429); [split; [discriminate|cbn; intuition lia]|].
  destruct (Z.eqb_spec status 500); [split; [discriminate|cbn; intuition lia]|].
  split; [|reflexivity]. intros _. cbn. intuition lia.
Qed.

Lemma fromHttpResponse_roundtrip_witness :
  code (handleError "2024-01-01T00:00:00.000Z"
          (fromHttpResponse 503 "Service unavailable" None) None) = "HTTP_ERROR".
Proof.
  apply (proj2 (proj2 (proj2 (fromHttpResponse_roundtrip "2024-01-01T00:00:00.000Z"
                                503 "Service unavailable" None None)))).
  cbn. intuition discriminate.
Defined.

End ErrorHandlerProps.

(** ** Validation helpers *)
Module ValidationProps.
Import Validation ValidationUtils.

Lemma removeChars_allChars (inClass : ascii -> bool) (s : string) :
  allChars (fun a => negb (inClass a)) (removeChars inClass s) = true.
Proof.
  induction s as [|a s IH]; [reflexivity|]. cbn [removeChars].
  destruct (inClass a) eqn:Ha; [exact IH|]. cbn [allChars]. now rewrite Ha, IH.
Qed.

Lemma removeChars_length (inClass : ascii -> bool) (s : string) :
  (String.length (removeChars inClass s) <= String.length s)%nat.
Proof.
  induction s as [|a s IH]; [reflexivity|]. cbn [removeChars].
  destruct (inClass a); cbn [String.length]; lia.
Qed.

Lemma trimStart_length (s : string) :
  (String.length (trimStart s) <= String.length s)%nat.
Proof.
  induction s as [|a s IH]; [reflexivity|]. cbn [trimStart].
  destruct (isWhiteSpace a); cbn [String.length]; lia.
Qed.

Lemma trimEnd_length (s : string) :
  (String.length (trimEnd s) <= String.length s)%nat.
Proof.
  induction s as [|a s IH]; [reflexivity|]. cbn [trimEnd].
  destruct (trimEnd s); [destruct (isWhiteSpace a)|]; cbn [String.length] in *; lia.
Qed.

Lemma allChars_impl (p q : ascii -> bool) (s : string) :
  (forall a, p a = true -> q a = true) -> allChars p s = true -> allChars q s = true.
Proof.
  intros Hpq. induction s as [|a s IH]; [reflexivity|]. cbn [allChars].
  rewrite !andb_true_iff. intros [Ha Hs]. split; [now apply Hpq|now apply IH].
Qed.

Lemma sanitizeString_safe (input : string) :
  allChars isSafe (sanitizeString input) = true.
Proof.
  unfold sanitizeString.
  apply (allChars_impl (fun a => negb (negb (isSafe a)))).
  - intros a. now rewrite negb_involutive.
  - apply removeChars_allChars.
Qed.

Lemma sanitizeString_length (input : string) :
  (String.length (sanitizeString input) <= String.length input)%nat.
Proof.
  unfold sanitizeString, trim.
  pose proof (removeChars_length (fun a => negb (isSafe a))
                (removeChars isAngle (trimEnd (trimStart input)))).
  pose proof (removeChars_length isAngle (trimEnd (trimStart input))).
  pose proof (trimEnd_length (trimStart input)).
  pose proof (trimStart_length input). lia.
Qed.

(** X13. The sanitizer never lets a character through that is not a
    letter, a digit, white space or one of [- _ . @] (so no angle bracket,
    quote or ampersand survives), and it never makes a string longer. *)
Theorem sanitizeString_alphabet (input : string) :
  allChars isSafe (sanitizeString input) = true /\
  allChars (fun a => negb (isAngle a)) (sanitizeString input) = true /\
  (String.length (sanitizeString input) <= String.length input)%nat.
Proof.
  split; [apply sanitizeString_safe|]. split; [|apply sanitizeString_length].
  apply (allChars_impl isSafe); [|apply sanitizeString_safe].
  intros a. unfold isSafe, isAngle, isWordChar, isWhiteSpace, codeOf.
  destruct (Ascii.eqb_spec a "<"%char) as [->|_]; [vm_compute; discriminate|].
  destruct (Ascii.eqb_spec a ">"%char) as [->|_]; [vm_compute; discriminate|].
  reflexivity.
Qed.

(** X14. A search query is accepted exactly when it is a non-empty string
    whose sanitized form has between 1 and 100 characters; the accepted
    result carries the sanitized form and no error. *)
Theorem validateSearchQuery_accepts (query : option string) :
  let r := validateSearchQuery query in
  (valid r = true <->
     exists q, query = Some q /\ q <> EmptyString /\
               (1 <= String.length (sanitizeString q) <= 100)%nat) /\
  (valid r = true ->
     errors r = [] /\
     data r = Some (JStr (sanitizeString (default EmptyString query)))) /\
  (valid r = false -> length (errors r) = 1%nat /\ data r = None).
Proof.
  cbn zeta. unfold validateSearchQuery.
  destruct query as [q|]; cbn [truthy negb default from_option].
  - destruct (String.eqb_spec q EmptyString) as [->|Hne]; cbn [negb].
    + split; [|split; [discriminate|now intros _]].
      split; [discriminate|]. intros (q & [= <-] & Hq & _). now contradiction Hq.
    + unfold Datatypes.id.
      destruct (Nat.ltb_spec (String.length (sanitizeString q)) 1) as [Hlt|Hge].
      * split; [|split; [discriminate|now intros _]].
        split; [discriminate|]. intros (q' & [= <-] & _ & Hlen). lia.
      * destruct (Nat.ltb_spec 100 (String.length (sanitizeString q))) as [Hlong|Hok].
        -- split; [|split; [discriminate|now intros _]].
           split; [discriminate|]. intros (q' & [= <-] & _ & Hlen). lia.
        -- split; [|split; [now intros _|discriminate]].
           split; [|reflexivity]. intros _. exists q. repeat split; [exact Hne|lia|lia].
  - split; [|split; [discriminate|now intros _]].
    split; [discriminate|]. intros (q & Hq & _). discriminate Hq.
Qed.

Lemma validateSearchQuery_accepts_witness :
  data (validateSearchQuery (Some "  <b>logo design</b> ")) = Some (JStr "blogo designb").
Proof.
  assert (Hv : valid (validateSearchQuery (Some "  <b>logo design</b> ")) = true)
    by (vm_compute; reflexivity).
  rewrite (proj2 (proj1 (proj2 (validateSearchQuery_accepts
                                  (Some "  <b>logo design</b> "))) Hv)).
  vm_compute. reflexivity.
Defined.

Lemma outside_false (x : JsNumber) (lo : Z) (hi : option Z) :
  outside x lo hi = false ->
  exists z, x = Int z /\ lo <= z /\ (forall h, hi = Some h -> z <= h).
Proof.
  destruct x as [z| |]; cbn [outside]; try discriminate.
  rewrite orb_false_iff. intros [Hlo Hhi]. exists z. split; [reflexivity|].
  apply Z.ltb_ge in Hlo. split; [exact Hlo|].
  intros h ->. now apply Z.ltb_ge in Hhi.
Qed.

Lemma number_or_Int (z d : Z) : z <> 0 \/ d = 0 -> number_or (Some (Int z)) d = Int z.
Proof. destruct z; cbn [number_or]; intros [H| ->]; congruence. Qed.

(** X15. Pagination: the result is valid exactly when nothing was
    reported, and a valid result always carries usable numbers, an
    integer limit between 1 and 100 and a non-negative integer offset, the
    defaults 10 and 0 standing in for absent arguments. *)
Theorem validatePagination_valid (limit0 offset0 : option JsNumber) :
  let r := validatePagination limit0 offset0 in
  (pg_valid r = true <-> pg_errors r = []) /\
  (pg_valid r = true ->
     (exists l, limit (pg_data r) = Int l /\ 1 <= l <= 100 /\
                (limit0 = None -> l = 10)) /\
     (exists o, offset (pg_data r) = Int o /\ 0 <= o /\
                (offset0 = None -> o = 0))).
Proof.
  cbn zeta. split.
  - unfold validatePagination. cbn [pg_valid pg_errors].
    match goal with |- (length ?e =? 0)%nat = true <-> _ => destruct e end;
      cbn; split; intros; congruence.
  - unfold validatePagination. cbn [pg_valid pg_data limit offset].
    intros Hvalid. split.
    + destruct limit0 as [l|].
      * destruct (outside l 1 (Some 100)) eqn:Hout.
        -- exfalso. destruct offset0 as [o|]; [destruct (outside o 0 None)|];
             discriminate Hvalid.
        -- apply outside_false in Hout as (z & -> & Hlo & Hhi).
           specialize (Hhi 100 eq_refl). exists z.
           rewrite number_or_Int by lia. split; [reflexivity|]. split; [lia|discriminate].
      * exists 10. split; [reflexivity|]. split; [lia|reflexivity].
    + destruct offset0 as [o|].
      * destruct (outside o 0 None) eqn:Hout.
        -- exfalso. destruct limit0 as [l|]; [destruct (outside l 1 (Some 100))|];
             discriminate Hvalid.
        -- apply outside_false in Hout as (z & -> & Hlo & _). exists z.
           rewrite number_or_Int by lia. split; [reflexivity|]. split; [lia|discriminate].
      * exists 0. split; [reflexivity|]. split; [lia|reflexivity].
Qed.

Lemma validatePagination_valid_witness :
  limit (pg_data (validatePagination None (Some (Int 20)))) = Int 10 /\
  offset (pg_data (validatePagination None (Some (Int 20)))) = Int 20.
Proof.
  destruct (proj2 (validatePagination_valid None (Some (Int 20))) eq_refl)
    as [(l & Hl & _ & Hdef) (o & Ho & _)].
  rewrite Hl, (Hdef eq_refl). split; reflexivity.
Defined.

(** X16. Sorting arguments: a valid result names one of the two sort
    orders, and its sort field is the given one, which belongs to the
    allowed fields when any are listed, or the default "date" when none
    was given. *)
Theorem validateSort_valid (sortBy0 sortOrder0 : option string)
    (allowedFields : list string) :
  let r := validateSort sortBy0 sortOrder0 allowedFields in
  sort_valid r = true ->
  In (sortOrder (sort_data r)) ["asc"; "desc"] /\
  (if truthy sortBy0
   then sortBy0 = Some (sortBy (sort_data r)) /\
        (allowedFields = [] \/ In (sortBy (sort_data r)) allowedFields)
   else sortBy (sort_data r) = "date").
Proof.
  cbn zeta. unfold validateSort. cbn [sort_valid sort_data sortBy sortOrder].
  intros Hvalid. split.
  - destruct (truthy sortOrder0) eqn:Ho; [|cbn; tauto].
    destruct sortOrder0 as [o|]; [|discriminate Ho]. cbn [default from_option].
    unfold Datatypes.id.
    destruct (existsb (String.eqb o) ["asc"; "desc"]) eqn:Hex.
    + apply existsb_exists in Hex as (x & Hin & Hx).
      apply String.eqb_eq in Hx. now subst x.
    + exfalso. cbn [default from_option andb negb] in Hvalid.
      unfold Datatypes.id in Hvalid. rewrite Hex in Hvalid. cbn [negb] in Hvalid.
      destruct (_ && _ && _) in Hvalid; discriminate Hvalid.
  - destruct (truthy sortBy0) eqn:Hs; [|reflexivity].
    destruct sortBy0 as [f|]; [|discriminate Hs]. cbn [default from_option].
    unfold Datatypes.id. split; [reflexivity|].
    destruct allowedFields as [|a fields]; [now left|right].
    destruct (existsb (String.eqb f) (a :: fields)) eqn:Hex.
    + apply existsb_exists in Hex as (x & Hin & Hx).
      apply String.eqb_eq in Hx. now subst x.
    + exfalso. cbn [default from_option andb negb length Nat.ltb Nat.leb] in Hvalid.
      unfold Datatypes.id in Hvalid. rewrite Hex in Hvalid. cbn [negb] in Hvalid.
      destruct (truthy sortOrder0 && _) in Hvalid; discriminate Hvalid.
Qed.

Lemma validateSort_valid_witness :
  sort_valid (validateSort (Some "views") None ["title"; "views"]) = true /\
  In (sortOrder (sort_data (validateSort (Some "views") None ["title"; "views"])))
     ["asc"; "desc"].
Proof.
  split; [reflexivity|].
  exact (proj1 (validateSort_valid (Some "views") None ["title"; "views"] eq_refl)).
Defined.

End ValidationProps.

(** ** Dispatcher *)
Module ServerExtras.
Import RateLimiter ErrorHandler Validation Server ServerTools RateLimiterProps ServerProps.

Lemma initializeTools_fold (allTools : list Tool) (acc : gmap string Tool) (n : string) :
  fold_left (fun tools tool => <[name tool := tool]> tools) allTools acc !! n =
    match last (filter (fun t => name t = n) allTools) with
    | Some t => Some t
    | None => acc !! n
    end.
Proof.
  revert acc. induction allTools as [|t l IH]; intros acc; [reflexivity|].
  cbn [fold_left]. rewrite IH, filter_cons.
  destruct (decide (name t = n)) as [<-|Hne].
  - rewrite last_cons.
    destruct (last (filter (fun t0 => name t0 = name t) l)); [reflexivity|].
    now rewrite lookup_insert_eq.
  - destruct (last (filter (fun t0 => name t0 = n) l)); [reflexivity|].
    now rewrite lookup_insert_ne.
Qed.

(** X17. Looking a name up in the registry gives the last tool of the
    registration list that has this name (a later registration replaces an
    earlier one), and nothing when no tool has it. *)
Theorem initializeTools_lookup (allTools : list Tool) (n : string) :
  initializeTools allTools !! n = last (filter (fun t => name t = n) allTools) /\
  (initializeTools allTools !! n = None <-> ~ In n (map name allTools)).
Proof.
  assert (H : initializeTools allTools !! n
              = last (filter (fun t => name t = n) allTools)).
  { unfold initializeTools. rewrite initializeTools_fold, lookup_empty.
    now destruct (last _). }
  split; [exact H|]. rewrite H, last_None. split.
  - intros Hnil Hin. apply in_map_iff in Hin as (t & Ht & Hin).
    apply list_elem_of_In in Hin.
    assert (Hf : t ∈ filter (fun t0 => name t0 = n) allTools)
      by (apply list_elem_of_filter; now split).
    rewrite Hnil in Hf. now apply not_elem_of_nil in Hf.
  - intros Hnot. destruct (filter (fun t => name t = n) allTools) as [|t l] eqn:Hf;
      [reflexivity|].
    exfalso. apply Hnot. apply in_map_iff. exists t.
    assert (Ht : t ∈ filter (fun t0 => name t0 = n) allTools)
      by (rewrite Hf; apply list_elem_of_here).
    apply list_elem_of_filter in Ht as [Hn Hin]. split; [exact Hn|].
    now apply list_elem_of_In.
Qed.

Lemma initializeTools_lookup_witness :
  initializeTools [getFeaturedProjects] !! "get_projects" = None.
Proof.
  apply (proj2 (initializeTools_lookup [getFeaturedProjects] "get_projects")).
  cbn. intros [H|[]]. discriminate H.
Defined.

Section Calls.
Variable zodSafeParse : JsVal -> JsVal -> ZodOutcome.
Variable World : Type.
Variable executeTool : string -> JsVal -> World -> (JsVal + Error) * World.
Variable config : RateLimitConfig.
Variable tools : gmap string Tool.

Let call := callTool zodSafeParse World executeTool config tools.

(** The limiter's map after a call is the one [checkLimit] left. *)
Lemma call_requests clock request name args st :
  requests World (call clock request name args st).2
  = (checkLimit config (now clock) request (requests World st)).2.
Proof.
  unfold call, callTool.
  destruct (checkLimit config (now clock) request (requests World st)) as [r rq].
  cbn [snd]. destruct (negb (allowed r)); [reflexivity|].
  destruct (tools !! name) as [tool|]; [|reflexivity].
  destruct (negb (valid _)); [reflexivity|].
  destruct (executeTool name (default (JObj []) args) (world World st)) as [[res|e] w];
    reflexivity.
Qed.

(** X18. The handlers run only behind the three gates: a call that the
    limiter denies, or that names no registered tool, or whose arguments
    fail validation, is answered with an error envelope and leaves the
    handlers' state as it was; the limiter has counted the call all the
    same when it admitted it. *)
Theorem gates_before_handlers clock request name args st :
  allowed (checkLimit config (now clock) request (requests World st)).1 = false \/
  tools !! name = None \/
  (exists tool, tools !! name = Some tool /\
     valid (validateToolInput zodSafeParse tool (default (JObj []) args)) = false) ->
  let '(resp, logged, st') := call clock request name args st in
  world World st' = world World st /\
  (exists envelope, resp = IsError envelope /\ success envelope = false) /\
  requests World st'
    = (checkLimit config (now clock) request (requests World st)).2.
Proof.
  intros Hgate.
  pose proof (call_requests clock request name args st) as Hreq.
  unfold call, callTool in *.
  destruct (checkLimit config (now clock) request (requests World st)) as [r rq].
  cbn [fst snd] in *.
  destruct (allowed r) eqn:Ha; cbn [negb] in *.
  - destruct (tools !! name) as [tool|] eqn:Ht.
    + destruct Hgate as [Hgate|[Hgate|(tool' & [= <-] & Hv)]]; try discriminate.
      rewrite Hv in *. cbn [negb] in *. cbn. repeat split; eauto.
    + cbn. repeat split; eauto.
  - cbn. repeat split; eauto.
Qed.

(** X19. Behind the gates the answer is the handler's: a returned result
    is sent as the content, and a thrown instance of [PortfolioError]
    reaches the caller with its own message and code and is logged with
    its own status (only plain errors become INTERNAL_ERROR). *)
Theorem handler_outcome clock request name args st tool :
  allowed (checkLimit config (now clock) request (requests World st)).1 = true ->
  tools !! name = Some tool ->
  valid (validateToolInput zodSafeParse tool (default (JObj []) args)) = true ->
  (forall result w,
     executeTool name (default (JObj []) args) (world World st) = (inl result, w) ->
     (call clock request name args st).1 = (Content result, None) /\
     world World (call clock request name args st).2 = w) /\
  (forall nm msg c status errorContext w,
     executeTool name (default (JObj []) args) (world World st)
       = (inr (PortfolioError nm msg c status errorContext), w) ->
     (call clock request name args st).1.1
       = IsError {| success := false; error := msg; env_code := c;
                    env_timestamp := iso_envelope clock |} /\
     (statusCode <$> (call clock request name args st).1.2) = Some status /\
     world World (call clock request name args st).2 = w).
Proof.
  intros Ha Ht Hv. unfold call, callTool.
  destruct (checkLimit config (now clock) request (requests World st)) as [r rq].
  cbn [fst] in Ha. rewrite Ha, Ht, Hv. cbn [negb]. split.
  - intros result w ->. split; reflexivity.
  - intros nm msg c status errorContext w ->. repeat split.
Qed.

End Calls.

Lemma gates_before_handlers_witness :
  world unit
    (callTool acceptAll unit notImplemented scenario_config sample_tools
       (sample_clock 200) mcp_request "get_nonexistent" None fresh_state).2
  = tt.
Proof.
  pose proof (gates_before_handlers acceptAll unit notImplemented scenario_config
                sample_tools (sample_clock 200) mcp_request "get_nonexistent" None
                fresh_state (or_intror (or_introl eq_refl))) as H.
  destruct (callTool _ _ _ _ _ _ _ _ _ _) as [[resp logged] st'].
  exact (proj1 H).
Defined.

Lemma handler_outcome_witness :
  (callTool acceptAll unit throwingTool scenario_config sample_tools
     (sample_clock 0) mcp_request "get_featured_projects" None fresh_state).1.1
  = IsError {| success := false; error := "Project not found with ID: 42";
               env_code := "NOT_FOUND";
               env_timestamp := "2024-01-01T00:00:00.000Z" |}.
Proof.
  assert (Ht : sample_tools !! "get_featured_projects" = Some getFeaturedProjects)
    by (vm_compute; reflexivity).
  exact (proj1 (proj2 (handler_outcome acceptAll unit throwingTool scenario_config
                         sample_tools (sample_clock 0) mcp_request
                         "get_featured_projects" None fresh_state getFeaturedProjects
                         eq_refl Ht eq_refl)
                  "NotFoundError" "Project not found with ID: 42" "NOT_FOUND" 404 _ tt
                  eq_refl)).
Defined.

Section Switch.
Variable World : Type.
Variables portfolioTools skillTools projectTools analyticsTools exportTools
  : list (ToolEntry World).

Let exec := executeTool World portfolioTools skillTools projectTools
              analyticsTools exportTools.

Lemma executeTool_default toolName args w :
  ~ In toolName implemented ->
  exec toolName args w
  = (inr (newError ("Tool handler not implemented: " +:+ toolName)), w).
Proof.
  intros Hnot. unfold exec, executeTool.
  assert (Hcase : forall cases, (forall x, In x cases -> In x implemented) ->
                    existsb (String.eqb toolName) cases = false).
  { intros cases Hsub. destruct (existsb (String.eqb toolName) cases) eqn:Hex;
      [|reflexivity].
    apply existsb_exists in Hex as (x & Hin & Hx). apply String.eqb_eq in Hx.
    subst x. exfalso. apply Hnot. now apply Hsub. }
  rewrite !Hcase; [reflexivity| | | | |];
    intros x Hx; unfold implemented; rewrite !in_app_iff; tauto.
Qed.

(** X20. A tool can be registered and still never run: for every name
    that the [switch] of [executeTool] has no case for, a call that passes
    the limiter and the validation is answered with the error
    "Tool handler not implemented: <name>" under the code INTERNAL_ERROR,
    and no handler is called, whatever handler the tool carries. *)
Theorem unimplemented_tool_never_runs zodSafeParse config tools clock request name
    args st tool :
  ~ In name implemented ->
  allowed (checkLimit config (now clock) request (requests World st)).1 = true ->
  tools !! name = Some tool ->
  valid (validateToolInput zodSafeParse tool (default (JObj []) args)) = true ->
  let '(resp, logged, st') :=
    callTool zodSafeParse World exec config tools clock request name args st in
  resp = IsError {| success := false;
                    error := "Tool handler not implemented: " +:+ name;
                    env_code := "INTERNAL_ERROR";
                    env_timestamp := iso_envelope clock |} /\
  world World st' = world World st.
Proof.
  intros Hnot Ha Ht Hv. unfold callTool.
  destruct (checkLimit config (now clock) request (requests World st)) as [r rq].
  cbn [fst] in Ha. rewrite Ha, Ht, Hv. cbn [negb].
  rewrite (executeTool_default name _ _ Hnot).
  rewrite catch_plain_error by discriminate. split; reflexivity.
Qed.

End Switch.

Lemma unimplemented_tool_never_runs_witness :
  (callTool acceptAll unit (executeTool unit [] [] [] sampleAnalyticsTools [])
     (constructor 0 0) sampleRegistry (sample_clock 0) mcp_request
     "get_popular_content" None fresh_state).1.1
  = IsError {| success := false;
               error := "Tool handler not implemented: get_popular_content";
               env_code := "INTERNAL_ERROR";
               env_timestamp := "2024-01-01T00:00:00.000Z" |}.
Proof.
  assert (Hnot : ~ In "get_popular_content" implemented).
  { unfold implemented. cbn. intuition discriminate. }
  assert (Ht : sampleRegistry !! "get_popular_content"
               = Some (entry unit (echoTool "get_popular_content")))
    by (vm_compute; reflexivity).
  pose proof (unimplemented_tool_never_runs unit [] [] [] sampleAnalyticsTools []
                acceptAll (constructor 0 0) sampleRegistry (sample_clock 0)
                mcp_request "get_popular_content" None fresh_state _
                Hnot eq_refl Ht eq_refl) as H.
  destruct (callTool _ _ _ _ _ _ _ _ _ _) as [[resp logged] st'].
  exact (proj1 H).
Defined.

End ServerExtras.

(** ** Analytics: tracking sequences and statistics *)
Module AnalyticsExtras.
Import AnalyticsTools AnalyticsStatsTools AnalyticsProps StringFacts.

Section Tracking.
Variable hostname : string -> option string.

Lemma viewCount_snoc events e :
  viewCount (events ++ [e])%list
  = viewCount events + (if String.eqb (type e) "view" then 1 else 0).
Proof.
  unfold viewCount. rewrite List.filter_app, length_app. cbn [List.filter].
  destruct (String.eqb (type e) "view"); cbn [length]; lia.
Qed.

Lemma trackEvent_store uuid now args st :
  let st' := (trackEvent hostname uuid now args st).2 in
  (exists e, analyticsEvents st' = (analyticsEvents st ++ [e])%list /\
             id e = uuid /\ timestamp e = now /\ type e = arg_type args) /\
  totalViews (analyticsStats st') - viewCount (analyticsEvents st')
  = totalViews (analyticsStats st) - viewCount (analyticsEvents st).
Proof.
  cbn zeta. unfold trackEvent. cbn [snd analyticsEvents analyticsStats]. split.
  - eexists. split; [reflexivity|]. cbn. repeat split.
  - rewrite viewCount_snoc. unfold updateAnalyticsStats.
    cbn [totalViews type]. destruct (String.eqb (arg_type args) "view"); lia.
Qed.

Lemma trackAll_cons c calls st :
  trackAll hostname (c :: calls) st
  = trackAll hostname calls
      (trackEvent hostname (call_uuid c) (call_now c) (call_args c) st).2.
Proof. reflexivity. Qed.

(** X21. The event log is append-only and the view counter follows it:
    a sequence of tracking calls leaves every earlier event in place,
    adds one event per call carrying that call's id and instant, in call
    order, and raises [totalViews] by exactly the number of added events
    of type "view"; starting from the empty store, [totalViews] is the
    number of stored view events. *)
Theorem tracking_appends (calls : list TrackCall) (st : Store) :
  let st' := trackAll hostname calls st in
  (exists added, analyticsEvents st' = (analyticsEvents st ++ added)%list /\
                 map id added = map call_uuid calls /\
                 map timestamp added = map call_now calls) /\
  totalViews (analyticsStats st') - totalViews (analyticsStats st)
  = viewCount (analyticsEvents st') - viewCount (analyticsEvents st) /\
  totalViews (analyticsStats (trackAll hostname calls emptyStore))
  = viewCount (analyticsEvents (trackAll hostname calls emptyStore)).
Proof.
  cbn zeta.
  assert (H : forall st,
    (exists added, analyticsEvents (trackAll hostname calls st)
                   = (analyticsEvents st ++ added)%list /\
                   map id added = map call_uuid calls /\
                   map timestamp added = map call_now calls) /\
    totalViews (analyticsStats (trackAll hostname calls st))
      - viewCount (analyticsEvents (trackAll hostname calls st))
    = totalViews (analyticsStats st) - viewCount (analyticsEvents st)).
  { induction calls as [|c calls IH]; intros st0.
    - split; [|reflexivity]. exists []. now rewrite app_nil_r.
    - rewrite trackAll_cons.
      pose proof (trackEvent_store (call_uuid c) (call_now c) (call_args c) st0)
        as Hstep. cbn zeta in Hstep.
      destruct Hstep as [(e & He & Hid & Hts & _) Hv].
      destruct (IH (trackEvent hostname (call_uuid c) (call_now c) (call_args c) st0).2)
        as [(added & Ha & Hids & Htss) Hv'].
      split; [|lia]. exists (e :: added). rewrite Ha, He, <- app_assoc.
      split; [reflexivity|]. cbn [map]. now rewrite Hid, Hts, Hids, Htss. }
  destruct (H st) as [Hadd Hv]. split; [exact Hadd|]. split; [lia|].
  destruct (H emptyStore) as [_ Hv0].
  change (totalViews (analyticsStats emptyStore)) with 0 in Hv0.
  change (viewCount (analyticsEvents emptyStore)) with 0 in Hv0. lia.
Qed.

(** *** The most-recently-seen rings *)

Lemma removeFirst_sublist x l : removeFirst x l `sublist_of` l.
Proof.
  induction l as [|y l IH]; [constructor|]. cbn [removeFirst].
  destruct (String.eqb y x); [now apply sublist_cons|now apply sublist_skip].
Qed.

Lemma removeFirst_not_in x l : NoDup l -> x ∉ removeFirst x l.
Proof.
  induction 1 as [|y l Hy Hl IH]; [apply not_elem_of_nil|]. cbn [removeFirst].
  destruct (String.eqb_spec y x) as [->|Hne]; [exact Hy|].
  rewrite not_elem_of_cons. split; [congruence|exact IH].
Qed.

Lemma moveToFront_ring x l :
  NoDup l ->
  NoDup (moveToFront x l) /\ (length (moveToFront x l) <= 10)%nat /\
  head (moveToFront x l) = Some x.
Proof.
  intros Hl. unfold moveToFront. split; [|split].
  - apply (sublist_NoDup _ (x :: removeFirst x l)); [|apply sublist_take].
    apply NoDup_cons_2; [now apply removeFirst_not_in|].
    apply (sublist_NoDup _ l); [exact Hl|apply removeFirst_sublist].
  - apply firstn_le_length.
  - reflexivity.
Qed.

Lemma updateAnalyticsStats_rings event stats :
  ringsOk stats -> ringsOk (updateAnalyticsStats hostname event stats).
Proof.
  intros ([Hp1 Hp2] & [Hs1 Hs2] & [Hr1 Hr2]). unfold updateAnalyticsStats, ringsOk.
  cbn [popularProjects popularSkills topReferrers]. split; [|split].
  - destruct (_ && _); [|now split].
    destruct (moveToFront_ring (default EmptyString (resourceId event)) _ Hp1)
      as (? & ? & _). now split.
  - destruct (_ && _ && _); [|now split].
    destruct (moveToFront_ring (default EmptyString (resourceId event)) _ Hs1)
      as (? & ? & _). now split.
  - destruct (truthy (referrer event)); [|now split].
    destruct (truthy _ && negb (includes _ _)) eqn:Hc; [|now split].
    apply andb_true_iff in Hc as [_ Hinc]. apply negb_true_iff in Hinc.
    split; [|apply firstn_le_length].
    apply (sublist_NoDup _ (default EmptyString
                              (extractDomain hostname
                                 (default EmptyString (referrer event)))
                            :: topReferrers stats)); [|apply sublist_take].
    apply NoDup_cons_2; [|exact Hr1].
    intros Hin. apply list_elem_of_In in Hin.
    unfold includes in Hinc.
    assert (Hex : existsb (String.eqb (default EmptyString
                    (extractDomain hostname (default EmptyString (referrer event)))))
                    (topReferrers stats) = true).
    { apply existsb_exists. eexists. split; [exact Hin|apply String.eqb_refl]. }
    congruence.
Qed.

(** X22. The three rings of the tracker (recent projects, recent skills,
    referrer domains) never hold more than 10 entries and never hold an
    entry twice, after any sequence of tracking calls on a new store; a
    tracked project event with a resource id puts that id at the front
    of the project ring. *)
Theorem rings_bounded (calls : list TrackCall) :
  let stats := analyticsStats (trackAll hostname calls emptyStore) in
  (NoDup (popularProjects stats) /\ (length (popularProjects stats) <= 10)%nat) /\
  (NoDup (popularSkills stats) /\ (length (popularSkills stats) <= 10)%nat) /\
  (NoDup (topReferrers stats) /\ (length (topReferrers stats) <= 10)%nat) /\
  (forall uuid now args rid,
     arg_resource args = "project" -> arg_resourceId args = Some rid ->
     rid <> EmptyString ->
     head (popularProjects
             (analyticsStats
                (trackEvent hostname uuid now args
                   (trackAll hostname calls emptyStore)).2)) = Some rid).
Proof.
  cbn zeta.
  assert (H : forall st, ringsOk (analyticsStats st) ->
                ringsOk (analyticsStats (trackAll hostname calls st))).
  { induction calls as [|c calls IH]; intros st Hst; [exact Hst|].
    rewrite trackAll_cons.
    apply IH. unfold trackEvent. cbn [snd analyticsStats].
    now apply updateAnalyticsStats_rings. }
  assert (H0 : ringsOk (analyticsStats emptyStore)).
  { cbn. repeat split; try apply NoDup_nil_2; cbn; lia. }
  destruct (H emptyStore H0) as (Hp & Hs & Hr).
  split; [exact Hp|]. split; [exact Hs|]. split; [exact Hr|].
  intros uuid now args rid Hres Hrid Hne.
  unfold trackEvent. cbn [snd analyticsStats].
  unfold updateAnalyticsStats. cbn [popularProjects resourceId resource].
  rewrite Hres, Hrid, (truthy_Some rid Hne). cbn [andb String.eqb default from_option].
  reflexivity.
Qed.

End Tracking.

Lemma rings_bounded_witness :
  head (popularProjects
          (analyticsStats
             (trackEvent noHostname "id-3" 3000 (viewArgs "p2")
                (trackAll noHostname
                   [ {| call_uuid := "id-1"; call_now := 1000; call_args := viewArgs "p1" |};
                     {| call_uuid := "id-2"; call_now := 2000; call_args := viewArgs "p2" |} ]
                   emptyStore)).2))
  = Some "p2".
Proof.
  apply (proj2 (proj2 (proj2 (rings_bounded noHostname _)))); [reflexivity|reflexivity|].
  discriminate.
Defined.

(** *** Last interaction of a popular item *)

Lemma sortDesc_head {A} (key : A -> Z) (l : list A) (x : A) :
  In x l ->
  exists h, head (sortDesc key l) = Some h /\ In h l /\ key x <= key h.
Proof.
  intros Hx.
  pose proof (sortDesc_sorted key l) as Hs.
  pose proof (sortDesc_perm key l) as Hp.
  destruct (sortDesc key l) as [|h tl] eqn:Hd.
  - apply Permutation_nil_l in Hp. subst l. destruct Hx.
  - exists h. split; [reflexivity|]. split.
    + apply list_elem_of_In. rewrite <- Hp. apply list_elem_of_here.
    + apply list_elem_of_In in Hx. rewrite <- Hp in Hx.
      apply elem_of_cons in Hx as [->|Hx]; [lia|].
      apply StronglySorted_inv in Hs as [_ Hall].
      rewrite Forall_forall in Hall. now apply Hall.
Qed.

(** X23. Every popular item carries a last-interaction instant, and it is
    the latest instant among the filtered events of that resource id: it
    is the instant of one of them and none of them is later. *)
Theorem popular_last_interaction now args st item :
  let filteredEvents :=
    filterEvents now (str_or (arg_contentType args) "projects")
      (str_or (arg_timeRange args) "month") (analyticsEvents st) in
  In item (popularItems (getPopularContent now args st)) ->
  exists t, lastInteraction item = Some t /\
    (exists e, In e filteredEvents /\
               resourceId e = Some (item_resourceId item) /\ timestamp e = t) /\
    (forall e, In e filteredEvents ->
               resourceId e = Some (item_resourceId item) -> timestamp e <= t).
Proof.
  intros fe Hin. unfold getPopularContent in Hin. cbn [popularItems] in Hin.
  fold fe in Hin. apply in_map_iff in Hin as ([rid c] & <- & Hin).
  cbn [lastInteraction item_resourceId].
  apply In_slice0 in Hin. unfold ranking in Hin.
  apply list_elem_of_In in Hin.
  rewrite (sortDesc_perm snd), Object_entries_perm in Hin.
  apply list_elem_of_In in Hin.
  assert (Hk : In rid (map fst (countInteractions fe)))
    by (apply in_map_iff; now exists (rid, c)).
  apply keys_countInteractions in Hk as (e0 & He0 & Hr0).
  set (same := fun e : AnalyticsEvent =>
                 match resourceId e with
                 | Some r => String.eqb r rid
                 | None => false
                 end).
  assert (Hsame : forall e, same e = true <-> resourceId e = Some rid).
  { intros e. unfold same. destruct (resourceId e) as [r|]; [|split; discriminate].
    rewrite String.eqb_eq. split; [now intros ->|now intros [= ->]]. }
  assert (Hm : In e0 (List.filter same fe))
    by (apply filter_In; split; [exact He0|now apply Hsame]).
  destruct (sortDesc_head timestamp (List.filter same fe) e0 Hm) as (h & Hh & Hhin & _).
  unfold lastInteractionOf. fold same. rewrite Hh. cbn [fmap option_fmap option_map].
  exists (timestamp h). split; [reflexivity|]. split.
  - apply filter_In in Hhin as [Hhfe Hhs]. exists h.
    split; [exact Hhfe|]. split; [now apply Hsame|reflexivity].
  - intros e Hefe Her.
    assert (Hem : In e (List.filter same fe))
      by (apply filter_In; split; [exact Hefe|now apply Hsame]).
    destruct (sortDesc_head timestamp (List.filter same fe) e Hem) as (h' & Hh' & _ & Hle).
    rewrite Hh in Hh'. injection Hh' as <-. exact Hle.
Qed.

Lemma popular_last_interaction_witness :
  exists t,
    lastInteraction {| item_resourceId := "p1"; interactions := 3;
                       lastInteraction := Some 3000 |} = Some t /\ 0 <= t.
Proof.
  destruct (popular_last_interaction 5000 popularAll
              (trackViews [("p1", 1000); ("p1", 2000); ("p1", 3000); ("p2", 4000)]
                 emptyStore)
              {| item_resourceId := "p1"; interactions := 3;
                 lastInteraction := Some 3000 |})
    as (t & Ht & _ & _).
  - vm_compute. left. reflexivity.
  - exists t. split; [exact Ht|]. cbn in Ht. injection Ht as <-. lia.
Defined.

End AnalyticsExtras.


(** ** Statistics over the stored events *)
Module AnalyticsStatsProps.
Import AnalyticsTools AnalyticsStatsTools AnalyticsProps StringFacts.

Lemma counterSum_setCounter k o :
  counterSum (setCounter k (default 0 (getCounter k o) + 1) o) = counterSum o + 1.
Proof.
  unfold counterSum. induction o as [|[k' v'] o IH]; [reflexivity|].
  cbn [getCounter setCounter]. destruct (String.eqb k' k).
  - cbn. unfold Datatypes.id. lia.
  - cbn [map fold_right snd]. rewrite IH. lia.
Qed.

Lemma counterSum_increment k o : counterSum (increment k o) = counterSum o + 1.
Proof. unfold increment. rewrite num_or_zero. apply counterSum_setCounter. Qed.

Section Stats.
Variable isoDay : Z -> string.
Variable localHour : Z -> string.

Let withId (events : list AnalyticsEvent) : Z :=
  Z.of_nat (length (List.filter (fun e => truthy (resourceId e)) events)).

Lemma statsStep_fold events s :
  let s' := fold_left (statsStep isoDay localHour) events s in
  totalEvents s' = totalEvents s /\
  counterSum (eventTypes s') = counterSum (eventTypes s) + Z.of_nat (length events) /\
  counterSum (resourceTypes s') = counterSum (resourceTypes s) + Z.of_nat (length events) /\
  counterSum (dailyBreakdown s') = counterSum (dailyBreakdown s) + Z.of_nat (length events) /\
  counterSum (hourlyBreakdown s') = counterSum (hourlyBreakdown s) + Z.of_nat (length events) /\
  counterSum (topResources s') = counterSum (topResources s) + withId events.
Proof.
  revert s. induction events as [|e events IH]; intros s; cbn zeta.
  - unfold withId. cbn. repeat split; lia.
  - cbn [fold_left]. destruct (IH (statsStep isoDay localHour s e)) as (H0 & H1 & H2 & H3 & H4 & H5).
    cbn zeta in *. rewrite H0, H1, H2, H3, H4, H5.
    unfold statsStep at 1 2 3 4 5 6.
    cbn [totalEvents eventTypes resourceTypes dailyBreakdown hourlyBreakdown topResources].
    rewrite !counterSum_increment. unfold withId. cbn [List.filter].
    destruct (truthy (resourceId e)); cbn [length];
      rewrite ?counterSum_increment; repeat split; lia.
Qed.

(** X24. In the statistics of a list of events, the event-type,
    resource-type, daily and hourly tables each add up to the number of
    events, which is also [totalEvents]; the top-resources table adds up to
    the number of events that carry a resource id. *)
Theorem calculateStats_totals (events : list AnalyticsEvent) :
  let s := calculateStats isoDay localHour events in
  let n := Z.of_nat (length events) in
  totalEvents s = n /\
  counterSum (eventTypes s) = n /\
  counterSum (resourceTypes s) = n /\
  counterSum (dailyBreakdown s) = n /\
  counterSum (hourlyBreakdown s) = n /\
  counterSum (topResources s)
  = Z.of_nat (length (List.filter (fun e => truthy (resourceId e)) events)).
Proof.
  cbn zeta. unfold calculateStats.
  destruct (statsStep_fold events
              {| totalEvents := Z.of_nat (length events);
                 eventTypes := []; resourceTypes := []; dailyBreakdown := [];
                 hourlyBreakdown := []; topResources := [] |})
    as (H0 & H1 & H2 & H3 & H4 & H5).
  cbn zeta in *. rewrite H0, H1, H2, H3, H4, H5. unfold withId, counterSum. cbn.
  repeat split; lia.
Qed.

(** X25. When recent events are requested, [get_analytics_stats] returns
    at most twenty of them, latest first; each is a stored event inside
    the time range and, when an event type is given, of that type; and
    there are twenty of them as soon as twenty events pass the filters. *)
Theorem recent_events now args st l :
  recentEvents (getAnalyticsStats isoDay localHour now args st) = Some l ->
  (length l <= 20)%nat /\
  length l = Nat.min 20 (length (statsEvents now args (analyticsEvents st))) /\
  StronglySorted (fun a b => timestamp b <= timestamp a) l /\
  forall e, In e l ->
    In e (analyticsEvents st) /\
    startDate now (str_or (stats_timeRange args) "month") <= timestamp e /\
    (truthy (stats_eventType args) = true -> Some (type e) = stats_eventType args).
Proof.
  unfold getAnalyticsStats. cbn [recentEvents].
  destruct (stats_includeEvents args); [|discriminate]. intros [= <-].
  set (fe := statsEvents now args (analyticsEvents st)).
  assert (Hlen : length (take 20 (sortDesc timestamp fe)) = Nat.min 20 (length fe)).
  { rewrite length_take. now rewrite (Permutation_length (sortDesc_perm timestamp fe)). }
  split; [rewrite Hlen; lia|]. split; [exact Hlen|]. split.
  - apply take_sorted, sortDesc_sorted.
  - intros e He. apply list_elem_of_In in He. apply subseteq_take in He.
    rewrite (sortDesc_perm timestamp) in He. apply list_elem_of_In in He.
    unfold fe, statsEvents in He.
    destruct (stats_eventType args) as [ty|] eqn:Hty; cbn [truthy] in *.
    + destruct (negb (String.eqb ty EmptyString)) eqn:Hne.
      * apply filter_In in He as [He Heq]. apply filter_In in He as [He Hge].
        apply String.eqb_eq in Heq. cbn in Heq. unfold Datatypes.id in Heq.
        split; [exact He|]. split; [lia|]. intros _. now rewrite Heq.
      * apply filter_In in He as [He Hge]. split; [exact He|]. split; [lia|discriminate].
    + apply filter_In in He as [He Hge]. split; [exact He|]. split; [lia|discriminate].
Qed.

End Stats.

Lemma recent_events_witness :
  (length [ {| AnalyticsTools.id := "00000000-0000-4000-8000-000000000000";
               type := "view"; resource := "project";
               resourceId := Some "p1"; userAgent := None; ip := None;
               referrer := None; timestamp := 1000; metadata := None |} ] <= 20)%nat.
Proof.
  apply (recent_events (fun _ => "1970-01-01") (fun _ => "0") 2000
           {| stats_timeRange := None; stats_includeEvents := true;
              stats_eventType := Some "view" |}
           (trackViews [("p1", 1000)] emptyStore)).
  reflexivity.
Defined.

(** *** Anonymised addresses *)

Lemma split_parts (c : ascii) (s : string) :
  Forall (fun p => split c p = [p]) (split c s).
Proof.
  induction s as [|a s IH]; cbn [split]; [repeat constructor|].
  destruct (Ascii.eqb a c) eqn:Hac.
  - constructor; [reflexivity|exact IH].
  - pose proof (split_nonempty c s) as Hn.
    destruct (split c s) as [|p ps]; [contradiction|].
    apply Forall_cons in IH as [Hp Hps]. constructor; [|exact Hps].
    cbn [split]. now rewrite Hac, Hp.
Qed.

(** X26. On an address of four dot-separated parts, anonymising is
    idempotent, and the result does not depend on the last part: two such
    addresses that share their first three parts are stored alike. *)
Theorem anonymizeIP_collapses (s p0 p1 p2 p3 : string) :
  split "." s = [p0; p1; p2; p3] ->
  anonymizeIP (anonymizeIP s) = anonymizeIP s /\
  forall s' q3, split "." s' = [p0; p1; p2; q3] -> anonymizeIP s' = anonymizeIP s.
Proof.
  intros Hs. split.
  - pose proof (split_parts "." s) as Hall. rewrite Hs in Hall.
    apply Forall_cons in Hall as [H0 Hall].
    apply Forall_cons in Hall as [H1 Hall].
    apply Forall_cons in Hall as [H2 _].
    rewrite (anonymizeIP_four s p0 p1 p2 p3 Hs).
    apply (anonymizeIP_four _ p0 p1 p2 "0").
    rewrite !join_cons. cbn [join].
    change (p0 +:+ "." +:+ p1 +:+ "." +:+ p2 +:+ "." +:+ "0")
      with (p0 +:+ String "." (p1 +:+ String "." (p2 +:+ String "." "0"))).
    rewrite !split_part by assumption. reflexivity.
  - intros s' q3 Hs'. rewrite (anonymizeIP_four s p0 p1 p2 p3 Hs).
    apply (anonymizeIP_four s' p0 p1 p2 q3 Hs').
Qed.

Lemma anonymizeIP_collapses_witness :
  anonymizeIP (anonymizeIP "192.168.1.77") = anonymizeIP "192.168.1.77".
Proof.
  apply (proj1 (anonymizeIP_collapses "192.168.1.77" "192" "168" "1" "77" eq_refl)).
Defined.

End AnalyticsStatsProps.


(** ** Exports of projects and of the portfolio *)
Module ExportExtras.
Import ExportTools ExportProjectsTools ExportProps StringFacts.

Section Renderers.
Variable JSON_stringify : Portfolio -> ContactInfo -> Z -> string.
Variable generateMarkdownExport : Portfolio -> ContactInfo -> string.
Variable JSON_stringify_projects : list Project -> string.
Variable generateProjectsMarkdown : list Project -> string.

(** X27. An [export_portfolio] call whose format is none of json,
    markdown, csv, xml fails with the handler's fixed message, but only
    after the redaction step: without [includePrivate] it leaves the
    contact object exactly as a default export does, without a phone
    number. *)
Theorem failed_export_still_redacts portfolioData args h fmt :
  arg_format args = Some fmt ->
  ~ In fmt [EmptyString; "json"; "markdown"; "csv"; "xml"] ->
  arg_includePrivate args = false ->
  let r := exportPortfolio JSON_stringify generateMarkdownExport portfolioData args h in
  r.1 = Failure "Failed to export portfolio" /\
  r.2 = (exportPortfolio JSON_stringify generateMarkdownExport
           portfolioData defaultArgs h).2 /\
  truthy (phone (r.2 !!! contact portfolioData)) = false.
Proof.
  intros Hfmt Hnot Hpriv. cbn zeta. split; [|split].
  - unfold exportPortfolio. rewrite Hfmt. cbn [truthy default from_option].
    unfold Datatypes.id.
    destruct (String.eqb_spec fmt EmptyString) as [->|_]; [cbn in Hnot; tauto|].
    cbn [negb].
    destruct (String.eqb_spec fmt "json") as [->|_]; [cbn in Hnot; tauto|].
    destruct (String.eqb_spec fmt "markdown") as [->|_]; [cbn in Hnot; tauto|].
    destruct (String.eqb_spec fmt "csv") as [->|_]; [cbn in Hnot; tauto|].
    destruct (String.eqb_spec fmt "xml") as [->|_]; [cbn in Hnot; tauto|].
    reflexivity.
  - rewrite !exportPortfolio_heap. now rewrite Hpriv.
  - rewrite exportPortfolio_heap, Hpriv. cbn [negb andb].
    destruct (truthy (phone (h !!! contact portfolioData))) eqn:Hp; [|exact Hp].
    unfold deletePhone. rewrite lookup_total_alt, lookup_alter_eq.
    destruct (h !! contact portfolioData) as [c|]; reflexivity.
Qed.

Lemma withoutImages_row project :
  projectsCsvRow (withoutImages project) = projectsCsvRow project.
Proof. reflexivity. Qed.

Lemma filter_filter_length {A} (f g : A -> bool) (l : list A) :
  length (List.filter g (List.filter f l))
  = length (List.filter (fun x => f x && g x) l).
Proof.
  induction l as [|x l IH]; [reflexivity|]. cbn [List.filter].
  destruct (f x); cbn [andb List.filter]; [|exact IH].
  destruct (g x); cbn [length]; now rewrite IH.
Qed.

Lemma filter_true {A} (l : list A) : List.filter (fun _ => true) l = l.
Proof. induction l as [|x l IH]; [reflexivity|]. cbn. now rewrite IH. Qed.

Lemma selectProjects_length args projectsData :
  length (selectProjects args projectsData)
  = length (List.filter (selected args) projectsData).
Proof.
  unfold selectProjects, selected.
  assert (H : forall l : list Project,
             length (if negb (truthyB (pa_includeImages args))
                     then map withoutImages l else l) = length l).
  { intros l. destruct (negb _); [apply length_map|reflexivity]. }
  rewrite H.
  destruct (truthy (pa_category args)), (truthyB (pa_featured args)).
  - apply filter_filter_length.
  - f_equal. apply filter_ext. intros p. now rewrite andb_true_r.
  - reflexivity.
  - cbn [andb]. now rewrite filter_true.
Qed.

(** X28. The project count an [export_projects] answer reports is the
    number of dataset projects that meet the category and the featured
    condition of the call, whatever the format and the image option; it
    never exceeds the size of the dataset. *)
Theorem exportProjects_count projectsData args data :
  exportProjects JSON_stringify_projects generateProjectsMarkdown projectsData args
  = ProjectsSuccess data ->
  projectCount data = Z.of_nat (length (List.filter (selected args) projectsData)) /\
  projectCount data <= Z.of_nat (length projectsData) /\
  In (pe_format data) ["json"; "csv"; "markdown"].
Proof.
  unfold exportProjects. cbv zeta. intros H.
  set (fmt := if truthy (pa_format args)
              then default EmptyString (pa_format args) else "json") in *.
  assert (Hc : projectCount data = Z.of_nat (length (selectProjects args projectsData))
               /\ pe_format data = fmt
               /\ In fmt ["json"; "csv"; "markdown"]).
  { clearbody fmt. revert H.
    destruct (String.eqb_spec fmt "json") as [Hj|_];
      [intros [= <-]; rewrite Hj; cbn; auto|].
    destruct (String.eqb_spec fmt "csv") as [Hj|_];
      [intros [= <-]; rewrite Hj; cbn; auto|].
    destruct (String.eqb_spec fmt "markdown") as [Hj|_];
      [intros [= <-]; rewrite Hj; cbn; auto 6|].
    discriminate. }
  destruct Hc as (Hc & Hf & Hin). rewrite Hc, Hf, selectProjects_length.
  split; [reflexivity|]. split; [|exact Hin].
  pose proof (filter_length (selected args) projectsData). lia.
Qed.

Lemma selectProjects_csv args projectsData :
  generateProjectsCSV (selectProjects args projectsData)
  = generateProjectsCSV
      (selectProjects {| pa_format := pa_format args; pa_category := pa_category args;
                         pa_featured := pa_featured args;
                         pa_includeImages := Some true |} projectsData).
Proof.
  unfold selectProjects, generateProjectsCSV.
  cbn [pa_category pa_featured pa_includeImages truthyB default from_option negb].
  unfold Datatypes.id.
  destruct (negb (truthyB (pa_includeImages args))); [|reflexivity].
  rewrite map_map. do 2 f_equal.
Qed.

(** X29. For the csv format the image option has no effect: the rows do
    not read the images, so an [export_projects] call answers the same
    with and without [includeImages]. *)
Theorem csv_export_ignores_images projectsData args images images' :
  pa_format args = Some "csv" ->
  exportProjects JSON_stringify_projects generateProjectsMarkdown projectsData
    {| pa_format := pa_format args; pa_category := pa_category args;
       pa_featured := pa_featured args; pa_includeImages := images |}
  = exportProjects JSON_stringify_projects generateProjectsMarkdown projectsData
    {| pa_format := pa_format args; pa_category := pa_category args;
       pa_featured := pa_featured args; pa_includeImages := images' |}.
Proof.
  intros Hf. unfold exportProjects. cbn [pa_format pa_category pa_featured].
  rewrite Hf. cbn [truthy String.eqb Ascii.eqb Bool.eqb negb default from_option].
  unfold Datatypes.id. cbn [String.eqb Ascii.eqb Bool.eqb].
  set (a := {| pa_format := Some "csv"; pa_category := pa_category args;
               pa_featured := pa_featured args; pa_includeImages := images |}).
  set (a' := {| pa_format := Some "csv"; pa_category := pa_category args;
                pa_featured := pa_featured args; pa_includeImages := images' |}).
  rewrite (selectProjects_csv a), (selectProjects_csv a').
  rewrite (selectProjects_length a), (selectProjects_length a').
  reflexivity.
Qed.

End Renderers.

Lemma failed_export_still_redacts_witness :
  let r := exportPortfolio (fun _ _ _ => EmptyString) (fun _ _ => EmptyString)
             (samplePortfolio []) pdfArgs {[ 0%nat := contactWithPhone ]} in
  r.1 = Failure "Failed to export portfolio" /\
  truthy (phone (r.2 !!! 0%nat)) = false.
Proof.
  destruct (failed_export_still_redacts (fun _ _ _ => EmptyString) (fun _ _ => EmptyString)
              (samplePortfolio []) pdfArgs {[ 0%nat := contactWithPhone ]} "pdf")
    as (H1 & _ & H3).
  - reflexivity.
  - cbn. intros [H|[H|[H|[H|[H|[]]]]]]; discriminate.
  - reflexivity.
  - split; [exact H1|exact H3].
Defined.

Lemma exportProjects_count_witness :
  projectCount
    {| pe_content := generateProjectsCSV
                       (selectProjects csvArgs sampleProjects);
       pe_format := "csv"; pe_mimeType := "text/csv";
       pe_filename := "projects-branding-featured.csv";
       projectCount := 2; pe_category := Some "branding";
       pe_featured := Some true;
       pe_size := Z.of_nat (String.length
                              (generateProjectsCSV
                                 (selectProjects csvArgs sampleProjects))) |}
  = 2.
Proof.
  apply (proj1 (exportProjects_count (fun _ => EmptyString) (fun _ => EmptyString)
                  sampleProjects csvArgs _ eq_refl)).
Defined.

Lemma csv_export_ignores_images_witness :
  exportProjects (fun _ => EmptyString) (fun _ => EmptyString) sampleProjects
    {| pa_format := Some "csv"; pa_category := Some "branding";
       pa_featured := Some true; pa_includeImages := None |}
  = exportProjects (fun _ => EmptyString) (fun _ => EmptyString) sampleProjects
    {| pa_format := Some "csv"; pa_category := Some "branding";
       pa_featured := Some true; pa_includeImages := Some true |}.
Proof.
  apply (csv_export_ignores_images (fun _ => EmptyString) (fun _ => EmptyString)
           sampleProjects csvArgs None (Some true)).
  reflexivity.
Defined.

End ExportExtras.


(** ** Featured projects *)
Module ProjectProps.
Import ExportTools ExportProjectsTools ProjectTools AnalyticsProps.

Lemma sorted_take_drop {A} (key : A -> Z) (l : list A) :
  StronglySorted (fun a b => key b <= key a) l ->
  forall n p q, In p (take n l) -> In q (drop n l) -> key q <= key p.
Proof.
  induction 1 as [|x l Hl IH Hx]; intros [|n] p q Hp Hq; cbn [take drop] in *;
    try contradiction.
  destruct Hp as [<-|Hp].
  - rewrite Forall_forall in Hx. apply Hx.
    apply list_elem_of_In in Hq. eapply subseteq_drop, Hq.
  - now apply (IH n).
Qed.

Lemma slice0_take {A} (k : Z) (l : list A) : exists n, slice0 k l = take n l.
Proof. unfold slice0. destruct (k <? 0); eauto. Qed.

Lemma slice0_length {A} (k : Z) (l : list A) :
  0 <= k -> Z.of_nat (length (slice0 k l)) = Z.min k (Z.of_nat (length l)).
Proof.
  intros Hk. unfold slice0. destruct (Z.ltb_spec k 0); [lia|].
  rewrite length_take. lia.
Qed.

Lemma existsb_eqb (v : string) (acc : list string) :
  existsb (String.eqb v) acc = true <-> In v acc.
Proof.
  rewrite existsb_exists. split.
  - intros (x & Hx & Heq). apply String.eqb_eq in Heq. now subst.
  - intros Hin. exists v. split; [exact Hin|apply String.eqb_refl].
Qed.

Lemma distinct_fold (values acc : list string) :
  let r := fold_left (fun acc v =>
                        if existsb (String.eqb v) acc then acc else (acc ++ [v])%list)
                     values acc in
  (NoDup acc -> NoDup r) /\
  (forall c, In c r <-> In c acc \/ In c values).
Proof.
  revert acc. induction values as [|v values IH]; intros acc; cbn zeta; cbn [fold_left].
  - split; [auto|]. intros c. cbn. tauto.
  - destruct (IH (if existsb (String.eqb v) acc then acc else (acc ++ [v])%list))
      as [Hnd Hin].
    cbn zeta in Hnd, Hin. split.
    + intros Hacc. apply Hnd.
      destruct (existsb (String.eqb v) acc) eqn:He; [exact Hacc|].
      apply NoDup_app. split; [exact Hacc|]. split; [|apply NoDup_singleton].
      intros x Hx Hv. apply list_elem_of_singleton in Hv. subst x.
      apply list_elem_of_In, existsb_eqb in Hx. congruence.
    + intros c. rewrite Hin.
      destruct (existsb (String.eqb v) acc) eqn:He.
      * apply existsb_eqb in He. cbn [In]. split; [tauto|].
        intros [H|[<-|H]]; auto.
      * rewrite in_app_iff. cbn [In]. tauto.
Qed.

(** X30. On a dataset whose view and like counters are safe (not
    negative, views plus twice the likes at most [2^53 - 1], so that the
    double-precision score is exact), [get_featured_projects] answers with
    the best-scored projects of its pool (the featured projects, of the
    category asked for when one is given), by views plus twice the likes:
    the list is in descending score order, it is drawn from the pool
    without repetition of a pool entry, no pool project left out scores
    higher than a returned one, and for a limit that is not negative the
    answer holds the limit's number of projects, or the whole pool when
    that is smaller; an absent or zero limit counts as five. The categories
    listed are those of the featured projects of the dataset, each once. *)
Theorem featured_ranking (projectsData : list Project) (args : FeaturedArgs) :
  forallb safeCounters projectsData = true ->
  let d := getFeaturedProjects projectsData args in
  let pool := featuredPool projectsData args in
  let limit := num_or (default 0 (fa_limit args)) 5 in
  StronglySorted (fun a b => score b <= score a) (fd_projects d) /\
  fd_projects d ⊆+ pool /\
  (forall p, In p (fd_projects d) ->
     In p projectsData /\ featured p = true /\
     (truthy (fa_category args) = true -> Some (category p) = fa_category args)) /\
  (forall p q, In p (fd_projects d) -> In q pool -> ~ In q (fd_projects d) ->
     score q <= score p) /\
  (0 <= limit -> fd_total d = Z.min limit (Z.of_nat (length pool))) /\
  NoDup (fd_categories d) /\
  (forall c, In c (fd_categories d) <->
     exists p, In p projectsData /\ featured p = true /\ category p = c) /\
  (forall p, In p (fd_projects d) -> 0 <= score p <= 2 ^ 53 - 1).
Proof.
  intros Hsafe. cbn zeta. unfold getFeaturedProjects.
  cbn [fd_projects fd_total fd_categories].
  set (pool := featuredPool projectsData args).
  set (limit := num_or (default 0 (fa_limit args)) 5).
  destruct (slice0_take limit (sortDesc score pool)) as [n Hn].
  assert (Hsub : slice0 limit (sortDesc score pool) ⊆+ pool).
  { rewrite Hn. etransitivity; [apply sublist_submseteq, sublist_take|].
    now rewrite (sortDesc_perm score). }
  split; [apply slice0_sorted, sortDesc_sorted|].
  split; [exact Hsub|]. split; [|split; [|split; [|split; [|split]]]].
  - intros p Hp. apply list_elem_of_In in Hp.
    apply (elem_of_submseteq _ _ _ Hp) in Hsub. apply list_elem_of_In in Hsub.
    unfold pool, featuredPool in Hsub.
    destruct (fa_category args) as [c|] eqn:Hc; cbn [truthy] in *.
    + destruct (negb (String.eqb c EmptyString)).
      * apply filter_In in Hsub as [Hsub Heq]. apply filter_In in Hsub as [Hin Hf].
        apply String.eqb_eq in Heq. cbn in Heq. unfold Datatypes.id in Heq.
        split; [exact Hin|]. split; [exact Hf|]. intros _. now rewrite Heq.
      * apply filter_In in Hsub as [Hin Hf]. split; [exact Hin|].
        split; [exact Hf|discriminate].
    + apply filter_In in Hsub as [Hin Hf]. split; [exact Hin|].
      split; [exact Hf|discriminate].
  - intros p q Hp Hq Hnot. rewrite Hn in Hp, Hnot.
    apply (sorted_take_drop score (sortDesc score pool) (sortDesc_sorted score pool) n);
      [exact Hp|].
    apply list_elem_of_In in Hq. rewrite <- (sortDesc_perm score) in Hq.
    rewrite <- (take_drop n (sortDesc score pool)) in Hq.
    apply elem_of_app in Hq as [Hq|Hq]; apply list_elem_of_In in Hq;
      [contradiction|exact Hq].
  - intros Hl. rewrite slice0_length by exact Hl.
    now rewrite (Permutation_length (sortDesc_perm score pool)).
  - apply (distinct_fold _ []). constructor.
  - intros c. unfold distinct.
    rewrite (proj2 (distinct_fold
                      (map category (List.filter (fun p => featured p) projectsData)) [])).
    rewrite in_map_iff. split.
    + intros [[]|(p & <- & Hp)]. apply filter_In in Hp as [Hin Hf]. now exists p.
    + intros (p & Hin & Hf & <-). right. exists p. split; [reflexivity|].
      now apply filter_In.
  - intros p Hp. apply list_elem_of_In in Hp.
    apply (elem_of_submseteq _ _ _ Hp) in Hsub. apply list_elem_of_In in Hsub.
    assert (Hin : In p projectsData).
    { unfold pool, featuredPool in Hsub.
      destruct (truthy (fa_category args));
        repeat (apply filter_In in Hsub as [Hsub _]); exact Hsub. }
    rewrite forallb_forall in Hsafe. specialize (Hsafe p Hin).
    unfold safeCounters in Hsafe. unfold score in *. lia.
Qed.

Lemma featured_ranking_witness :
  fd_total (getFeaturedProjects sampleProjects
              {| fa_category := None; fa_limit := Some 1 |})
  = Z.min 1 (Z.of_nat (length (featuredPool sampleProjects
                                 {| fa_category := None; fa_limit := Some 1 |}))).
Proof.
  apply (proj1 (proj2 (proj2 (proj2 (proj2
           (featured_ranking sampleProjects
              {| fa_category := None; fa_limit := Some 1 |} eq_refl)))))).
  vm_compute. discriminate.
Defined.

End ProjectProps.
